(** * Verification of the aliyun message client (package [message])

    The client signs requests for aliyun's POP protocol: a key-sorted,
    form-encoded query string, a provider-specific percent-encoding on top of
    it, and a base64 HMAC-SHA1 signature.  This development embeds
    [message/client.go] together with the parts of Go's standard library it
    calls ([strings], [net/url], [crypto/sha1], [crypto/hmac],
    [encoding/base64], [net/http], [encoding/json]) and proves the
    properties of the specification about them.

    A Go [string] is a sequence of bytes; it is modelled by [string], whose
    characters are the 256 values of [ascii].  The definitions come first,
    package by package, then the reference definitions of the
    specification, then the properties. *)

From Stdlib Require Import ZArith NArith Ascii String List Bool Lia Zdiv.
From stdpp Require Import base tactics option list sorting gmap strings.

Open Scope string_scope.
Open Scope list_scope.

(** ** Package [strings] *)
Module strings.

(** [Replace] with the empty [old]: Go inserts [new] in front of every
    UTF-8 sequence and after the last one.  On a string of ASCII bytes every
    sequence is one byte, which is what is modelled. *)
Fixpoint insert_around (new s : string) : string :=
  match s with
  | "" => new
  | String c t => new +:+ String c (insert_around new t)
  end.

(** The same with at most [k] insertions, the last one possibly at the
    end. *)
Fixpoint insert_before (k : nat) (new s : string) : string :=
  match k with
  | O => s
  | S k' =>
      match s with
      | "" => new
      | String c t => new +:+ String c (insert_before k' new t)
      end
  end.

(** The loop of [strings.Replace] for a non-empty [old]: scan from the
    left, copy bytes up to the next occurrence of [old], write [new], go on
    behind the occurrence.  [lim] is the number of replacements still
    allowed ([None]: no limit); [skip] counts the bytes of a matched
    occurrence still to be stepped over. *)
Fixpoint replace_loop (old new : string) (lim : option nat) (skip : nat)
    (s : string) : string :=
  match s with
  | "" => ""
  | String c t =>
      match skip with
      | S k => replace_loop old new lim k t
      | O =>
          match lim with
          | Some O => s
          | _ =>
              if String.prefix old s
              then new +:+ replace_loop old new (pred <$> lim)
                             (String.length old - 1) t
              else String c (replace_loop old new lim 0 t)
          end
      end
  end.

(** [func Replace(s, old, new string, n int) string]: the first [n]
    non-overlapping occurrences of [old] replaced by [new]; all of them
    when [n < 0]. *)
Definition Replace (s old new : string) (n : Z) : string :=
  if bool_decide (old = new) || (n =? 0)%Z then s
  else
    let lim := if (n <? 0)%Z then None else Some (Z.to_nat n) in
    match old with
    | "" =>
        match lim with
        | None => insert_around new s
        | Some k => insert_before k new s
        end
    | _ => replace_loop old new lim 0 s
    end.

(** [func ToUpper(s string) string] on ASCII bytes: the letters [a] to [z]
    mapped to [A] to [Z], every other byte kept.  Go maps non-ASCII runes by
    the Unicode tables; no rune outside ASCII has [O] or [K] as its upper
    case, so the comparison with ["OK"] made by the client is the same. *)
Definition upper_byte (c : ascii) : ascii :=
  let n := N_of_ascii c in
  if ((97 <=? n) && (n <=? 122))%N then ascii_of_N (n - 32) else c.

Fixpoint ToUpper (s : string) : string :=
  match s with
  | "" => ""
  | String c t => String (upper_byte c) (ToUpper t)
  end.

(** [func Join(elems []string, sep string) string]. *)
Definition Join (elems : list string) (sep : string) : string :=
  String.concat sep elems.

(** [func Contains(s, substr string) bool]. *)
Fixpoint Contains (s substr : string) : bool :=
  String.prefix substr s ||
  match s with
  | "" => false
  | String _ t => Contains t substr
  end.

End strings.

(** ** Package [net/url] *)
Module url.

(** The escaping modes of [url.escape] that the client reaches. *)
Inductive encoding := encodePath | encodeHost | encodeQueryComponent.

#[global] Instance encoding_eq_dec : EqDecision encoding.
Proof. solve_decision. Defined.

Definition is_alnum (c : ascii) : bool :=
  let n := N_of_ascii c in
  ((97 <=? n) && (n <=? 122) || (65 <=? n) && (n <=? 90)
   || (48 <=? n) && (n <=? 57))%N.

Definition byte_in (c : ascii) (set : string) : bool :=
  existsb (Ascii.eqb c) (list_ascii_of_string set).

(** [func shouldEscape(c byte, mode encoding) bool].  The byte 34 is the
    double quote. *)
Definition shouldEscape (c : ascii) (mode : encoding) : bool :=
  if is_alnum c then false
  else if match mode with
          | encodeHost => byte_in c "!$&'()*+,;=:[]<>" || Ascii.eqb c "034"
          | _ => false
          end
  then false
  else if byte_in c "-_.~" then false
  else if byte_in c "$&+,/:;=?@" then
    match mode with
    | encodePath => Ascii.eqb c "?"
    | encodeQueryComponent => true
    | encodeHost => true
    end
  else true.

Definition upperhex : string := "0123456789ABCDEF".

Definition hex_at (n : N) : ascii :=
  default "0"%char (String.get (N.to_nat n) upperhex).

(** The three bytes [%XY] written for an escaped byte:
    [upperhex[c>>4]], [upperhex[c&15]]. *)
Definition pct (c : ascii) : string :=
  String "%" (String (hex_at (N.shiftr (N_of_ascii c) 4))
               (String (hex_at (N.land (N_of_ascii c) 15)) "")).

(** [func escape(s string, mode encoding) string]. *)
Fixpoint escape (s : string) (mode : encoding) : string :=
  match s with
  | "" => ""
  | String c t =>
      (if Ascii.eqb c " " && bool_decide (mode = encodeQueryComponent)
       then "+"
       else if shouldEscape c mode then pct c
       else String c "") +:+ escape t mode
  end.

(** [func QueryEscape(s string) string]. *)
Definition QueryEscape (s : string) : string := escape s encodeQueryComponent.

(** [type Values map[string][]string]. *)
Abbreviation Values := (gmap string (list string)).

(** [func (v Values) Set(key, value string)]: [v[key] = []string{value}].
    A Go map is shared and updated in place; the updated map is returned. *)
Definition Set_ (v : Values) (key value : string) : Values :=
  <[key := [value]]> v.

(** [func (v Values) Get(key string) string]: the first value of [key]. *)
Definition Get (v : Values) (key : string) : string :=
  match v !! key with
  | Some (x :: _) => x
  | _ => ""
  end.

(** [slices.Sort(keys)]: ascending in the byte-wise order of Go strings. *)
Definition sort_keys (keys : list string) : list string :=
  merge_sort String.le keys.

(** The body of the loops of [Encode]: one [key=value] written to [buf],
    after a [&] when [buf] is not empty. *)
Definition write_pair (keyEscaped : string) (buf v : string) : string :=
  (if bool_decide (buf = "") then buf else buf +:+ "&")
  +:+ keyEscaped +:+ "=" +:+ QueryEscape v.

Definition write_key (vals : Values) (buf k : string) : string :=
  fold_left (write_pair (QueryEscape k)) (vals !!! k) buf.

(** [func (v Values) Encode() string], given the order [keys] in which
    [for k := range v] visits the keys, which Go leaves unspecified. *)
Definition Encode_range (keys : list string) (v : Values) : string :=
  if bool_decide (keys = []) then ""
  else fold_left (write_key v) (sort_keys keys) "".

(** One order of [range]: that of the map's representation. *)
Definition range (v : Values) : list string := (map_to_list v).*1.

Definition Encode (v : Values) : string := Encode_range (range v) v.

(** [type URL struct]: the fields the client sets; the others ([Opaque],
    [User], [RawPath], [ForceQuery], [Fragment], ...) keep their zero
    value. *)
Record URL := { Scheme : string; Host : string; Path : string; RawQuery : string }.

(** [func (u *URL) EscapedPath() string] with an empty [RawPath]. *)
Definition EscapedPath (u : URL) : string :=
  if bool_decide (Path u = "*") then "*" else escape (Path u) encodePath.

Definition starts_with (s : string) (c : ascii) : bool :=
  match s with
  | String c' _ => Ascii.eqb c' c
  | "" => false
  end.

(** [func (u *URL) String() string] with the other fields zero:
    [scheme://host/path?query].  The branch that guards a first path
    segment containing a colon needs an empty buffer, that is neither scheme
    nor host. *)
Definition String_ (u : URL) : string :=
  let buf := if bool_decide (Scheme u = "") then "" else Scheme u +:+ ":" in
  let buf :=
    if bool_decide (Scheme u = "") && bool_decide (Host u = "") then buf
    else
      let buf := if bool_decide (Host u = "") && bool_decide (Path u = "")
                 then buf else buf +:+ "//" in
      if bool_decide (Host u = "") then buf else buf +:+ escape (Host u) encodeHost in
  let path := EscapedPath u in
  let buf :=
    if negb (bool_decide (path = "")) && negb (starts_with path "/")
       && negb (bool_decide (Host u = ""))
    then buf +:+ "/" else buf in
  let buf :=
    if bool_decide (buf = "") then
      (* a first segment with a colon is written as [./segment] *)
      let segment := String.substring 0
                       (default (String.length path) (String.index 0 "/" path)) path in
      if strings.Contains segment ":" then "./" else buf
    else buf in
  let buf := buf +:+ path in
  if bool_decide (RawQuery u = "") then buf else buf +:+ "?" +:+ RawQuery u.

End url.

(** ** Bytes

    [[]byte(s)] and [string(b)]: a byte is a [Z] in [0, 256). *)
Definition byte_of (c : ascii) : Z := Z.of_N (N_of_ascii c).
Definition char_of (b : Z) : ascii := ascii_of_N (Z.to_N (b mod 256)).
Definition bytes (s : string) : list Z := byte_of <$> list_ascii_of_string s.
Definition of_bytes (b : list Z) : string := string_of_list_ascii (char_of <$> b).

(** ** Package [crypto/sha1] *)
Module sha1.

Definition Size : nat := 20.
Definition BlockSize : nat := 64.
Definition chunk : nat := 64.

(** [uint32] arithmetic wraps around. *)
Definition u32 (x : Z) : Z := x mod 2 ^ 32.
Definition add32 (x y : Z) : Z := u32 (x + y).
Definition not32 (x : Z) : Z := Z.lxor x 4294967295.

(** [bits.RotateLeft32]. *)
Definition RotateLeft32 (x k : Z) : Z :=
  u32 (Z.lor (Z.shiftl x k) (Z.shiftr x (32 - k))).

Definition init0 : Z := 1732584193.   (* 0x67452301 *)
Definition init1 : Z := 4023233417.   (* 0xEFCDAB89 *)
Definition init2 : Z := 2562383102.   (* 0x98BADCFE *)
Definition init3 : Z := 271733878.    (* 0x10325476 *)
Definition init4 : Z := 3285377520.   (* 0xC3D2E1F0 *)

Definition _K0 : Z := 1518500249.     (* 0x5A827999 *)
Definition _K1 : Z := 1859775393.     (* 0x6ED9EBA1 *)
Definition _K2 : Z := 2400959708.     (* 0x8F1BBCDC *)
Definition _K3 : Z := 3395469782.     (* 0xCA62C1D6 *)

(** The five chaining words [h[0..4]]. *)
Record state := State { h0 : Z; h1 : Z; h2 : Z; h3 : Z; h4 : Z }.

(** [type digest struct { h [5]uint32; x [chunk]byte; nx int; len uint64 }];
    [x] holds the [nx] pending bytes. *)
Record digest := Digest { h : state; x : list Z; len : Z }.

(** [func (d *digest) Reset()], which [New] calls. *)
Definition New : digest :=
  Digest (State init0 init1 init2 init3 init4) [] 0.

(** Big-endian load of the sixteen words of a block. *)
Fixpoint be_words (p : list Z) : list Z :=
  match p with
  | a :: b :: c :: d :: rest =>
      Z.lor (Z.lor (Z.lor (Z.shiftl a 24) (Z.shiftl b 16)) (Z.shiftl c 8)) d
      :: be_words rest
  | _ => []
  end.

(** The message schedule: [w[i] = rotl1 (w[i-3] ^ w[i-8] ^ w[i-14] ^ w[i-16])].
    Go keeps the last sixteen words in a ring; [sched n w] appends [n] more
    words to [w], the word [j] places back being [w !!! (length w - j)]. *)
Fixpoint sched (n : nat) (w : list Z) : list Z :=
  match n with
  | O => w
  | S n' =>
      let i := length w in
      let at_ (j : nat) := w !!! (i - j)%nat in
      let tmp := Z.lxor (Z.lxor (Z.lxor (at_ 3%nat) (at_ 8%nat)) (at_ 14%nat))
                   (at_ 16%nat) in
      sched n' (w ++ [RotateLeft32 tmp 1])
  end.

(** The round function and constant of round [i]. *)
Definition round_f (i : nat) (b c d : Z) : Z :=
  if (i <? 20)%nat then Z.lor (Z.land b c) (Z.land (not32 b) d)
  else if (i <? 40)%nat then Z.lxor (Z.lxor b c) d
  else if (i <? 60)%nat then Z.lor (Z.land (Z.lor b c) d) (Z.land b c)
  else Z.lxor (Z.lxor b c) d.

Definition round_k (i : nat) : Z :=
  if (i <? 20)%nat then _K0 else if (i <? 40)%nat then _K1
  else if (i <? 60)%nat then _K2 else _K3.

(** One round: [t := rotl5(a) + f + e + w[i] + K] and
    [a, b, c, d, e = t, a, rotl30(b), c, d]. *)
Definition round (i : nat) (wi : Z) (s : state) : state :=
  let '(State a b c d e) := s in
  let t := add32 (add32 (add32 (add32 (RotateLeft32 a 5) (round_f i b c d)) e) wi)
             (round_k i) in
  State t a (RotateLeft32 b 30) c d.

Fixpoint rounds (i : nat) (w : list Z) (s : state) : state :=
  match w with
  | [] => s
  | wi :: w' => rounds (S i) w' (round i wi s)
  end.

(** [blockGeneric] on one 64-byte block. *)
Definition block (s : state) (p : list Z) : state :=
  let w := sched 64 (be_words p) in
  let '(State a b c d e) := rounds 0 w s in
  State (add32 (h0 s) a) (add32 (h1 s) b) (add32 (h2 s) c) (add32 (h3 s) d)
    (add32 (h4 s) e).

(** One byte written: it joins the pending bytes, and a full buffer is
    compressed.  Go copies in bulk; the same blocks are compressed in the
    same order. *)
Definition push (d : digest) (b : Z) : digest :=
  let x' := x d ++ [b] in
  if (length x' =? chunk)%nat
  then Digest (block (h d) x') [] ((len d + 1) mod 2 ^ 64)
  else Digest (h d) x' ((len d + 1) mod 2 ^ 64).

(** [func (d *digest) Write(p []byte) (nn int, err error)]. *)
Definition Write (d : digest) (p : list Z) : digest := fold_left push p d.

(** [binary.BigEndian.PutUint64]. *)
Definition be64 (n : Z) : list Z :=
  (fun k => Z.shiftr n (8 * Z.of_nat k) mod 256)%Z <$> [7; 6; 5; 4; 3; 2; 1; 0]%nat.

(** [binary.BigEndian.PutUint32]. *)
Definition be32 (n : Z) : list Z :=
  (fun k => Z.shiftr n (8 * Z.of_nat k) mod 256)%Z <$> [3; 2; 1; 0]%nat.

(** The padding [checkSum] writes: a 1 bit, 0 bits up to 56 bytes mod 64,
    the length in bits. *)
Definition padding (len : Z) : list Z :=
  let t := (if len mod 64 <? 56 then 56 - len mod 64 else 64 + 56 - len mod 64)%Z in
  128%Z :: replicate (Z.to_nat t - 1) 0%Z ++ be64 ((len * 8) mod 2 ^ 64)%Z.

(** [func (d *digest) checkSum() [Size]byte].  Go panics when bytes are
    pending after the padding, which does not happen
    ([checkSum_buffer_empty]). *)
Definition checkSum (d : digest) : list Z :=
  let d' := Write d (padding (len d)) in
  let '(State a b c d e) := h d' in
  be32 a ++ be32 b ++ be32 c ++ be32 d ++ be32 e.

(** [func (d *digest) Sum(in []byte) []byte]: the digest appended to [in];
    [d] itself is not changed. *)
Definition Sum (d : digest) (in_ : list Z) : list Z := in_ ++ checkSum d.

End sha1.

(** ** Package [crypto/hmac], over SHA-1 *)
Module hmac.

(** [type hmac struct { opad, ipad []byte; outer, inner hash.Hash }]; [ipad]
    is only used by [New] and [Reset], [outer] is reset by every [Sum]. *)
Record hmac := HMAC { opad : list Z; ipad : list Z; inner : sha1.digest }.

(** [copy(pad, key)] into [blocksize] zero bytes. *)
Definition pad_key (key : list Z) : list Z :=
  key ++ replicate (sha1.BlockSize - length key) 0%Z.

(** [func New(h func() hash.Hash, key []byte) hash.Hash] with [h = sha1.New]. *)
Definition New (key : list Z) : hmac :=
  let key :=
    if (sha1.BlockSize <? length key)%nat
    then sha1.Sum (sha1.Write sha1.New key) []
    else key in
  let ipad := (fun b => Z.lxor b 54%Z) <$> pad_key key in   (* 0x36 *)
  let opad := (fun b => Z.lxor b 92%Z) <$> pad_key key in   (* 0x5c *)
  HMAC opad ipad (sha1.Write sha1.New ipad).

(** [func (h *hmac) Write(p []byte) (n int, err error)]. *)
Definition Write (m : hmac) (p : list Z) : hmac :=
  HMAC (opad m) (ipad m) (sha1.Write (inner m) p).

(** [func (h *hmac) Sum(in []byte) []byte]. *)
Definition Sum (m : hmac) (in_ : list Z) : list Z :=
  let origLen := length in_ in
  let in' := sha1.Sum (inner m) in_ in
  let outer := sha1.Write sha1.New (opad m) in
  let outer := sha1.Write outer (drop origLen in') in
  sha1.Sum outer (take origLen in').

End hmac.

(** ** Package [encoding/base64] *)
Module base64.

Definition encodeStd : string :=
  "ABCDEFGHIJKLMNOPQRSTUVWXYZabcdefghijklmnopqrstuvwxyz0123456789+/".

Definition StdPadding : ascii := "="%char.

Definition enc (v : Z) : ascii :=
  default "A"%char (String.get (Z.to_nat (Z.land v 63)) encodeStd).

(** [func (enc *Encoding) EncodeToString(src []byte) string] for
    [StdEncoding]: three bytes give four characters; a remainder of one or
    two bytes gives two or three characters and padding. *)
Fixpoint EncodeToString (src : list Z) : string :=
  match src with
  | [] => ""
  | [a] =>
      let val := Z.shiftl a 16 in
      String (enc (Z.shiftr val 18)) (String (enc (Z.shiftr val 12))
        (String StdPadding (String StdPadding "")))
  | [a; b] =>
      let val := Z.lor (Z.shiftl a 16) (Z.shiftl b 8) in
      String (enc (Z.shiftr val 18)) (String (enc (Z.shiftr val 12))
        (String (enc (Z.shiftr val 6)) (String StdPadding "")))
  | a :: b :: c :: rest =>
      let val := Z.lor (Z.lor (Z.shiftl a 16) (Z.shiftl b 8)) c in
      String (enc (Z.shiftr val 18)) (String (enc (Z.shiftr val 12))
        (String (enc (Z.shiftr val 6)) (String (enc val) (EncodeToString rest))))
  end.

End base64.

(** ** Errors

    A Go [error] is an interface value; the client only passes errors on.
    The errors that can reach it are those of the JSON decoder and those of
    the collaborators it calls (transport, body reader, request constructor,
    UUID generator), which carry their message. *)
Inductive error :=
  | SyntaxError                                   (* [*json.SyntaxError] *)
  | UnmarshalTypeError (Value Field : string)     (* [*json.UnmarshalTypeError] *)
  | ErrorString (msg : string).                   (* any other error *)

(** ** Package [net/http] *)
Module http.

(** [type Request struct]: the method and the URL given to [NewRequest]. *)
Record Request := { Method : string; URL : string }.

(** [resp.Body], an [io.ReadCloser]: the bytes it yields, and the error
    that ends the reading if it is not [io.EOF]. *)
Record Body := { data : string; failure : option error }.

(** [type Response struct]: the status code and the body. *)
Record Response := { StatusCode : Z; Body_ : Body }.

(** [isToken], which [validMethod] asks of every byte of the method. *)
Definition isTokenByte (c : ascii) : bool :=
  url.is_alnum c || url.byte_in c "!#$%&'*+-.^_`|~".

Definition validMethod (method : string) : bool :=
  negb (bool_decide (method = ""))
  && forallb isTokenByte (list_ascii_of_string method).

(** [stringContainsCTLByte], the first check of [url.Parse]. *)
Definition isCTL (c : ascii) : bool :=
  ((N_of_ascii c <? 32) || (N_of_ascii c =? 127))%N.

Definition stringContainsCTLByte (s : string) : bool :=
  existsb isCTL (list_ascii_of_string s).

(** [func NewRequest(method, url string, body io.Reader)] with a [nil]
    body, which returns a request or an error.  Of the checks of
    [url.Parse] the one for control bytes is modelled; the others (scheme,
    host, port) do not fail on [http://<host name>/?<query>]. *)
Definition NewRequest (method urlStr : string) : Request + error :=
  if negb (validMethod method)
  then inr (ErrorString ("net/http: invalid method " +:+ method))
  else if stringContainsCTLByte urlStr
  then inr (ErrorString "net/url: invalid control character in URL")
  else inl {| Method := method; URL := urlStr |}.

End http.

(** ** Package [io/ioutil] *)
Module ioutil.

(** [func ReadAll(r io.Reader) ([]byte, error)]: the bytes read and the
    error met, if any. *)
Definition ReadAll (r : http.Body) : string * option error :=
  (http.data r, http.failure r).

End ioutil.

(** ** Package [encoding/json]

    [Unmarshal] first checks that the whole input is one JSON value
    (RFC 8259) and then stores the value in the destination.  The destination
    of the client is a struct whose fields are all strings.  Inside a JSON
    string a byte above 127 that does not begin a well-formed UTF-8 sequence
    is replaced by U+FFFD, as the decoder's "coerce to well-formed UTF-8"
    does. *)
Module json.

#[local] Set Warnings "-register-all".

Inductive value :=
  | Null
  | Bool (b : bool)
  | Number (lit : string)
  | Str (s : string)
  | Array (elems : list value)
  | Object (members : list (string * value)).

Definition maxNestingDepth : N := 10000.

(** Space, tab, carriage return, line feed. *)
Definition isSpace (c : ascii) : bool :=
  Ascii.eqb c " " || Ascii.eqb c "009" || Ascii.eqb c "013" || Ascii.eqb c "010".

Fixpoint skip_space (s : string) : string :=
  match s with
  | String c t => if isSpace c then skip_space t else s
  | "" => ""
  end.

Definition in_range (c : ascii) (lo hi : N) : bool :=
  ((lo <=? N_of_ascii c) && (N_of_ascii c <=? hi))%N.

Definition isDigit (c : ascii) : bool := in_range c 48 57.

Definition hex_val (c : ascii) : option N :=
  let n := N_of_ascii c in
  if in_range c 48 57 then Some (n - 48)%N
  else if in_range c 97 102 then Some (n - 87)%N
  else if in_range c 65 70 then Some (n - 55)%N
  else None.

(** [getu4]: the code unit written by four hexadecimal digits. *)
Definition getu4 (a b c d : ascii) : option N :=
  x1 ← hex_val a; x2 ← hex_val b; x3 ← hex_val c; x4 ← hex_val d;
  Some (x1 * 4096 + x2 * 256 + x3 * 16 + x4)%N.

(** [utf8.EncodeRune] of a code point that is not a surrogate. *)
Definition EncodeRune (r : N) : string :=
  let b (n : N) := ascii_of_N n in
  let cont (k : N) := b (N.lor 128 (N.land (N.shiftr r k) 63)) in
  if (r <? 128)%N then String (b r) ""
  else if (r <? 2048)%N then String (b (N.lor 192 (N.shiftr r 6))) (String (cont 0%N) "")
  else if (r <? 65536)%N then
    String (b (N.lor 224 (N.shiftr r 12))) (String (cont 6%N) (String (cont 0%N) ""))
  else
    String (b (N.lor 240 (N.shiftr r 18)))
      (String (cont 12%N) (String (cont 6%N) (String (cont 0%N) ""))).

Definition ReplacementChar : N := 65533.

(** [utf16.IsSurrogate] and [utf16.DecodeRune]. *)
Definition IsSurrogate (r : N) : bool := ((55296 <=? r) && (r <? 57344))%N.

Definition DecodeRune (r1 r2 : N) : N :=
  if ((55296 <=? r1) && (r1 <? 56320) && (56320 <=? r2) && (r2 <? 57344))%N
  then (N.lor (N.shiftl (r1 - 55296) 10) (r2 - 56320) + 65536)%N
  else ReplacementChar.

(** The character written by a one-letter escape; the bytes 34 and 92 are
    the double quote and the backslash. *)
Definition escape_char (e : ascii) : option ascii :=
  if Ascii.eqb e "034" then Some "034"%char
  else if Ascii.eqb e "092" then Some "092"%char
  else if Ascii.eqb e "/" then Some "/"%char
  else if Ascii.eqb e "b" then Some "008"%char
  else if Ascii.eqb e "f" then Some "012"%char
  else if Ascii.eqb e "n" then Some "010"%char
  else if Ascii.eqb e "r" then Some "013"%char
  else if Ascii.eqb e "t" then Some "009"%char
  else None.

(** [utf8.DecodeRune] at a first byte above 127: the length of the
    sequence that the byte begins and the range of its second byte; [None]
    for a byte that begins none (80 to C1 and F5 to FF in hexadecimal).  The
    ranges are the decoder's: E0 is followed by A0 to BF, ED by 80 to 9F, F0
    by 90 to BF, F4 by 80 to 8F, every other first byte by 80 to BF. *)
Definition utf8_first (c : ascii) : option (nat * N * N) :=
  let n := N_of_ascii c in
  if (n <? 194)%N then None
  else if (n <? 224)%N then Some (2%nat, 128%N, 191%N)
  else if (n =? 224)%N then Some (3%nat, 160%N, 191%N)
  else if (n =? 237)%N then Some (3%nat, 128%N, 159%N)
  else if (n <? 240)%N then Some (3%nat, 128%N, 191%N)
  else if (n =? 240)%N then Some (4%nat, 144%N, 191%N)
  else if (n <? 244)%N then Some (4%nat, 128%N, 191%N)
  else if (n =? 244)%N then Some (4%nat, 128%N, 143%N)
  else None.

Definition prepend (p : string) (r : option (string * string)) :
    option (string * string) :=
  '(body, rest) ← r; Some (p +:+ body, rest).

(** A string literal behind its opening quote: the string it denotes and
    the input behind its closing quote.  A [\u] escape that is a surrogate
    is combined with a following [\u] escape when the two make a pair, and
    is the replacement character otherwise.  A well-formed UTF-8 sequence
    is copied; any other byte above 127 is the replacement character, and
    the decoding goes on at the next byte. *)
Fixpoint string_body (s : string) : option (string * string) :=
  match s with
  | "" => None
  | String c t =>
      if Ascii.eqb c "034" then Some ("", t)
      else if Ascii.eqb c "092" then
        match t with
        | "" => None
        | String e t1 =>
            if Ascii.eqb e "u" then
              match t1 with
              | String x1 (String x2 (String x3 (String x4 t2))) =>
                  match getu4 x1 x2 x3 x4 with
                  | None => None
                  | Some rr =>
                      if IsSurrogate rr then
                        let lone := prepend (EncodeRune ReplacementChar) (string_body t2) in
                        match t2 with
                        | String b1 (String b2 (String y1 (String y2 (String y3
                            (String y4 t3))))) =>
                            match (if Ascii.eqb b1 "092" && Ascii.eqb b2 "u"
                                   then getu4 y1 y2 y3 y4 else None) with
                            | Some rr1 =>
                                let dec := DecodeRune rr rr1 in
                                if (dec =? ReplacementChar)%N then lone
                                else prepend (EncodeRune dec) (string_body t3)
                            | None => lone
                            end
                        | _ => lone
                        end
                      else prepend (EncodeRune rr) (string_body t2)
                  end
              | _ => None
              end
            else
              match escape_char e with
              | Some ch => prepend (String ch "") (string_body t1)
              | None => None
              end
        end
      else if (N_of_ascii c <? 32)%N then None
      else if (N_of_ascii c <? 128)%N then prepend (String c "") (string_body t)
      else
        let invalid := prepend (EncodeRune ReplacementChar) (string_body t) in
        match utf8_first c with
        | None => invalid
        | Some (size, lo, hi) =>
            match t with
            | "" => invalid
            | String b1 t1 =>
                if negb (in_range b1 lo hi) then invalid
                else if (size =? 2)%nat
                then prepend (String c (String b1 "")) (string_body t1)
                else
                  match t1 with
                  | "" => invalid
                  | String b2 t2 =>
                      if negb (in_range b2 128 191) then invalid
                      else if (size =? 3)%nat
                      then prepend (String c (String b1 (String b2 ""))) (string_body t2)
                      else
                        match t2 with
                        | "" => invalid
                        | String b3 t3 =>
                            if negb (in_range b3 128 191) then invalid
                            else prepend (String c (String b1 (String b2 (String b3 ""))))
                                   (string_body t3)
                        end
                  end
            end
        end
  end.

Fixpoint span_digits (s : string) : string * string :=
  match s with
  | String c t =>
      if isDigit c then let '(ds, rest) := span_digits t in (String c ds, rest)
      else ("", s)
  | "" => ("", "")
  end.

(** One or more digits. *)
Definition digits1 (s : string) : option (string * string) :=
  let '(ds, rest) := span_digits s in
  if bool_decide (ds = "") then None else Some (ds, rest).

(** A number: an optional minus sign; a zero, or a digit that is not zero
    and any digits; optionally a point and digits; optionally [e] or [E],
    an optional sign and digits. *)
Definition number (s : string) : option (string * string) :=
  let '(sign, s) :=
    match s with
    | String c t => if Ascii.eqb c "-" then ("-", t) else ("", s)
    | "" => ("", s)
    end in
  '(int, s) ←
    match s with
    | String c t =>
        if Ascii.eqb c "0" then Some ("0", t)
        else if isDigit c then digits1 s
        else None
    | "" => None
    end;
  '(frac, s) ←
    match s with
    | String c t =>
        if Ascii.eqb c "." then '(ds, r) ← digits1 t; Some ("." +:+ ds, r)
        else Some ("", s)
    | "" => Some ("", s)
    end;
  '(exp, s) ←
    match s with
    | String c t =>
        if Ascii.eqb c "e" || Ascii.eqb c "E" then
          let '(sg, t) :=
            match t with
            | String c' t' =>
                if Ascii.eqb c' "+" || Ascii.eqb c' "-" then (String c' "", t') else ("", t)
            | "" => ("", t)
            end in
          '(ds, r) ← digits1 t; Some (String c sg +:+ ds, r)
        else Some ("", s)
    | "" => Some ("", s)
    end;
  Some (sign +:+ int +:+ frac +:+ exp, s).

(** [lit] taken off the front of [s]. *)
Definition literal (lit s : string) : option string :=
  if String.prefix lit s
  then Some (String.substring (String.length lit) (String.length s - String.length lit) s)
  else None.

(** One JSON value at the front of [s], and the input behind it.  [depth]
    is the number of arrays and objects that are open.  [fuel] bounds the
    nested calls; each of them is made on a shorter input or follows one
    that is, so that fuel beyond twice the length of the input is never
    used ([fuel_irrelevant]). *)
Fixpoint value_ (fuel : nat) (depth : N) (s : string) : option (value * string) :=
  match fuel with
  | O => None
  | S fuel =>
      match skip_space s with
      | "" => None
      | String c t =>
          if Ascii.eqb c "{" then
            if (maxNestingDepth <? depth + 1)%N then None
            else
              match skip_space t with
              | String c' t' =>
                  if Ascii.eqb c' "}" then Some (Object [], t')
                  else '(ms, r) ← members fuel (depth + 1)%N t; Some (Object ms, r)
              | "" => None
              end
          else if Ascii.eqb c "[" then
            if (maxNestingDepth <? depth + 1)%N then None
            else
              match skip_space t with
              | String c' t' =>
                  if Ascii.eqb c' "]" then Some (Array [], t')
                  else '(vs, r) ← elements fuel (depth + 1)%N t; Some (Array vs, r)
              | "" => None
              end
          else if Ascii.eqb c "034" then
            '(str, r) ← string_body t; Some (Str str, r)
          else if Ascii.eqb c "-" || isDigit c then
            '(lit, r) ← number (String c t); Some (Number lit, r)
          else if Ascii.eqb c "t" then r ← literal "true" (String c t); Some (Bool true, r)
          else if Ascii.eqb c "f" then r ← literal "false" (String c t); Some (Bool false, r)
          else if Ascii.eqb c "n" then r ← literal "null" (String c t); Some (Null, r)
          else None
      end
  end
(** The elements of an array behind its opening bracket or a comma, up to
    the closing bracket. *)
with elements (fuel : nat) (depth : N) (s : string) : option (list value * string) :=
  match fuel with
  | O => None
  | S fuel =>
      '(v, r) ← value_ fuel depth s;
      match skip_space r with
      | String c t =>
          if Ascii.eqb c "," then '(vs, r') ← elements fuel depth t; Some (v :: vs, r')
          else if Ascii.eqb c "]" then Some ([v], t)
          else None
      | "" => None
      end
  end
(** The members of an object behind its opening brace or a comma, up to
    the closing brace. *)
with members (fuel : nat) (depth : N) (s : string) :
    option (list (string * value) * string) :=
  match fuel with
  | O => None
  | S fuel =>
      match skip_space s with
      | String q t =>
          if Ascii.eqb q "034" then
            '(key, r) ← string_body t;
            match skip_space r with
            | String c t' =>
                if Ascii.eqb c ":" then
                  '(v, r') ← value_ fuel depth t';
                  match skip_space r' with
                  | String c' t'' =>
                      if Ascii.eqb c' "," then
                        '(ms, r'') ← members fuel depth t''; Some ((key, v) :: ms, r'')
                      else if Ascii.eqb c' "}" then Some ([(key, v)], t'')
                      else None
                  | "" => None
                  end
                else None
            | "" => None
            end
          else None
      | "" => None
      end
  end.

(** The whole input as one value, white space around it allowed. *)
Definition parse (data : string) : option value :=
  '(v, r) ← value_ (2 * String.length data + 1) 0 data;
  if bool_decide (skip_space r = "") then Some v else None.

(** A destination struct all of whose fields are strings: the names of the
    fields in JSON, and the assignment to the field of a given name. *)
Class Struct (R : Type) := {
  fields : list string;
  set_field : string → string → R → R
}.

(** [foldName]: ASCII letters in upper case; of the other runes the two
    that fold to an ASCII letter, U+017F (bytes C5 BF) to [S] and U+212A
    (bytes E2 84 AA) to [K]. *)
Fixpoint foldName (s : string) : string :=
  match s with
  | "" => ""
  | String c t =>
      let n := N_of_ascii c in
      match t with
      | String c1 t1 =>
          if ((n =? 197) && (N_of_ascii c1 =? 191))%N then String "S" (foldName t1)
          else
            match t1 with
            | String c2 t2 =>
                if ((n =? 226) && (N_of_ascii c1 =? 132) && (N_of_ascii c2 =? 170))%N
                then String "K" (foldName t2)
                else String (strings.upper_byte c) (foldName t)
            | "" => String (strings.upper_byte c) (foldName t)
            end
      | "" => String (strings.upper_byte c) ""
      end
  end.

(** The field a key is stored in: the one of that name, else the first
    one whose name is the key up to case. *)
Definition find_field (names : list string) (key : string) : option string :=
  if bool_decide (key ∈ names) then Some key
  else List.find (λ name, String.eqb (foldName name) (foldName key)) names.

(** The kind of a value as [UnmarshalTypeError.Value] names it. *)
Definition kind (v : value) : string :=
  match v with
  | Null => "null"
  | Bool _ => "bool"
  | Number _ => "number"
  | Str _ => "string"
  | Array _ => "array"
  | Object _ => "object"
  end.

(** [saveError]: the first error is the one reported. *)
Definition saveError (saved : option error) (err : error) : option error :=
  match saved with
  | Some _ => saved
  | None => Some err
  end.

(** One member stored: a string is assigned, [null] leaves the field as it
    is, any other value is a type error and is skipped; a key that names
    no field is skipped. *)
Definition store_member `{Struct R} (st : R * option error) (m : string * value) :
    R * option error :=
  match find_field fields m.1 with
  | None => st
  | Some f =>
      match m.2 with
      | Str x => (set_field f x st.1, st.2)
      | Null => st
      | v => (st.1, saveError st.2 (UnmarshalTypeError (kind v) f))
      end
  end.

(** [func Unmarshal(data []byte, v any) error] for [v] a pointer to such a
    struct: the struct after the call and the error. *)
Definition Unmarshal `{Struct R} (data : string) (v : R) : R * option error :=
  match parse data with
  | None => (v, Some SyntaxError)
  | Some (Object ms) => fold_left store_member ms (v, None)
  | Some Null => (v, None)
  | Some j => (v, Some (UnmarshalTypeError (kind j) ""))
  end.

End json.

(** ** The world outside the client

    What a call observes of its environment and what it does to it: the
    clock read by [time.Now], the outcome of the next [uuid.New] (the
    identifier and the error; the library returns the empty string with an
    error), what [http.Client.Do] comes back with for a request handed to
    it, and the requests handed to it so far.

    [Do] is the library's and is not opened up: [remote] stands for the call
    as a whole.  Its response is the one at the end of the redirects that
    the client follows; its error is the one [Do] returns, which wraps the
    error of the transport. *)
Definition Time := Z.

Record World := {
  clock : Time;
  next_uuid : string * option error;
  remote : http.Request → http.Response + error;
  wire : list http.Request
}.

(** Computations on the world, sequenced by [x ← m; k]. *)
Definition IO (A : Type) : Type := World → A * World.

#[global] Instance IO_ret : MRet IO := λ A a w, (a, w).

#[global] Instance IO_bind : MBind IO :=
  λ A B k m w, let '(a, w') := m w in k a w'.

(** [time.Now()]. *)
Definition time_Now : IO Time := fun w => (clock w, w).

(** [uuid.New()] of [github.com/northbright/uuid]. *)
Definition uuid_New : IO (string * option error) := fun w => (next_uuid w, w).

(** [func (c *http.Client) Do(req *Request)]: the request is handed over,
    and the world says what comes back, a response or an error. *)
Definition http_Do (req : http.Request) : IO (http.Response + error) :=
  fun w =>
    (remote w req,
     {| clock := clock w; next_uuid := next_uuid w; remote := remote w;
        wire := wire w ++ [req] |}).

(** ** Package [message] *)
Module message.

(** The two helpers of the package that [client.go] calls and does not
    define: [GenTimestamp] formats a time as the provider wants it,
    [GenPhoneNumbersStr] joins the phone numbers. *)
Class Helpers := {
  GenTimestamp : Time → string;
  GenPhoneNumbersStr : list string → string
}.

(** Modelled from the spec: [type Param], declared outside [client.go],
    whose field [f] the client calls on the parameter set; an override is
    "capable of mutating the in-flight parameter set before signing". *)
Record Param := { f : url.Values → url.Values }.

(** Modelled from the spec: the override that sets one key, such as the
    helpers [Timestamp()] and [SignatureNonce()] the comments of the client
    name ("override values replace same-keyed defaults"). *)
Definition SetParam (key value : string) : Param :=
  {| f := λ v, url.Set_ v key value |}.

(** [type Client struct]; the embedded [http.Client], whose [Do] the
    operations call, is the world's [remote]. *)
Record Client := { accessKeyID : string; accessKeySecret : string }.

(** [type Response struct]. *)
Record Response := { RequestID : string; Code : string; Message : string }.

(** [type SMSResponse struct { Response; BizID string }]. *)
Record SMSResponse := { SMS_Response : Response; BizID : string }.

(** [type SingleCallByTTSResponse struct { Response; CallID string }]. *)
Record SingleCallByTTSResponse := { TTS_Response : Response; CallID : string }.

(** The [json] tags of the fields. *)
Definition set_Response (name x : string) (r : Response) : Response :=
  if String.eqb name "RequestId"
  then {| RequestID := x; Code := Code r; Message := Message r |}
  else if String.eqb name "Code"
  then {| RequestID := RequestID r; Code := x; Message := Message r |}
  else if String.eqb name "Message"
  then {| RequestID := RequestID r; Code := Code r; Message := x |}
  else r.

#[global] Instance SMSResponse_struct : json.Struct SMSResponse := {|
  json.fields := ["RequestId"; "Code"; "Message"; "BizId"];
  json.set_field name x r :=
    if String.eqb name "BizId"
    then {| SMS_Response := SMS_Response r; BizID := x |}
    else {| SMS_Response := set_Response name x (SMS_Response r); BizID := BizID r |}
|}.

#[global] Instance SingleCallByTTSResponse_struct :
    json.Struct SingleCallByTTSResponse := {|
  json.fields := ["RequestId"; "Code"; "Message"; "CallId"];
  json.set_field name x r :=
    if String.eqb name "CallId"
    then {| TTS_Response := TTS_Response r; CallID := x |}
    else {| TTS_Response := set_Response name x (TTS_Response r); CallID := CallID r |}
|}.

Definition zero_Response : Response :=
  {| RequestID := ""; Code := ""; Message := "" |}.

(** [func NewClient(accessKeyID, accessKeySecret string) *Client]. *)
Definition NewClient (accessKeyID accessKeySecret : string) : Client :=
  {| accessKeyID := accessKeyID; accessKeySecret := accessKeySecret |}.

(** [func SpecialURLEncode(str string) string]. *)
Definition SpecialURLEncode (str : string) : string :=
  let encodedStr := url.QueryEscape str in
  let encodedStr := strings.Replace encodedStr "+" "%20" (-1) in
  let encodedStr := strings.Replace encodedStr "*" "%2A" (-1) in
  let encodedStr := strings.Replace encodedStr "%7E" "~" (-1) in
  encodedStr.

(** [func (c *Client) SignedString(httpMethod, sortedQueryStr string) string]. *)
Definition SignedString (c : Client) (httpMethod sortedQueryStr : string) : string :=
  let str := httpMethod +:+ "&" +:+ url.QueryEscape "/" +:+ "&"
             +:+ SpecialURLEncode sortedQueryStr in
  let mac := hmac.New (bytes (accessKeySecret c +:+ "&")) in
  let mac := hmac.Write mac (bytes str) in
  let sign := base64.EncodeToString (hmac.Sum mac []) in
  SpecialURLEncode sign.

Section client.
Context `{Helpers}.

(** [func (c *Client) SetDefaultCommonParams(v url.Values)]; the error of
    [uuid.New] is assigned to [_]. *)
Definition SetDefaultCommonParams (c : Client) (v : url.Values) : IO url.Values :=
  let v := url.Set_ v "AccessKeyId" (accessKeyID c) in
  now ← time_Now;
  let v := url.Set_ v "Timestamp" (GenTimestamp now) in
  let v := url.Set_ v "Format" "JSON" in
  let v := url.Set_ v "SignatureMethod" "HMAC-SHA1" in
  let v := url.Set_ v "SignatureVersion" "1.0" in
  '(UUID, _) ← uuid_New;
  mret (url.Set_ v "SignatureNonce" UUID).

(** [for _, param := range params { param.f(v) }]. *)
Definition apply_params (params : list Param) (v : url.Values) : url.Values :=
  fold_left (λ v param, f param v) params v.

(** [func (c *Client) SendSMS(phoneNumbers []string, signName,
    templateCode, templateParam string, params ...Param)], which returns
    the success status, the response ([None] for [nil]) and the error.
    [defer resp.Body.Close()] has no effect that the world records. *)
Definition SendSMS (c : Client) (phoneNumbers : list string)
    (signName templateCode templateParam : string) (params : list Param) :
    IO (bool * option SMSResponse * option error) :=
  let v : url.Values := ∅ in
  v ← SetDefaultCommonParams c v;
  let v := url.Set_ v "Action" "SendSms" in
  let v := url.Set_ v "Version" "2017-05-25" in
  let v := url.Set_ v "RegionId" "cn-hangzhou" in
  let v := url.Set_ v "PhoneNumbers" (GenPhoneNumbersStr phoneNumbers) in
  let v := url.Set_ v "SignName" signName in
  let v := url.Set_ v "TemplateCode" templateCode in
  let v := url.Set_ v "TemplateParam" templateParam in
  let v := apply_params params v in
  let sortedQueryStr := url.Encode v in
  let sign := SignedString c "GET" sortedQueryStr in
  let rawQuery := "Signature=" +:+ sign +:+ "&" +:+ sortedQueryStr in
  let u := {| url.Scheme := "http"; url.Host := "dysmsapi.aliyuncs.com";
              url.Path := "/"; url.RawQuery := rawQuery |} in
  match http.NewRequest "GET" (url.String_ u) with
  | inr err => mret (false, None, Some err)
  | inl req =>
      resp ← http_Do req;
      match resp with
      | inr err => mret (false, None, Some err)
      | inl resp =>
          match ioutil.ReadAll (http.Body_ resp) with
          | (_, Some err) => mret (false, None, Some err)
          | (buf, None) =>
              let response := {| SMS_Response := zero_Response; BizID := "" |} in
              match json.Unmarshal buf response with
              | (_, Some err) => mret (false, None, Some err)
              | (response, None) =>
                  if negb (String.eqb (strings.ToUpper (Code (SMS_Response response))) "OK")
                  then mret (false, Some response, None)
                  else mret (true, Some response, None)
              end
          end
      end
  end.

(** [func (c *Client) MakeSingleCallByTTS(calledShowNumber, calledNumber,
    ttsCode, ttsParam string, params ...Param)]. *)
Definition MakeSingleCallByTTS (c : Client)
    (calledShowNumber calledNumber ttsCode ttsParam : string) (params : list Param) :
    IO (bool * option SingleCallByTTSResponse * option error) :=
  let v : url.Values := ∅ in
  v ← SetDefaultCommonParams c v;
  let v := url.Set_ v "Action" "SingleCallByTts" in
  let v := url.Set_ v "Version" "2017-05-25" in
  let v := url.Set_ v "RegionId" "cn-hangzhou" in
  let v := url.Set_ v "CalledShowNumber" calledShowNumber in
  let v := url.Set_ v "CalledNumber" calledNumber in
  let v := url.Set_ v "TtsCode" ttsCode in
  let v := url.Set_ v "TtsParam" ttsParam in
  let v := apply_params params v in
  let sortedQueryStr := url.Encode v in
  let sign := SignedString c "GET" sortedQueryStr in
  let rawQuery := "Signature=" +:+ sign +:+ "&" +:+ sortedQueryStr in
  let u := {| url.Scheme := "http"; url.Host := "dyvmsapi.aliyuncs.com";
              url.Path := "/"; url.RawQuery := rawQuery |} in
  match http.NewRequest "GET" (url.String_ u) with
  | inr err => mret (false, None, Some err)
  | inl req =>
      resp ← http_Do req;
      match resp with
      | inr err => mret (false, None, Some err)
      | inl resp =>
          match ioutil.ReadAll (http.Body_ resp) with
          | (_, Some err) => mret (false, None, Some err)
          | (buf, None) =>
              let response := {| TTS_Response := zero_Response; CallID := "" |} in
              match json.Unmarshal buf response with
              | (_, Some err) => mret (false, None, Some err)
              | (response, None) =>
                  if negb (String.eqb (strings.ToUpper (Code (TTS_Response response))) "OK")
                  then mret (false, Some response, None)
                  else mret (true, Some response, None)
              end
          end
      end
  end.

End client.

End message.

(** ** The specification's reference definitions

    These follow the words of the specification, not the code; the theorems
    below compare the code with them. *)
Module spec.

(** *** Encoding *)

(** The characters that percent-encoding leaves as they are. *)
Definition unreserved (c : ascii) : bool :=
  url.byte_in c "ABCDEFGHIJKLMNOPQRSTUVWXYZabcdefghijklmnopqrstuvwxyz0123456789-_.~".

Definition hex_digit (n : N) : ascii :=
  if (n <? 10)%N then ascii_of_N (48 + n) else ascii_of_N (55 + n).

(** [%XY], the two upper-case hexadecimal digits of the byte. *)
Definition percent (c : ascii) : string :=
  String "%" (String (hex_digit (N_of_ascii c / 16))
               (String (hex_digit (N_of_ascii c mod 16)) "")).

(** Standard form-encoding: "space becomes [+], reserved characters
    escaped". *)
Definition form_byte (c : ascii) : string :=
  if Ascii.eqb c " " then "+"
  else if unreserved c then String c ""
  else percent c.

Fixpoint form_encode (s : string) : string :=
  match s with
  | "" => ""
  | String c t => form_byte c +:+ form_encode t
  end.

Fixpoint drop_bytes (n : nat) (s : string) : string :=
  match n, s with
  | S n', String _ t => drop_bytes n' t
  | _, _ => s
  end.

(** "Replace every literal [old] with [new]": at an occurrence of [old],
    [new] is written and the text behind the occurrence is treated in the
    same way; elsewhere the character is kept.  [fuel] bounds the number of
    steps, one for each character at most. *)
Fixpoint replace_every (fuel : nat) (old new s : string) : string :=
  match fuel with
  | O => s
  | S fuel =>
      match s with
      | "" => ""
      | String c t =>
          if String.prefix old s
          then new +:+ replace_every fuel old new (drop_bytes (String.length old) s)
          else String c (replace_every fuel old new t)
      end
  end.

Definition replace_all (old new s : string) : string :=
  replace_every (String.length s) old new s.

(** Special encoding as the specification words it: "take the standard
    percent-encoded form of the input and then apply three textual
    substitutions, in this order". *)
Definition special_encode (s : string) : string :=
  replace_all "%7E" "~" (replace_all "*" "%2A" (replace_all "+" "%20" (form_encode s))).

(** What the special encoding writes for one byte: itself when unreserved,
    else its percent escape. *)
Definition special_byte (c : ascii) : string :=
  if unreserved c then String c "" else percent c.

Fixpoint special_bytes (s : string) : string :=
  match s with
  | "" => ""
  | String c t => special_byte c +:+ special_bytes t
  end.

(** Every byte of [s] satisfies [p]. *)
Fixpoint all_bytes (p : ascii → bool) (s : string) : bool :=
  match s with
  | "" => true
  | String c t => p c && all_bytes p t
  end.

(** A byte that is not a control byte. *)
Definition plain (c : ascii) : bool := negb (http.isCTL c).

(** *** Parameter sets and query strings *)

(** The parameter set after [Set] has been called for the entries of
    [entries], first to last. *)
Definition parameter_set (entries : list (string * string)) : url.Values :=
  fold_left (λ v e, url.Set_ v e.1 e.2) entries ∅.

(** One [key=value] of a query string, both sides form-encoded. *)
Definition query_pair (k x : string) : string :=
  url.QueryEscape k +:+ "=" +:+ url.QueryEscape x.

(** The pairs of the parameters of [v] for the keys [keys], in the
    order of [keys]. *)
Definition query_pairs (keys : list string) (v : url.Values) : list string :=
  k ← keys; query_pair k <$> v !!! k.

(** The default common parameters and the business parameters of the two
    operations, in the order in which they are set. *)
Definition common_entries `{message.Helpers} (c : message.Client) (w : World) :
    list (string * string) :=
  [("AccessKeyId", message.accessKeyID c);
   ("Timestamp", message.GenTimestamp (clock w));
   ("Format", "JSON");
   ("SignatureMethod", "HMAC-SHA1");
   ("SignatureVersion", "1.0");
   ("SignatureNonce", (next_uuid w).1)].

Definition SendSMS_entries `{message.Helpers} (c : message.Client) (w : World)
    (phoneNumbers : list string) (signName templateCode templateParam : string) :
    list (string * string) :=
  common_entries c w ++
  [("Action", "SendSms"); ("Version", "2017-05-25"); ("RegionId", "cn-hangzhou");
   ("PhoneNumbers", message.GenPhoneNumbersStr phoneNumbers);
   ("SignName", signName); ("TemplateCode", templateCode);
   ("TemplateParam", templateParam)].

Definition MakeSingleCallByTTS_entries `{message.Helpers} (c : message.Client)
    (w : World) (calledShowNumber calledNumber ttsCode ttsParam : string) :
    list (string * string) :=
  common_entries c w ++
  [("Action", "SingleCallByTts"); ("Version", "2017-05-25");
   ("RegionId", "cn-hangzhou");
   ("CalledShowNumber", calledShowNumber); ("CalledNumber", calledNumber);
   ("TtsCode", ttsCode); ("TtsParam", ttsParam)].

(** *** Requests and outcomes *)

(** "assemble final request query as [Signature=<sig>&<sortedQueryString>]
    and issue an HTTP GET to [http://<host>/?<finalQuery>]". *)
Definition final_query (c : message.Client) (sortedQueryStr : string) : string :=
  "Signature=" +:+ message.SignedString c "GET" sortedQueryStr +:+ "&" +:+ sortedQueryStr.

Definition request (host : string) (c : message.Client) (sortedQueryStr : string) :
    http.Request :=
  {| http.Method := "GET";
     http.URL := "http://" +:+ host +:+ "/?" +:+ final_query c sortedQueryStr |}.

(** Comparison "case-insensitively": equal once the letters [A] to [Z]
    are put in lower case. *)
Definition lower_byte (c : ascii) : ascii :=
  if url.byte_in c "ABCDEFGHIJKLMNOPQRSTUVWXYZ"
  then ascii_of_N (N_of_ascii c + 32) else c.

Fixpoint to_lower (s : string) : string :=
  match s with
  | "" => ""
  | String c t => String (lower_byte c) (to_lower t)
  end.

Definition equal_fold (a b : string) : bool :=
  bool_decide (to_lower a = to_lower b).

(** The outcome of an operation for what [Do] came back with: an error
    of [Do], of the reading or of the decoding is returned with no
    response; otherwise the response is returned with no error, and success
    is whether its status code is ["OK"] up to case. *)
Definition outcome `{json.Struct R} (Code : R → string) (zero : R)
    (answer : http.Response + error) : bool * option R * option error :=
  match answer with
  | inr err => (false, None, Some err)
  | inl resp =>
      match http.failure (http.Body_ resp) with
      | Some err => (false, None, Some err)
      | None =>
          match json.Unmarshal (http.data (http.Body_ resp)) zero with
          | (_, Some err) => (false, None, Some err)
          | (response, None) => (equal_fold (Code response) "OK", Some response, None)
          end
      end
  end.

(** A member that the decoder stores without an error: one whose key
    names no field of the struct, and one that is a string or [null]. *)
Definition storable (names : list string) (m : string * json.value) : bool :=
  match json.find_field names m.1 with
  | None => true
  | Some _ =>
      match m.2 with
      | json.Str _ | json.Null => true
      | _ => false
      end
  end.

(** What the decoder accepts of a body: [null], and an object all of
    whose members can be stored.  [None] is a body that is not one JSON
    value. *)
Definition accepted (names : list string) (j : option json.value) : bool :=
  match j with
  | Some json.Null => true
  | Some (json.Object ms) => forallb (storable names) ms
  | _ => false
  end.

(** The world after [req] has been put on the wire. *)
Definition sent (req : http.Request) (w : World) : World :=
  {| clock := clock w; next_uuid := next_uuid w; remote := remote w;
     wire := wire w ++ [req] |}.

(** *** The signature *)

(** SHA-1 of a whole message (FIPS 180-4): the message is padded with the
    byte 0x80, with zero bytes up to 56 modulo 64, and with its length in
    bits as a big-endian 64-bit number; the blocks of 64 bytes are
    compressed in turn from the initial hash value; the result is the five
    words in big-endian order. *)
Definition pad (m : list Z) : list Z :=
  let l := Z.of_nat (length m) in
  m ++ [128%Z] ++ replicate (Z.to_nat ((55 - l) mod 64)) 0%Z
    ++ sha1.be64 ((8 * l) mod 2 ^ 64).

Fixpoint blocks (fuel : nat) (m : list Z) : list (list Z) :=
  match fuel with
  | O => []
  | S fuel =>
      match m with
      | [] => []
      | _ => take 64 m :: blocks fuel (drop 64 m)
      end
  end.

Definition SHA1 (m : list Z) : list Z :=
  let padded := pad m in
  let '(sha1.State a b c d e) :=
    fold_left sha1.block (blocks (length padded) padded) (sha1.h sha1.New) in
  sha1.be32 a ++ sha1.be32 b ++ sha1.be32 c ++ sha1.be32 d ++ sha1.be32 e.

(** HMAC (RFC 2104) with SHA-1: [H((K0 xor opad) || H((K0 xor ipad) || text))],
    where [K0] is the key, hashed first when longer than a block, filled with
    zero bytes to a block. *)
Definition HMAC_SHA1 (key text : list Z) : list Z :=
  let k := if (64 <? length key)%nat then SHA1 key else key in
  let k0 := k ++ replicate (64 - length k) 0%Z in
  SHA1 (((λ b, Z.lxor b 92%Z) <$> k0) ++ SHA1 (((λ b, Z.lxor b 54%Z) <$> k0) ++ text)).

(** Base64 (RFC 4648): the bytes are a stream of bits, most significant
    first; each group of six bits, the last one filled with zero bits, is
    the index of a character in the alphabet [A-Z], [a-z], [0-9], [+], [/];
    the characters are filled with [=] to a multiple of four. *)
Definition byte_bits (b : Z) : list bool :=
  (λ i, Z.testbit b (Z.of_nat i)) <$> [7; 6; 5; 4; 3; 2; 1; 0]%nat.

Fixpoint sextets (bits : list bool) : list (list bool) :=
  match bits with
  | [] => []
  | b1 :: b2 :: b3 :: b4 :: b5 :: b6 :: rest => [b1; b2; b3; b4; b5; b6] :: sextets rest
  | _ => [take 6 (bits ++ replicate 6 false)]
  end.

Definition bits_value (bits : list bool) : Z :=
  fold_left (λ acc (b : bool), 2 * acc + (if b then 1 else 0))%Z bits 0%Z.

Definition alphabet (v : Z) : ascii :=
  ascii_of_N (Z.to_N (if v <? 26 then 65 + v
                      else if v <? 52 then 97 + (v - 26)
                      else if v <? 62 then 48 + (v - 52)
                      else if v =? 62 then 43 else 47))%Z.

Definition pad_count (n : nat) : nat := (4 - n mod 4) mod 4.

Definition base64 (src : list Z) : string :=
  let chars := (λ g, alphabet (bits_value g)) <$> sextets (src ≫= byte_bits) in
  string_of_list_ascii (chars ++ replicate (pad_count (length chars)) "="%char).
(** A byte as a number. *)
Definition is_byte (b : Z) : Prop := (0 ≤ b < 256)%Z.

(** The value of three bytes, as [EncodeToString] builds it. *)
Definition val3 (a b c : Z) : Z := Z.lor (Z.lor (Z.shiftl a 16) (Z.shiftl b 8)) c.

(** The signature as the specification builds it: the string to sign is
    [<METHOD>&<special-encode("/")>&<special-encode(sortedQueryString)>]; its
    HMAC-SHA1 is keyed by the secret with a literal [&] appended; the raw
    digest is base64-encoded; the result is special-encoded. *)
Definition string_to_sign (method sortedQueryStr : string) : string :=
  method +:+ "&" +:+ special_encode "/" +:+ "&" +:+ special_encode sortedQueryStr.

Definition signature (secret method sortedQueryStr : string) : string :=
  special_encode
    (base64 (HMAC_SHA1 (bytes (secret +:+ "&")) (bytes (string_to_sign method sortedQueryStr)))).

End spec.

(** ** Reference definitions for the further properties

    What an escaped text looks like and how it is read back, and the text of
    a JSON object whose members are strings.  The properties at the end
    state with them what the encoders write and what the decoder reads. *)
Module escaped.

Definition upper_hex (c : ascii) : bool := url.byte_in c "0123456789ABCDEF".

(** The value of an upper-case hexadecimal digit. *)
Definition unhex (c : ascii) : N :=
  let n := N_of_ascii c in
  if (n <? 58)%N then (n - 48)%N else (n - 55)%N.

(** A text made of unreserved bytes, of the bytes that [extra] allows and
    of escapes [%XY] with two upper-case hexadecimal digits. *)
Fixpoint well_formed (extra : ascii → bool) (s : string) : bool :=
  match s with
  | "" => true
  | String c t =>
      if Ascii.eqb c "%"
      then match t with
           | String x (String y r) => upper_hex x && upper_hex y && well_formed extra r
           | _ => false
           end
      else (spec.unreserved c || extra c) && well_formed extra t
  end.

Definition none (c : ascii) : bool := false.

Definition plus (c : ascii) : bool := Ascii.eqb c "+".

(** An escaped text read back: [%XY] is the byte of value [XY]; with
    [plus], [+] is a space. *)
Fixpoint decode (plus : bool) (s : string) : string :=
  match s with
  | "" => ""
  | String c t =>
      if Ascii.eqb c "%"
      then match t with
           | String x (String y r) =>
               String (ascii_of_N (16 * unhex x + unhex y)) (decode plus r)
           | _ => s
           end
      else if plus && Ascii.eqb c "+" then String " " (decode plus t)
      else String c (decode plus t)
  end.

(** The number of bytes of [s] that are not unreserved. *)
Fixpoint reserved (s : string) : nat :=
  match s with
  | "" => 0
  | String c t => (if spec.unreserved c then 0 else 1) + reserved t
  end.

(** A byte that is neither [&] nor [=], the separators of a query
    string. *)
Definition no_separator (c : ascii) : bool :=
  negb (Ascii.eqb c "&") && negb (Ascii.eqb c "=").

(** A byte of the URL of a request: unreserved, or one of the marks of
    escapes, of a query string and of a URL. *)
Definition url_byte (c : ascii) : bool := spec.unreserved c || url.byte_in c "%+&=:/?".

End escaped.

Module text.

(** A byte that stands for itself inside a JSON string: an ASCII byte that
    is no control byte, no double quote (34) and no backslash (92). *)
Definition simple (c : ascii) : bool :=
  let n := N_of_ascii c in
  ((32 <=? n) && (n <? 127) && negb (n =? 34) && negb (n =? 92))%N.

(** [s] between double quotes. *)
Definition quoted (s : string) : string := String "034" (s +:+ String "034" "").

Definition member (m : string * string) : string := quoted m.1 +:+ ":" +:+ quoted m.2.

Fixpoint members (ms : list (string * string)) : string :=
  match ms with
  | [] => ""
  | [m] => member m
  | m :: ms' => member m +:+ "," +:+ members ms'
  end.

(** The JSON object with the members [ms], all of them strings, written
    without white space. *)
Definition object (ms : list (string * string)) : string := "{" +:+ members ms +:+ "}".

Definition simple_member (m : string * string) : bool :=
  spec.all_bytes simple m.1 && spec.all_bytes simple m.2.

(** The member as the decoder reads it. *)
Definition as_value (m : string * string) : string * json.value := (m.1, json.Str m.2).

End text.

(** ** Fixtures for the examples *)

(** JSON texts are written with ['] for the double quote. *)
Definition dq (s : string) : string := strings.Replace s "'" (String "034" "") (-1).

#[local] Instance example_helpers : message.Helpers := {|
  message.GenTimestamp t := "2017-07-12T02:42:19Z";
  message.GenPhoneNumbersStr l := strings.Join l ","
|}.

Definition example_answer (body : string) : http.Response :=
  {| http.StatusCode := 200;
     http.Body_ := {| http.data := body; http.failure := None |} |}.

(** A world whose remote end answers every request with [body], and whose
    UUID generator yields [uuid]. *)
Definition example_world (uuid : string * option error) (body : string) : World := {|
  clock := 0%Z;
  next_uuid := uuid;
  remote := λ _, inl (example_answer body);
  wire := []
|}.

Definition example_uuid : string := "45e25e9b-0a6f-4070-8c85-2956eda1b466".

Definition example_client : message.Client := message.NewClient "testId" "testSecret".

(** The requests of the two operations called with the arguments of the
    examples and no override. *)
Definition example_sms_request : http.Request := Eval vm_compute in
  spec.request "dysmsapi.aliyuncs.com" example_client
    (url.Encode (spec.parameter_set
       (spec.SendSMS_entries example_client (example_world (example_uuid, None) "")
          ["15300000001"] "sign" "SMS_71390007" "{}"))).

Definition example_tts_request : http.Request := Eval vm_compute in
  spec.request "dyvmsapi.aliyuncs.com" example_client
    (url.Encode (spec.parameter_set
       (spec.MakeSingleCallByTTS_entries example_client
          (example_world (example_uuid, None) "")
          "02560000000" "1500000000" "TTS_0000" "{}"))).

(** A world in which [http.Client.Do] fails with [err]. *)
Definition example_failing_world (err : error) : World := {|
  clock := 0%Z;
  next_uuid := (example_uuid, None);
  remote := λ _, inr err;
  wire := []
|}.

(** A world whose remote end answers with [body], the reading of which
    fails with [err]. *)
Definition example_broken_body_world (body : string) (err : error) : World := {|
  clock := 0%Z;
  next_uuid := (example_uuid, None);
  remote := λ _, inl {| http.StatusCode := 200;
                        http.Body_ := {| http.data := body; http.failure := Some err |} |};
  wire := []
|}.

(** A world in which the SMS host answers with [body] and no other host
    can be reached. *)
Definition example_sms_only (body : string) : World := {|
  clock := 0%Z;
  next_uuid := (example_uuid, None);
  remote := λ req,
    if strings.Contains (http.URL req) "dysmsapi.aliyuncs.com"
    then inl (example_answer body)
    else inr (ErrorString "no route to host");
  wire := []
|}.

(** ** Tactics *)

(** Case analysis on the 256 bytes. *)
Ltac each_byte c := destruct c as [[] [] [] [] [] [] [] []].

(** The value of [f] at a given byte, computed. *)
Ltac eval_byte f :=
  match goal with
  | |- context [f ?c] => let v := eval vm_compute in (f c) in change (f c) with v
  end.

(** * Properties *)

(** ** Regression vectors of the library models *)

Example sha1_abc :
  sha1.Sum (sha1.Write sha1.New (bytes "abc")) [] =
  [169; 153; 62; 54; 71; 6; 129; 106; 186; 62; 37; 113; 120; 80; 194; 108;
   156; 208; 216; 157]%Z.
Proof. vm_compute. reflexivity. Qed.

(** RFC 2202, test cases 2 and 6 (a key longer than a block). *)
Example hmac_rfc2202_2 :
  hmac.Sum (hmac.Write (hmac.New (bytes "Jefe")) (bytes "what do ya want for nothing?")) [] =
  [239; 252; 223; 106; 229; 235; 47; 162; 210; 116; 22; 213; 241; 132; 223;
   156; 37; 154; 124; 121]%Z.
Proof. vm_compute. reflexivity. Qed.

Example hmac_rfc2202_6 :
  hmac.Sum (hmac.Write (hmac.New (replicate 80 170%Z))
              (bytes "Test Using Larger Than Block-Size Key - Hash Key First")) [] =
  [170; 74; 229; 225; 82; 114; 208; 14; 149; 112; 86; 55; 206; 138; 59; 85;
   237; 64; 33; 18]%Z.
Proof. vm_compute. reflexivity. Qed.

Example base64_fooba : base64.EncodeToString (bytes "fooba") = "Zm9vYmE=".
Proof. vm_compute. reflexivity. Qed.

Example SpecialURLEncode_sample :
  message.SpecialURLEncode "a b*~c" = "a%20b%2A~c".
Proof. vm_compute. reflexivity. Qed.

Example Encode_sample :
  url.Encode (url.Set_ (url.Set_ (url.Set_ ∅ "b" "x y") "a" "1:2") "C" "~")
  = "C=~&a=1%3A2&b=x+y".
Proof. vm_compute. reflexivity. Qed.

Example json_parse_nested :
  json.parse (dq "{'a': [1, -2.5e+3, true, null, 'xé\n'], 'b' : {} } ") =
  Some (json.Object
          [("a", json.Array [json.Number "1"; json.Number "-2.5e+3"; json.Bool true;
                             json.Null;
                             json.Str (String "x" (String "195" (String "169"
                                        (String "010" ""))))]);
           ("b", json.Object [])]).
Proof. vm_compute. reflexivity. Qed.

(** Inside a string a well-formed UTF-8 sequence is kept (C3 A9), and a
    byte that begins none (FF), a sequence cut short (E2 82) and the
    encoding of a surrogate (ED A0 80) give one replacement character, EF BF
    BD, for each byte. *)
Example json_string_utf8 :
  json.string_body (String "195" (String "169" (String "034" "")))
  = Some (String "195" (String "169" ""), "")
  ∧ json.string_body (String "255" (String "034" ""))
    = Some (String "239" (String "191" (String "189" "")), "")
  ∧ json.string_body (String "226" (String "130" (String "034" "")))
    = Some (json.EncodeRune json.ReplacementChar +:+ json.EncodeRune json.ReplacementChar, "")
  ∧ json.string_body (String "237" (String "160" (String "128" (String "034" ""))))
    = Some (json.EncodeRune json.ReplacementChar +:+ json.EncodeRune json.ReplacementChar
            +:+ json.EncodeRune json.ReplacementChar, "")
  ∧ json.string_body (String "240" (String "159" (String "152" (String "128" (String "034" "")))))
    = Some (String "240" (String "159" (String "152" (String "128" ""))), "").
Proof. vm_compute. repeat split. Qed.

Example json_parse_invalid :
  json.parse "[1,]" = None ∧ json.parse "01" = None ∧ json.parse "" = None
  ∧ json.parse " 0 " = Some (json.Number "0").
Proof. vm_compute. repeat split. Qed.

(** The worked example of the provider's documentation: its signature is
    [zJDF+Lrzhj/ThnlvIToysFRq6t4=]. *)
Example SendSMS_documented_signature :
  wire (message.SendSMS (message.NewClient "testId" "testSecret") ["15300000001"]
          "阿里云短信测试专用" "SMS_71390007" (dq "{'customer':'test'}")
          [message.SetParam "Format" "XML"; message.SetParam "OutId" "123"]
          (example_world (example_uuid, None) (dq "{'Code':'OK'}"))).2
  = [{| http.Method := "GET";
        http.URL := "http://dysmsapi.aliyuncs.com/?Signature=zJDF%2BLrzhj%2FThnlvIToysFRq6t4%3D&AccessKeyId=testId&Action=SendSms&Format=XML&OutId=123&PhoneNumbers=15300000001&RegionId=cn-hangzhou&SignName=%E9%98%BF%E9%87%8C%E4%BA%91%E7%9F%AD%E4%BF%A1%E6%B5%8B%E8%AF%95%E4%B8%93%E7%94%A8&SignatureMethod=HMAC-SHA1&SignatureNonce=45e25e9b-0a6f-4070-8c85-2956eda1b466&SignatureVersion=1.0&TemplateCode=SMS_71390007&TemplateParam=%7B%22customer%22%3A%22test%22%7D&Timestamp=2017-07-12T02%3A42%3A19Z&Version=2017-05-25" |}].
Proof. vm_compute. reflexivity. Qed.

(** ** Lemmas on strings *)
Lemma sapp_nil_l (s : string) : "" +:+ s = s.
Proof. reflexivity. Qed.

Lemma sapp_cons (c : ascii) (a b : string) : String c a +:+ b = String c (a +:+ b).
Proof. reflexivity. Qed.

Lemma sapp_nil_r (s : string) : s +:+ "" = s.
Proof. induction s as [|c s IH]; [done|]. by rewrite sapp_cons, IH. Qed.

Lemma sapp_assoc (a b c : string) : (a +:+ b) +:+ c = a +:+ b +:+ c.
Proof. induction a as [|x a IH]; [done|]. by rewrite !sapp_cons, IH. Qed.

Lemma slength_app (a b : string) :
  String.length (a +:+ b) = String.length a + String.length b.
Proof. induction a as [|x a IH]; [done|]. rewrite sapp_cons. simpl. by rewrite IH. Qed.

Lemma prefix_nil (s : string) : String.prefix "" s = true.
Proof. by destruct s. Qed.

Lemma prefix_char (o c : ascii) (t : string) :
  String.prefix (String o "") (String c t) = bool_decide (o = c).
Proof.
  simpl. destruct (ascii_dec o c) as [->|Hne].
  - by rewrite prefix_nil, bool_decide_eq_true_2.
  - by rewrite bool_decide_eq_false_2.
Qed.


Lemma QueryEscape_byte (c : ascii) :
  (if Ascii.eqb c " " && bool_decide (url.encodeQueryComponent = url.encodeQueryComponent)
   then "+" else if url.shouldEscape c url.encodeQueryComponent then url.pct c
   else String c "") = spec.form_byte c.
Proof. each_byte c; vm_compute; reflexivity. Qed.

Lemma QueryEscape_form_encode (s : string) : url.QueryEscape s = spec.form_encode s.
Proof.
  unfold url.QueryEscape. induction s as [|c s IH]; [done|].
  cbn [url.escape spec.form_encode]. by rewrite QueryEscape_byte, IH.
Qed.

(** ** [strings.Replace] *)
Lemma drop_bytes_cons (old : string) (c : ascii) (t : string) :
  old ≠ "" →
  spec.drop_bytes (String.length old) (String c t) =
  spec.drop_bytes (String.length old - 1) t.
Proof.
  destruct old as [|o old']; [done|]. intros _.
  cbn [String.length spec.drop_bytes]. by rewrite Nat.sub_succ, Nat.sub_0_r.
Qed.

Lemma Replace_unfold (old new s : string) :
  old ≠ "" → old ≠ new →
  strings.Replace s old new (-1) = strings.replace_loop old new None 0 s.
Proof.
  intros Hold Hne. unfold strings.Replace.
  rewrite bool_decide_eq_false_2 by done. by destruct old.
Qed.

Section replace.
Context (old new : string).

Lemma replace_loop_step (c : ascii) (t : string) :
  strings.replace_loop old new None 0 (String c t) =
  if String.prefix old (String c t)
  then new +:+ strings.replace_loop old new None (String.length old - 1) t
  else String c (strings.replace_loop old new None 0 t).
Proof. reflexivity. Qed.

Lemma replace_loop_drop (k : nat) (s : string) :
  strings.replace_loop old new None k s =
  strings.replace_loop old new None 0 (spec.drop_bytes k s).
Proof.
  revert k. induction s as [|c s IH]; intros [|k]; try reflexivity.
  simpl. apply IH.
Qed.

Lemma length_drop_bytes (k : nat) (s : string) :
  (String.length (spec.drop_bytes k s) ≤ String.length s)%nat.
Proof.
  revert k. induction s as [|c s IH]; intros [|k]; simpl; try lia.
  specialize (IH k). lia.
Qed.

(** The loop of the code and the reading of "replace every": the counter of
    bytes to skip does what dropping the occurrence does. *)
Lemma replace_loop_every (fuel : nat) (s : string) :
  old ≠ "" → (String.length s ≤ fuel)%nat →
  spec.replace_every fuel old new s = strings.replace_loop old new None 0 s.
Proof.
  intros Hold. revert s. induction fuel as [|fuel IH]; intros [|c t] Hlen;
    simpl in Hlen; try reflexivity; try lia.
  cbn [spec.replace_every]. rewrite replace_loop_step.
  destruct (String.prefix old (String c t)) eqn:Hp.
  - f_equal. rewrite drop_bytes_cons by done.
    rewrite IH, <- replace_loop_drop; [done|].
    pose proof (length_drop_bytes (String.length old - 1) t). lia.
  - f_equal. apply IH. lia.
Qed.

Lemma Replace_all (s : string) :
  old ≠ "" → old ≠ new →
  strings.Replace s old new (-1) = spec.replace_all old new s.
Proof.
  intros Hold Hne. unfold spec.replace_all.
  by rewrite Replace_unfold, replace_loop_every.
Qed.

(** Where [old] does not occur, nothing changes. *)
Lemma replace_loop_absent (s : string) :
  strings.Contains s old = false → strings.replace_loop old new None 0 s = s.
Proof.
  induction s as [|c s IH]; [done|]. cbn [strings.Contains].
  intros [Hp Hs]%orb_false_elim. rewrite replace_loop_step, Hp. f_equal. auto.
Qed.
End replace.

(** Replacing a single byte distributes over concatenation. *)
Lemma replace_loop_char_app (o : ascii) (new a b : string) :
  strings.replace_loop (String o "") new None 0 (a +:+ b) =
  strings.replace_loop (String o "") new None 0 a
  +:+ strings.replace_loop (String o "") new None 0 b.
Proof.
  induction a as [|c a IH]; [done|].
  rewrite sapp_cons, !replace_loop_step, !prefix_char.
  cbn [String.length Nat.sub]. case_bool_decide.
  - by rewrite sapp_assoc, IH.
  - by rewrite sapp_cons, IH.
Qed.

(** ** The special encoding, byte by byte *)

Lemma special_two_steps_byte (c : ascii) :
  strings.replace_loop "*" "%2A" None 0
    (strings.replace_loop "+" "%20" None 0 (spec.form_byte c)) = spec.special_byte c.
Proof. each_byte c; vm_compute; reflexivity. Qed.

Lemma special_two_steps (s : string) :
  strings.replace_loop "*" "%2A" None 0
    (strings.replace_loop "+" "%20" None 0 (spec.form_encode s)) = spec.special_bytes s.
Proof.
  induction s as [|c s IH]; [done|]. cbn [spec.form_encode spec.special_bytes].
  by rewrite !replace_loop_char_app, special_two_steps_byte, IH.
Qed.

Lemma Contains_special_byte_7E (c : ascii) (r : string) :
  strings.Contains (spec.special_byte c +:+ r) "%7E" = strings.Contains r "%7E".
Proof.
  each_byte c; eval_byte spec.special_byte; rewrite ?sapp_cons, sapp_nil_l; reflexivity.
Qed.

Lemma Contains_special_byte_plus (c : ascii) (r : string) :
  strings.Contains (spec.special_byte c +:+ r) "+" = strings.Contains r "+".
Proof.
  each_byte c; eval_byte spec.special_byte; rewrite ?sapp_cons, sapp_nil_l; reflexivity.
Qed.

Lemma special_bytes_no_7E (s : string) :
  strings.Contains (spec.special_bytes s) "%7E" = false.
Proof.
  induction s as [|c s IH]; [done|].
  cbn [spec.special_bytes]. by rewrite Contains_special_byte_7E.
Qed.

Lemma special_bytes_no_plus (s : string) :
  strings.Contains (spec.special_bytes s) "+" = false.
Proof.
  induction s as [|c s IH]; [done|].
  cbn [spec.special_bytes]. by rewrite Contains_special_byte_plus.
Qed.

(** The closed form of the special encoding. *)
Lemma SpecialURLEncode_bytes (s : string) :
  message.SpecialURLEncode s = spec.special_bytes s.
Proof.
  unfold message.SpecialURLEncode.
  rewrite !Replace_unfold by done.
  rewrite QueryEscape_form_encode, special_two_steps.
  apply replace_loop_absent, special_bytes_no_7E.
Qed.

Lemma special_bytes_app (a b : string) :
  spec.special_bytes (a +:+ b) = spec.special_bytes a +:+ spec.special_bytes b.
Proof.
  induction a as [|c a IH]; [done|].
  rewrite sapp_cons. cbn [spec.special_bytes]. by rewrite IH, sapp_assoc.
Qed.

Lemma special_byte_unreserved (c : ascii) :
  spec.unreserved c = true → spec.special_byte c = String c "".
Proof. unfold spec.special_byte. by intros ->. Qed.

Lemma special_byte_reserved (c : ascii) :
  spec.unreserved c = false →
  spec.special_byte c = String "%" (String (spec.hex_digit (N_of_ascii c / 16))
                          (String (spec.hex_digit (N_of_ascii c mod 16)) "")).
Proof. unfold spec.special_byte. by intros ->. Qed.

Lemma length_special_bytes (s : string) :
  (String.length s ≤ String.length (spec.special_bytes s))%nat.
Proof.
  induction s as [|c s IH]; [done|]. cbn [spec.special_bytes].
  rewrite slength_app. destruct (spec.unreserved c) eqn:Hc.
  - rewrite special_byte_unreserved by done. simpl. lia.
  - rewrite special_byte_reserved by done. simpl. lia.
Qed.

(** The strings the special encoding leaves as they are: those of
    unreserved bytes. *)
Lemma special_bytes_fixed (s : string) :
  spec.special_bytes s = s ↔ spec.all_bytes spec.unreserved s = true.
Proof.
  induction s as [|c s IH]; [done|]. cbn [spec.special_bytes spec.all_bytes].
  destruct (spec.unreserved c) eqn:Hc.
  - rewrite special_byte_unreserved, sapp_cons, sapp_nil_l by done. simpl.
    rewrite <- IH. split; [by intros [=] | by intros ->].
  - rewrite special_byte_reserved by done. rewrite !sapp_cons, sapp_nil_l. simpl.
    split; [|done]. intros [= _ Hs].
    pose proof (length_special_bytes s) as Hlen.
    apply (f_equal String.length) in Hs. simpl in Hs. lia.
Qed.

Lemma special_bytes_unreserved (s : string) :
  spec.all_bytes spec.unreserved (spec.special_bytes s) = true →
  spec.all_bytes spec.unreserved s = true.
Proof.
  induction s as [|c s IH]; [done|]. cbn [spec.special_bytes spec.all_bytes].
  destruct (spec.unreserved c) eqn:Hc.
  - rewrite special_byte_unreserved, sapp_cons, sapp_nil_l by done. simpl.
    rewrite Hc. simpl. apply IH.
  - rewrite special_byte_reserved by done. rewrite !sapp_cons. simpl. done.
Qed.

(** ** The special encoding: claims C2, C3 and C10 *)

(** C2. [SpecialURLEncode] is the standard form-encoding of its argument
    followed by the three substitutions of the specification, in their
    order: every [+] by [%20], every [*] by [%2A], every [%7E] by [~]. *)
Theorem SpecialURLEncode_refines_spec (s : string) :
  message.SpecialURLEncode s =
  spec.replace_all "%7E" "~"
    (spec.replace_all "*" "%2A" (spec.replace_all "+" "%20" (spec.form_encode s))).
Proof.
  unfold message.SpecialURLEncode.
  by rewrite !Replace_all, QueryEscape_form_encode.
Qed.

(** C3 as stated fails: a second application encodes the [%] written by the
    first. *)
Lemma SpecialURLEncode_twice_differs :
  message.SpecialURLEncode (message.SpecialURLEncode "a b") = "a%2520b"
  ∧ message.SpecialURLEncode "a b" = "a%20b"
  ∧ message.SpecialURLEncode (message.SpecialURLEncode "a b")
    ≠ message.SpecialURLEncode "a b".
Proof. vm_compute. repeat split. discriminate. Qed.

(** C3, amended. Applying the special encoding to its own output gives the
    same string exactly when the input consists of unreserved bytes
    (letters, digits, [-], [_], [.], [~]), which the encoding leaves as they
    are. *)
Theorem SpecialURLEncode_idempotent_iff (s : string) :
  message.SpecialURLEncode (message.SpecialURLEncode s) = message.SpecialURLEncode s
  ↔ spec.all_bytes spec.unreserved s = true.
Proof.
  rewrite !SpecialURLEncode_bytes. split.
  - intros Hfix. by apply special_bytes_unreserved, special_bytes_fixed.
  - intros Hs. apply special_bytes_fixed in Hs as Heq. by rewrite !Heq.
Qed.

(** C10. The output of [SpecialURLEncode] has no [+] and no [%7E]; a space
    of the input is written [%20], a [*] is written [%2A], a [~] is written
    as it is, whatever stands around them. *)
Theorem SpecialURLEncode_output :
  (∀ s, strings.Contains (message.SpecialURLEncode s) "+" = false
        ∧ strings.Contains (message.SpecialURLEncode s) "%7E" = false)
  ∧ (∀ a b, message.SpecialURLEncode (a +:+ " " +:+ b) =
            message.SpecialURLEncode a +:+ "%20" +:+ message.SpecialURLEncode b)
  ∧ (∀ a b, message.SpecialURLEncode (a +:+ "*" +:+ b) =
            message.SpecialURLEncode a +:+ "%2A" +:+ message.SpecialURLEncode b)
  ∧ (∀ a b, message.SpecialURLEncode (a +:+ "~" +:+ b) =
            message.SpecialURLEncode a +:+ "~" +:+ message.SpecialURLEncode b).
Proof.
  split; [|repeat split]; intros; rewrite !SpecialURLEncode_bytes.
  - split; [apply special_bytes_no_plus | apply special_bytes_no_7E].
  - by rewrite !special_bytes_app.
  - by rewrite !special_bytes_app.
  - by rewrite !special_bytes_app.
Qed.

(** ** The canonical query string *)

Lemma sort_keys_Permutation (ks1 ks2 : list string) :
  ks1 ≡ₚ ks2 → url.sort_keys ks1 = url.sort_keys ks2.
Proof.
  intros Hp. unfold url.sort_keys.
  apply (Sorted_unique String.le); try apply Sorted_merge_sort; try apply _.
  by rewrite !merge_sort_Permutation.
Qed.

(** The order in which [range] visits the keys does not show in the
    result. *)
Lemma Encode_range_Permutation (ks1 ks2 : list string) (v : url.Values) :
  ks1 ≡ₚ ks2 → url.Encode_range ks1 v = url.Encode_range ks2 v.
Proof.
  intros Hp. unfold url.Encode_range.
  rewrite (sort_keys_Permutation _ _ Hp).
  destruct ks1 as [|k1 ks1], ks2 as [|k2 ks2]; [done| | |done].
  - by apply Permutation_nil_cons in Hp.
  - symmetry in Hp. by apply Permutation_nil_cons in Hp.
Qed.

Lemma parameter_set_snoc (l : list (string * string)) (e : string * string) :
  spec.parameter_set (l ++ [e]) = url.Set_ (spec.parameter_set l) e.1 e.2.
Proof. unfold spec.parameter_set. by rewrite fold_left_app. Qed.

Lemma parameter_set_list_to_map (l : list (string * string)) :
  spec.parameter_set l = list_to_map (reverse (prod_map id (λ x, [x]) <$> l)).
Proof.
  induction l as [|e l IH] using rev_ind; [done|].
  rewrite parameter_set_snoc, IH, fmap_app, reverse_app. by destruct e.
Qed.

Lemma entries_keys (l : list (string * string)) :
  (reverse (prod_map id (λ x, [x]) <$> l)).*1 ≡ₚ l.*1.
Proof.
  rewrite fmap_reverse, reverse_Permutation, <- list_fmap_compose.
  by erewrite list_fmap_ext; [|by intros ? []].
Qed.

(** Entries with distinct keys give the same parameter set in whatever
    order they are set. *)
Lemma parameter_set_Permutation (l1 l2 : list (string * string)) :
  NoDup l1.*1 → l1 ≡ₚ l2 → spec.parameter_set l1 = spec.parameter_set l2.
Proof.
  intros Hnd Hp. rewrite !parameter_set_list_to_map.
  apply list_to_map_proper.
  - by rewrite entries_keys.
  - by rewrite !reverse_Permutation, Hp.
Qed.

Lemma parameter_set_lookup (l : list (string * string)) (k x : string) :
  NoDup l.*1 → (k, x) ∈ l → spec.parameter_set l !! k = Some [x].
Proof.
  intros Hnd Hin. rewrite parameter_set_list_to_map.
  apply elem_of_list_to_map.
  - by rewrite entries_keys.
  - rewrite elem_of_reverse. apply (list_elem_of_fmap_2 (prod_map id (λ x, [x])) _ (k, x)), Hin.
Qed.

Lemma range_parameter_set (l : list (string * string)) :
  NoDup l.*1 → url.range (spec.parameter_set l) ≡ₚ l.*1.
Proof.
  intros Hnd. unfold url.range. rewrite parameter_set_list_to_map.
  rewrite map_to_list_to_map.
  - apply entries_keys.
  - by rewrite entries_keys.
Qed.


(** [strings.Join] and the buffer of [Encode]. *)
Lemma Join_snoc (l : list string) (p : string) :
  strings.Join (l ++ [p]) "&" =
  if bool_decide (l = []) then p else strings.Join l "&" +:+ "&" +:+ p.
Proof.
  unfold strings.Join. induction l as [|x l IH]; [done|].
  rewrite bool_decide_eq_false_2 by done.
  destruct l as [|y l]; [done|].
  rewrite bool_decide_eq_false_2 in IH by done.
  change (String.concat "&" ((x :: y :: l) ++ [p]))
    with (x +:+ "&" +:+ String.concat "&" ((y :: l) ++ [p])).
  rewrite IH.
  change (String.concat "&" (x :: y :: l)) with (x +:+ "&" +:+ String.concat "&" (y :: l)).
  by rewrite !sapp_assoc.
Qed.

Lemma Join_empty (l : list string) :
  Forall (λ p, p ≠ "") l → strings.Join l "&" = "" → l = [].
Proof.
  destruct l as [|x l]; [done|]. intros [Hx _]%Forall_cons.
  unfold strings.Join. destruct l; simpl; [done|]. by destruct x.
Qed.

Lemma query_pair_nonempty (k x : string) : spec.query_pair k x ≠ "".
Proof.
  unfold spec.query_pair. destruct (url.QueryEscape k); [|done].
  by rewrite sapp_nil_l.
Qed.

Lemma write_pair_Join (done_ : list string) (k x : string) :
  Forall (λ p, p ≠ "") done_ →
  url.write_pair (url.QueryEscape k) (strings.Join done_ "&") x =
  strings.Join (done_ ++ [spec.query_pair k x]) "&".
Proof.
  intros Hne. unfold url.write_pair. rewrite Join_snoc. fold (spec.query_pair k x).
  destruct done_ as [|p ps]; [done|].
  rewrite !bool_decide_eq_false_2; [by rewrite sapp_assoc|done|].
  intros Heq. by apply Join_empty in Heq.
Qed.

Lemma write_values_Join (done_ : list string) (k : string) (xs : list string) :
  Forall (λ p, p ≠ "") done_ →
  fold_left (url.write_pair (url.QueryEscape k)) xs (strings.Join done_ "&") =
  strings.Join (done_ ++ (spec.query_pair k <$> xs)) "&".
Proof.
  revert done_. induction xs as [|x xs IH]; intros done_ Hne.
  - by rewrite app_nil_r.
  - cbn [fold_left]. rewrite write_pair_Join by done.
    rewrite IH, <- app_assoc; [done|].
    apply Forall_app; split; [done|]. apply Forall_singleton, query_pair_nonempty.
Qed.

Lemma query_pairs_nonempty (ks : list string) (v : url.Values) :
  Forall (λ p, p ≠ "") (spec.query_pairs ks v).
Proof.
  unfold spec.query_pairs. apply Forall_bind, Forall_forall. intros k _.
  apply Forall_fmap, Forall_forall. intros x _. apply query_pair_nonempty.
Qed.

Lemma write_keys_Join (v : url.Values) (ks done_ : list string) :
  Forall (λ p, p ≠ "") done_ →
  fold_left (url.write_key v) ks (strings.Join done_ "&") =
  strings.Join (done_ ++ spec.query_pairs ks v) "&".
Proof.
  revert done_. induction ks as [|k ks IH]; intros done_ Hne.
  - by rewrite app_nil_r.
  - cbn [fold_left]. unfold url.write_key at 2. rewrite write_values_Join by done.
    rewrite IH.
    + unfold spec.query_pairs. by rewrite bind_cons, <- app_assoc.
    + apply Forall_app; split; [done|].
      apply Forall_fmap, Forall_forall. intros ? _. apply query_pair_nonempty.
Qed.

(** [Encode] writes the pairs of the keys in ascending order, joined by
    [&]. *)
Lemma Encode_range_Join (ks : list string) (v : url.Values) :
  url.Encode_range ks v = strings.Join (spec.query_pairs (url.sort_keys ks) v) "&".
Proof.
  unfold url.Encode_range. case_bool_decide as Hks.
  - by subst ks.
  - by rewrite (write_keys_Join v _ []).
Qed.

Lemma sort_keys_Sorted (ks : list string) : Sorted String.le (url.sort_keys ks).
Proof. apply Sorted_merge_sort; apply _. Qed.

(** C4. The canonical query string depends on the entries of the parameter
    set only: entries with distinct keys, set in any two orders and visited
    by [range] in any two orders, give the same string, which is the pairs
    [key=value] joined by [&] with the keys in ascending byte-wise order. *)
Theorem Encode_insertion_order (l1 l2 : list (string * string)) (ks1 ks2 : list string) :
  NoDup l1.*1 → l1 ≡ₚ l2 →
  ks1 ≡ₚ url.range (spec.parameter_set l1) →
  ks2 ≡ₚ url.range (spec.parameter_set l2) →
  url.Encode_range ks1 (spec.parameter_set l1) = url.Encode_range ks2 (spec.parameter_set l2)
  ∧ ∃ sorted, Sorted String.le sorted ∧ sorted ≡ₚ l1.*1
      ∧ url.Encode_range ks1 (spec.parameter_set l1) =
        strings.Join (spec.query_pairs sorted (spec.parameter_set l1)) "&".
Proof.
  intros Hnd Hp Hk1 Hk2. split.
  - rewrite <- (parameter_set_Permutation l1 l2) by done.
    apply Encode_range_Permutation.
    rewrite Hk1, Hk2. by rewrite <- (parameter_set_Permutation l1 l2).
  - exists (url.sort_keys ks1). split; [apply sort_keys_Sorted|]. split.
    + unfold url.sort_keys. by rewrite merge_sort_Permutation, Hk1, range_parameter_set.
    + apply Encode_range_Join.
Qed.

Lemma Encode_insertion_order_witness :
  url.Encode_range ["b"; "a"] (spec.parameter_set [("b", "x y"); ("a", "1")])
  = url.Encode_range ["a"; "b"] (spec.parameter_set [("a", "1"); ("b", "x y")])
  ∧ ∃ sorted, Sorted String.le sorted ∧ sorted ≡ₚ ["b"; "a"]
      ∧ url.Encode_range ["b"; "a"] (spec.parameter_set [("b", "x y"); ("a", "1")]) =
        strings.Join (spec.query_pairs sorted
                        (spec.parameter_set [("b", "x y"); ("a", "1")])) "&".
Proof.
  apply (Encode_insertion_order [("b", "x y"); ("a", "1")] [("a", "1"); ("b", "x y")]).
  - refine (bool_decide_unpack _ _). vm_compute. exact I.
  - apply Permutation_swap.
  - refine (bool_decide_unpack _ _). vm_compute. exact I.
  - refine (bool_decide_unpack _ _). vm_compute. exact I.
Defined.

(** ** The request never fails to be built *)

Lemma all_bytes_app (p : ascii → bool) (a b : string) :
  spec.all_bytes p (a +:+ b) = spec.all_bytes p a && spec.all_bytes p b.
Proof.
  induction a as [|c a IH]; [done|].
  rewrite sapp_cons. cbn [spec.all_bytes]. by rewrite IH, andb_assoc.
Qed.

Lemma stringContainsCTLByte_plain (s : string) :
  http.stringContainsCTLByte s = negb (spec.all_bytes spec.plain s).
Proof.
  unfold http.stringContainsCTLByte.
  induction s as [|c s IH]; [done|].
  cbn [list_ascii_of_string existsb spec.all_bytes]. rewrite IH. unfold spec.plain.
  by destruct (http.isCTL c).
Qed.

Lemma form_byte_plain (c : ascii) : spec.all_bytes spec.plain (spec.form_byte c) = true.
Proof. each_byte c; vm_compute; reflexivity. Qed.

Lemma special_byte_plain (c : ascii) : spec.all_bytes spec.plain (spec.special_byte c) = true.
Proof. each_byte c; vm_compute; reflexivity. Qed.

Lemma QueryEscape_plain (s : string) : spec.all_bytes spec.plain (url.QueryEscape s) = true.
Proof.
  rewrite QueryEscape_form_encode. induction s as [|c s IH]; [done|].
  cbn [spec.form_encode]. by rewrite all_bytes_app, form_byte_plain, IH.
Qed.

Lemma SpecialURLEncode_plain (s : string) :
  spec.all_bytes spec.plain (message.SpecialURLEncode s) = true.
Proof.
  rewrite SpecialURLEncode_bytes. induction s as [|c s IH]; [done|].
  cbn [spec.special_bytes]. by rewrite all_bytes_app, special_byte_plain, IH.
Qed.

Lemma Join_plain (l : list string) :
  Forall (λ p, spec.all_bytes spec.plain p = true) l →
  spec.all_bytes spec.plain (strings.Join l "&") = true.
Proof.
  unfold strings.Join. induction 1 as [|p l Hp Hl IH]; [done|].
  destruct l as [|p' l]; [done|].
  change (String.concat "&" (p :: p' :: l)) with (p +:+ "&" +:+ String.concat "&" (p' :: l)).
  by rewrite !all_bytes_app, Hp, IH.
Qed.

Lemma Encode_range_plain (ks : list string) (v : url.Values) :
  spec.all_bytes spec.plain (url.Encode_range ks v) = true.
Proof.
  rewrite Encode_range_Join. apply Join_plain.
  unfold spec.query_pairs. apply Forall_bind, Forall_forall. intros k _.
  apply Forall_fmap, Forall_forall. intros x _. unfold spec.query_pair. simpl.
  by rewrite !all_bytes_app, !QueryEscape_plain.
Qed.

Lemma URL_String_http (host rq : string) :
  host ≠ "" → url.escape host url.encodeHost = host → rq ≠ "" →
  url.String_ {| url.Scheme := "http"; url.Host := host; url.Path := "/";
                 url.RawQuery := rq |} = "http://" +:+ host +:+ "/?" +:+ rq.
Proof.
  intros Hh He Hq. unfold url.String_.
  change (url.EscapedPath _) with "/".
  cbn [url.Scheme url.Host url.Path url.RawQuery].
  change (bool_decide ("http" = "")) with false.
  change (bool_decide ("/" = "")) with false.
  rewrite He, !(bool_decide_eq_false_2 (host = "")) by done.
  rewrite (bool_decide_eq_false_2 (rq = "")) by done.
  cbn [andb negb url.starts_with Ascii.eqb Bool.eqb].
  change (("http" +:+ ":") +:+ "//") with "http://".
  rewrite bool_decide_eq_false_2 by done.
  by rewrite !sapp_assoc.
Qed.

(** ** The comparison of the status code *)
Lemma to_lower_upper_byte (c : ascii) :
  spec.lower_byte (strings.upper_byte c) = spec.lower_byte c.
Proof. each_byte c; vm_compute; reflexivity. Qed.

Lemma upper_lower_byte (c : ascii) :
  strings.upper_byte (spec.lower_byte c) = strings.upper_byte c.
Proof. each_byte c; vm_compute; reflexivity. Qed.

Lemma to_lower_ToUpper (s : string) : spec.to_lower (strings.ToUpper s) = spec.to_lower s.
Proof. induction s as [|c s IH]; [done|]. simpl. by rewrite to_lower_upper_byte, IH. Qed.

Lemma ToUpper_to_lower (s : string) : strings.ToUpper (spec.to_lower s) = strings.ToUpper s.
Proof. induction s as [|c s IH]; [done|]. simpl. by rewrite upper_lower_byte, IH. Qed.

(** Equal in upper case is equal up to case. *)
Lemma ToUpper_equal_fold (a b : string) :
  String.eqb (strings.ToUpper a) (strings.ToUpper b) = spec.equal_fold a b.
Proof.
  unfold spec.equal_fold. destruct (String.eqb_spec (strings.ToUpper a) (strings.ToUpper b)) as [Heq|Hne].
  - symmetry. apply bool_decide_eq_true_2.
    by rewrite <- (to_lower_ToUpper a), <- (to_lower_ToUpper b), Heq.
  - symmetry. apply bool_decide_eq_false_2. intros Heq. apply Hne.
    by rewrite <- (ToUpper_to_lower a), <- (ToUpper_to_lower b), Heq.
Qed.

Example equal_fold_OK :
  spec.equal_fold "OK" "OK" = true ∧ spec.equal_fold "ok" "OK" = true
  ∧ spec.equal_fold "Ok" "OK" = true ∧ spec.equal_fold "oK" "OK" = true
  ∧ spec.equal_fold "InvalidParameter" "OK" = false ∧ spec.equal_fold "" "OK" = false.
Proof. vm_compute. repeat split. Qed.

(** ** The two operations, step by step *)
Section run.
Context `{message.Helpers}.

Lemma SetDefaultCommonParams_run (c : message.Client) (w : World) :
  message.SetDefaultCommonParams c ∅ w = (spec.parameter_set (spec.common_entries c w), w).
Proof.
  unfold message.SetDefaultCommonParams, mbind, IO_bind, mret, IO_ret, time_Now, uuid_New.
  unfold spec.parameter_set, spec.common_entries.
  by destruct (next_uuid w) as [UUID e].
Qed.

Lemma parameter_set_app (l1 l2 : list (string * string)) :
  spec.parameter_set (l1 ++ l2) =
  fold_left (λ v e, url.Set_ v e.1 e.2) l2 (spec.parameter_set l1).
Proof. unfold spec.parameter_set. by rewrite fold_left_app. Qed.

(** What is done with the parameter set once the overrides are applied. *)
Lemma exchange_run `{json.Struct R} (Code : R → string) (zero : R) (c : message.Client)
    (host : string) (v : url.Values) (w : World) :
  host ≠ "" → url.escape host url.encodeHost = host →
  spec.all_bytes spec.plain host = true →
  (let sortedQueryStr := url.Encode v in
   let sign := message.SignedString c "GET" sortedQueryStr in
   let rawQuery := "Signature=" +:+ sign +:+ "&" +:+ sortedQueryStr in
   let u := {| url.Scheme := "http"; url.Host := host;
               url.Path := "/"; url.RawQuery := rawQuery |} in
   match http.NewRequest "GET" (url.String_ u) with
   | inr err => mret (false, None, Some err)
   | inl req =>
       resp ← http_Do req;
       match resp with
       | inr err => mret (false, None, Some err)
       | inl resp =>
           match ioutil.ReadAll (http.Body_ resp) with
           | (_, Some err) => mret (false, None, Some err)
           | (buf, None) =>
               let response := zero in
               match json.Unmarshal buf response with
               | (_, Some err) => mret (false, None, Some err)
               | (response, None) =>
                   if negb (String.eqb (strings.ToUpper (Code response)) "OK")
                   then mret (false, Some response, None)
                   else mret (true, Some response, None)
               end
           end
       end
   end) w =
  (spec.outcome Code zero (remote w (spec.request host c (url.Encode v))),
   spec.sent (spec.request host c (url.Encode v)) w).
Proof.
  intros Hh He Hp. cbv zeta.
  rewrite URL_String_http by done.
  unfold http.NewRequest. change (negb (http.validMethod "GET")) with false. cbv iota.
  rewrite stringContainsCTLByte_plain.
  assert (spec.all_bytes spec.plain
            ("http://" +:+ host +:+ "/?" +:+ "Signature=" +:+
             message.SignedString c "GET" (url.Encode v) +:+ "&" +:+ url.Encode v) = true) as ->.
  { rewrite !all_bytes_app, Hp. unfold message.SignedString.
    rewrite SpecialURLEncode_plain. unfold url.Encode. by rewrite Encode_range_plain. }
  cbn [negb]. unfold mbind, IO_bind, mret, IO_ret, http_Do.
  fold (spec.final_query c (url.Encode v)). fold (spec.request host c (url.Encode v)).
  fold (spec.sent (spec.request host c (url.Encode v)) w).
  unfold spec.outcome, ioutil.ReadAll.
  destruct (remote w _) as [resp|err]; [|done].
  destruct (http.failure _) as [err|]; [done|].
  destruct (json.Unmarshal _ _) as [response [err|]]; [done|].
  change "OK" with (strings.ToUpper "OK") at 1. rewrite ToUpper_equal_fold.
  by destruct (spec.equal_fold _ _).
Qed.

Lemma SendSMS_run (c : message.Client) (phoneNumbers : list string)
    (signName templateCode templateParam : string) (params : list message.Param)
    (w : World) :
  message.SendSMS c phoneNumbers signName templateCode templateParam params w =
  let v := message.apply_params params
             (spec.parameter_set
                (spec.SendSMS_entries c w phoneNumbers signName templateCode templateParam)) in
  let req := spec.request "dysmsapi.aliyuncs.com" c (url.Encode v) in
  (spec.outcome (λ r, message.Code (message.SMS_Response r))
     {| message.SMS_Response := message.zero_Response; message.BizID := "" |}
     (remote w req),
   spec.sent req w).
Proof.
  unfold message.SendSMS. unfold mbind at 1, IO_bind at 1.
  rewrite SetDefaultCommonParams_run.
  unfold spec.SendSMS_entries. rewrite parameter_set_app. cbn [fold_left fst snd].
  by apply (exchange_run (λ r, message.Code (message.SMS_Response r))).
Qed.

Lemma MakeSingleCallByTTS_run (c : message.Client)
    (calledShowNumber calledNumber ttsCode ttsParam : string)
    (params : list message.Param) (w : World) :
  message.MakeSingleCallByTTS c calledShowNumber calledNumber ttsCode ttsParam params w =
  let v := message.apply_params params
             (spec.parameter_set
                (spec.MakeSingleCallByTTS_entries c w calledShowNumber calledNumber
                   ttsCode ttsParam)) in
  let req := spec.request "dyvmsapi.aliyuncs.com" c (url.Encode v) in
  (spec.outcome (λ r, message.Code (message.TTS_Response r))
     {| message.TTS_Response := message.zero_Response; message.CallID := "" |}
     (remote w req),
   spec.sent req w).
Proof.
  unfold message.MakeSingleCallByTTS. unfold mbind at 1, IO_bind at 1.
  rewrite SetDefaultCommonParams_run.
  unfold spec.MakeSingleCallByTTS_entries. rewrite parameter_set_app. cbn [fold_left fst snd].
  by apply (exchange_run (λ r, message.Code (message.TTS_Response r))).
Qed.
End run.

(** ** The operations: claims C5 and C7 *)

(** C7. Every call puts one request on the wire: a GET of
    [http://<host>/?Signature=<signature>&<sorted query string>], where the
    host is [dysmsapi.aliyuncs.com] for [SendSMS] and [dyvmsapi.aliyuncs.com]
    for [MakeSingleCallByTTS], the path is [/], the sorted query string is
    the encoding of the parameter set after the overrides, and the
    signature is computed from it. *)
Theorem request_issued `{message.Helpers} (c : message.Client) (w : World)
    (phoneNumbers : list string) (signName templateCode templateParam : string)
    (calledShowNumber calledNumber ttsCode ttsParam : string)
    (params : list message.Param) :
  (let sortedQueryStr :=
     url.Encode (message.apply_params params
                   (spec.parameter_set
                      (spec.SendSMS_entries c w phoneNumbers signName templateCode
                         templateParam))) in
   wire (message.SendSMS c phoneNumbers signName templateCode templateParam params w).2
   = wire w ++
     [{| http.Method := "GET";
         http.URL := "http://dysmsapi.aliyuncs.com/?" +:+ "Signature="
                     +:+ message.SignedString c "GET" sortedQueryStr
                     +:+ "&" +:+ sortedQueryStr |}])
  ∧
  (let sortedQueryStr :=
     url.Encode (message.apply_params params
                   (spec.parameter_set
                      (spec.MakeSingleCallByTTS_entries c w calledShowNumber calledNumber
                         ttsCode ttsParam))) in
   wire (message.MakeSingleCallByTTS c calledShowNumber calledNumber ttsCode ttsParam
           params w).2
   = wire w ++
     [{| http.Method := "GET";
         http.URL := "http://dyvmsapi.aliyuncs.com/?" +:+ "Signature="
                     +:+ message.SignedString c "GET" sortedQueryStr
                     +:+ "&" +:+ sortedQueryStr |}]).
Proof. by rewrite SendSMS_run, MakeSingleCallByTTS_run. Qed.

(** C5. When the body of the answer decodes without error, the operation
    returns the decoded response and no error, and success is whether the
    status code equals ["OK"] up to case.  Each operation is stated for
    itself, for any client, world, arguments and overrides of its own. *)
Theorem business_outcome `{message.Helpers} :
  (∀ (c : message.Client) (w : World) (phoneNumbers : list string)
     (signName templateCode templateParam : string) (params : list message.Param)
     (req : http.Request) (resp : http.Response) (r : message.SMSResponse),
     let sms := message.SendSMS c phoneNumbers signName templateCode templateParam params w in
     last (wire sms.2) = Some req → remote w req = inl resp →
     http.failure (http.Body_ resp) = None →
     json.Unmarshal (http.data (http.Body_ resp))
       {| message.SMS_Response := message.zero_Response; message.BizID := "" |} = (r, None) →
     sms.1 = (spec.equal_fold (message.Code (message.SMS_Response r)) "OK", Some r, None))
  ∧ (∀ (c : message.Client) (w : World)
       (calledShowNumber calledNumber ttsCode ttsParam : string) (params : list message.Param)
       (req : http.Request) (resp : http.Response) (r : message.SingleCallByTTSResponse),
       let tts := message.MakeSingleCallByTTS c calledShowNumber calledNumber ttsCode ttsParam
                    params w in
       last (wire tts.2) = Some req → remote w req = inl resp →
       http.failure (http.Body_ resp) = None →
       json.Unmarshal (http.data (http.Body_ resp))
         {| message.TTS_Response := message.zero_Response; message.CallID := "" |} = (r, None) →
       tts.1 = (spec.equal_fold (message.Code (message.TTS_Response r)) "OK", Some r, None)).
Proof.
  split.
  - intros c w phoneNumbers signName templateCode templateParam params req resp r sms.
    subst sms. rewrite SendSMS_run. cbn [fst snd spec.sent wire]. rewrite last_snoc.
    intros [= <-] Ha Hf Hd. unfold spec.outcome. by rewrite Ha, Hf, Hd.
  - intros c w calledShowNumber calledNumber ttsCode ttsParam params req resp r tts.
    subst tts. rewrite MakeSingleCallByTTS_run. cbn [fst snd spec.sent wire].
    rewrite last_snoc.
    intros [= <-] Ha Hf Hd. unfold spec.outcome. by rewrite Ha, Hf, Hd.
Qed.

(** The SMS is sent in a world where the voice host cannot be reached,
    the call is made in one where every host answers. *)
Lemma business_outcome_witness :
  (message.SendSMS example_client ["15300000001"] "sign" "SMS_71390007" "{}" []
     (example_sms_only
        (dq "{'Message':'OK','RequestId':'A1','BizId':'1^2','Code':'ok'}"))).1
  = (true,
     Some {| message.SMS_Response :=
               {| message.RequestID := "A1"; message.Code := "ok"; message.Message := "OK" |};
             message.BizID := "1^2" |},
     None)
  ∧ (message.MakeSingleCallByTTS example_client "02560000000" "1500000000" "TTS_0000" "{}" []
       (example_world (example_uuid, None)
          (dq "{'Message':'Busy','RequestId':'A2','CallId':'7^8','Code':'isv.BUSY'}"))).1
  = (false,
     Some {| message.TTS_Response :=
               {| message.RequestID := "A2"; message.Code := "isv.BUSY";
                  message.Message := "Busy" |};
             message.CallID := "7^8" |},
     None).
Proof.
  split.
  - apply (proj1 business_outcome example_client
             (example_sms_only
                (dq "{'Message':'OK','RequestId':'A1','BizId':'1^2','Code':'ok'}"))
             ["15300000001"] "sign" "SMS_71390007" "{}" [] example_sms_request
             (example_answer (dq "{'Message':'OK','RequestId':'A1','BizId':'1^2','Code':'ok'}"))
             {| message.SMS_Response :=
                  {| message.RequestID := "A1"; message.Code := "ok";
                     message.Message := "OK" |};
                message.BizID := "1^2" |}); vm_compute; reflexivity.
  - apply (proj2 business_outcome example_client
             (example_world (example_uuid, None)
                (dq "{'Message':'Busy','RequestId':'A2','CallId':'7^8','Code':'isv.BUSY'}"))
             "02560000000" "1500000000" "TTS_0000" "{}" [] example_tts_request
             (example_answer
                (dq "{'Message':'Busy','RequestId':'A2','CallId':'7^8','Code':'isv.BUSY'}"))
             {| message.TTS_Response :=
                  {| message.RequestID := "A2"; message.Code := "isv.BUSY";
                     message.Message := "Busy" |};
                message.CallID := "7^8" |}); vm_compute; reflexivity.
Defined.

(** The examples of the specification: [Code: "OK"] is a success,
    [Code: "InvalidParameter"] is not and comes with its message and no
    error. *)
Example SendSMS_OK :
  (message.SendSMS example_client ["15300000001"] "sign" "SMS_71390007" "{}" []
     (example_world (example_uuid, None) (dq "{'Code':'OK'}"))).1
  = (true,
     Some {| message.SMS_Response :=
               {| message.RequestID := ""; message.Code := "OK"; message.Message := "" |};
             message.BizID := "" |},
     None).
Proof. vm_compute. reflexivity. Qed.

Example SendSMS_InvalidParameter :
  (message.SendSMS example_client ["15300000001"] "sign" "SMS_71390007" "{}" []
     (example_world (example_uuid, None)
        (dq "{'Code':'InvalidParameter','Message':'bad template'}"))).1
  = (false,
     Some {| message.SMS_Response :=
               {| message.RequestID := ""; message.Code := "InvalidParameter";
                  message.Message := "bad template" |};
             message.BizID := "" |},
     None).
Proof. vm_compute. reflexivity. Qed.

(** A body of the wrong shape is a decode error as well: here the status
    code is a number. *)
Example SendSMS_wrong_shape :
  (message.SendSMS example_client ["15300000001"] "sign" "SMS_71390007" "{}" []
     (example_world (example_uuid, None) (dq "{'Code':200,'Message':'OK'}"))).1
  = (false, None, Some (UnmarshalTypeError "number" "Code")).
Proof. vm_compute. reflexivity. Qed.

(** ** The bodies that the decoder refuses: claim C9 *)

Lemma store_member_error `{json.Struct R} (st : R * option error) (m : string * json.value) :
  (json.store_member st m).2 = None ↔ st.2 = None ∧ spec.storable json.fields m = true.
Proof.
  unfold json.store_member, spec.storable.
  destruct (json.find_field json.fields m.1) as [f|];
    [|split; [by intros ? | by intros [? _]]].
  destruct m.2; cbn [snd];
    first [ by (split; [by intros ? | by intros [? _]])
          | split; [unfold json.saveError; by destruct st.2 | by intros [_ [=]]] ].
Qed.

Lemma store_members_error `{json.Struct R} (ms : list (string * json.value))
    (st : R * option error) :
  (fold_left json.store_member ms st).2 = None ↔
  st.2 = None ∧ forallb (spec.storable json.fields) ms = true.
Proof.
  revert st. induction ms as [|m ms IH]; intros st; cbn [fold_left forallb].
  - split; [by intros ? | by intros [? _]].
  - rewrite IH, store_member_error, andb_true_iff. tauto.
Qed.

(** The decoder reports no error exactly on the bodies it accepts. *)
Lemma Unmarshal_accepted `{json.Struct R} (data : string) (v : R) :
  (json.Unmarshal data v).2 = None ↔ spec.accepted json.fields (json.parse data) = true.
Proof.
  unfold json.Unmarshal, spec.accepted.
  destruct (json.parse data) as [[| | | | |ms]|]; cbn [snd]; try done.
  rewrite store_members_error. cbn [snd]. tauto.
Qed.

Lemma outcome_accepted `{json.Struct R} (Code : R → string) (zero : R) (resp : http.Response) :
  http.failure (http.Body_ resp) = None →
  let data := http.data (http.Body_ resp) in
  (json.parse data = None → spec.outcome Code zero (inl resp) = (false, None, Some SyntaxError))
  ∧ (spec.accepted json.fields (json.parse data) = false →
     ∃ err, (json.Unmarshal data zero).2 = Some err
            ∧ spec.outcome Code zero (inl resp) = (false, None, Some err))
  ∧ (spec.accepted json.fields (json.parse data) = true →
     ∃ r, json.Unmarshal data zero = (r, None)
          ∧ spec.outcome Code zero (inl resp)
            = (spec.equal_fold (Code r) "OK", Some r, None)).
Proof.
  intros Hf data. unfold spec.outcome. rewrite Hf. fold data.
  pose proof (Unmarshal_accepted data zero) as Hacc. split; [|split].
  - intros Hp. unfold json.Unmarshal. by rewrite Hp.
  - intros Hno. destruct (json.Unmarshal data zero) as [r [err|]]; cbn [snd] in *.
    + by exists err.
    + rewrite Hno in Hacc. by destruct Hacc as [Hacc _]; specialize (Hacc eq_refl).
  - intros Hyes. destruct (json.Unmarshal data zero) as [r [err|]]; cbn [snd] in *.
    + by destruct Hacc as [_ Hacc]; specialize (Hacc Hyes).
    + by exists r.
Qed.

(** C9 as stated fails: the bodies [{}] and [null] are valid JSON without
    any member of the expected shape, and the decoder takes them without an
    error.  The operations return no success, a response whose fields are
    empty, and no error. *)
Lemma unexpected_shape_accepted :
  (message.SendSMS example_client ["15300000001"] "sign" "SMS_71390007" "{}" []
     (example_world (example_uuid, None) "{}")).1
  = (false, Some {| message.SMS_Response := message.zero_Response; message.BizID := "" |},
     None)
  ∧ (message.SendSMS example_client ["15300000001"] "sign" "SMS_71390007" "{}" []
       (example_world (example_uuid, None) "null")).1
    = (false, Some {| message.SMS_Response := message.zero_Response; message.BizID := "" |},
       None)
  ∧ (message.MakeSingleCallByTTS example_client "02560000000" "1500000000" "TTS_0000" "{}" []
       (example_world (example_uuid, None) "{}")).1
    = (false, Some {| message.TTS_Response := message.zero_Response; message.CallID := "" |},
       None)
  ∧ (message.MakeSingleCallByTTS example_client "02560000000" "1500000000" "TTS_0000" "{}" []
       (example_world (example_uuid, None) "null")).1
    = (false, Some {| message.TTS_Response := message.zero_Response; message.CallID := "" |},
       None).
Proof. vm_compute. repeat split. Qed.

(** C9, amended. The decoder refuses a body that is not one JSON value,
    as the truncated body is, and a JSON value that cannot be stored: one
    that is neither an object nor [null], or an object in which a member
    that names a field of the response is neither a string nor [null].
    For a body that is refused the operation returns no success, no
    response and the error of the decoder, which is a syntax error when the
    body is not JSON.  Every other body is accepted, whatever members it
    has or lacks: the operation returns the response and no error.  Each
    operation is stated for itself. *)
Theorem decode_error `{message.Helpers} :
  (∀ (c : message.Client) (w : World) (phoneNumbers : list string)
     (signName templateCode templateParam : string) (params : list message.Param)
     (req : http.Request) (resp : http.Response),
     let sms := message.SendSMS c phoneNumbers signName templateCode templateParam params w in
     let data := http.data (http.Body_ resp) in
     let zero := {| message.SMS_Response := message.zero_Response; message.BizID := "" |} in
     last (wire sms.2) = Some req → remote w req = inl resp →
     http.failure (http.Body_ resp) = None →
     (json.parse data = None → sms.1 = (false, None, Some SyntaxError))
     ∧ (spec.accepted (@json.fields message.SMSResponse _) (json.parse data) = false →
        ∃ err, (json.Unmarshal data zero).2 = Some err ∧ sms.1 = (false, None, Some err))
     ∧ (spec.accepted (@json.fields message.SMSResponse _) (json.parse data) = true →
        ∃ r, json.Unmarshal data zero = (r, None)
             ∧ sms.1 = (spec.equal_fold (message.Code (message.SMS_Response r)) "OK",
                        Some r, None)))
  ∧ (∀ (c : message.Client) (w : World)
       (calledShowNumber calledNumber ttsCode ttsParam : string) (params : list message.Param)
       (req : http.Request) (resp : http.Response),
       let tts := message.MakeSingleCallByTTS c calledShowNumber calledNumber ttsCode ttsParam
                    params w in
       let data := http.data (http.Body_ resp) in
       let zero := {| message.TTS_Response := message.zero_Response; message.CallID := "" |} in
       last (wire tts.2) = Some req → remote w req = inl resp →
       http.failure (http.Body_ resp) = None →
       (json.parse data = None → tts.1 = (false, None, Some SyntaxError))
       ∧ (spec.accepted (@json.fields message.SingleCallByTTSResponse _) (json.parse data)
          = false →
          ∃ err, (json.Unmarshal data zero).2 = Some err ∧ tts.1 = (false, None, Some err))
       ∧ (spec.accepted (@json.fields message.SingleCallByTTSResponse _) (json.parse data)
          = true →
          ∃ r, json.Unmarshal data zero = (r, None)
               ∧ tts.1 = (spec.equal_fold (message.Code (message.TTS_Response r)) "OK",
                          Some r, None))).
Proof.
  split.
  - intros c w phoneNumbers signName templateCode templateParam params req resp sms data zero.
    subst sms. rewrite SendSMS_run. cbn [fst snd spec.sent wire]. rewrite last_snoc.
    intros [= <-] -> Hf.
    apply (outcome_accepted (λ r, message.Code (message.SMS_Response r)) zero resp Hf).
  - intros c w calledShowNumber calledNumber ttsCode ttsParam params req resp tts data zero.
    subst tts. rewrite MakeSingleCallByTTS_run. cbn [fst snd spec.sent wire].
    rewrite last_snoc. intros [= <-] -> Hf.
    apply (outcome_accepted (λ r, message.Code (message.TTS_Response r)) zero resp Hf).
Qed.

(** The truncated body, answered by the SMS host in a world where the
    voice host cannot be reached, and by the voice host. *)
Lemma decode_error_witness :
  (message.SendSMS example_client ["15300000001"] "sign" "SMS_71390007" "{}" []
     (example_sms_only (dq "{'RequestId':"))).1
  = (false, None, Some SyntaxError)
  ∧ (message.MakeSingleCallByTTS example_client "02560000000" "1500000000" "TTS_0000" "{}" []
       (example_world (example_uuid, None) (dq "{'RequestId':"))).1
    = (false, None, Some SyntaxError).
Proof.
  refine (conj
    (proj1 (proj1 decode_error example_client (example_sms_only (dq "{'RequestId':"))
              ["15300000001"] "sign" "SMS_71390007" "{}" [] example_sms_request
              (example_answer (dq "{'RequestId':")) _ _ _) _)
    (proj1 (proj2 decode_error example_client
              (example_world (example_uuid, None) (dq "{'RequestId':"))
              "02560000000" "1500000000" "TTS_0000" "{}" [] example_tts_request
              (example_answer (dq "{'RequestId':")) _ _ _) _));
    vm_compute; reflexivity.
Defined.

(** ** Overrides: claim C6 *)

Lemma apply_params_app (ps1 ps2 : list message.Param) (v : url.Values) :
  message.apply_params (ps1 ++ ps2) v = message.apply_params ps2 (message.apply_params ps1 v).
Proof. unfold message.apply_params. by rewrite fold_left_app. Qed.

(** Overrides that leave a key alone leave its value as it is. *)
Lemma apply_params_preserve (k : string) (ps : list message.Param) (v : url.Values) :
  Forall (λ p, ∀ v, message.f p v !! k = v !! k) ps →
  message.apply_params ps v !! k = v !! k.
Proof.
  intros Hps. revert v. induction Hps as [|p ps Hp _ IH]; intros v; [done|].
  change (message.apply_params (p :: ps) v) with (message.apply_params ps (message.f p v)).
  by rewrite IH.
Qed.

Lemma query_pairs_app (ks1 ks2 : list string) (v : url.Values) :
  spec.query_pairs (ks1 ++ ks2) v = spec.query_pairs ks1 v ++ spec.query_pairs ks2 v.
Proof. unfold spec.query_pairs. apply bind_app. Qed.

(** A key bound to one value has its pair in the canonical query string,
    between the pairs of the keys that sort before it and those of the keys
    that sort after it. *)
Lemma Encode_lookup (v : url.Values) (k x : string) :
  v !! k = Some [x] →
  ∃ ks1 ks2, (k ∉ ks1) ∧ (k ∉ ks2) ∧
    url.Encode v =
    strings.Join (spec.query_pairs ks1 v ++ [spec.query_pair k x] ++ spec.query_pairs ks2 v) "&".
Proof.
  intros Hk. unfold url.Encode. rewrite Encode_range_Join.
  assert (k ∈ url.sort_keys (url.range v)) as Hin.
  { unfold url.sort_keys, url.range. rewrite merge_sort_Permutation.
    apply list_elem_of_fmap. exists (k, [x]). split; [done|].
    by apply elem_of_map_to_list. }
  assert (NoDup (url.sort_keys (url.range v))) as Hnd.
  { unfold url.sort_keys, url.range. rewrite merge_sort_Permutation.
    apply NoDup_fst_map_to_list. }
  apply list_elem_of_split in Hin as (ks1 & ks2 & Heq). rewrite Heq in Hnd |- *.
  apply NoDup_app in Hnd as (_ & Hk1 & [Hk2 _]%NoDup_cons).
  exists ks1, ks2. split; [|split; [done|]].
  - intros Hin1. apply (Hk1 k Hin1). by left.
  - rewrite query_pairs_app. change (k :: ks2) with ([k] ++ ks2).
    rewrite query_pairs_app. do 3 f_equal.
    unfold spec.query_pairs. rewrite bind_singleton.
    unfold lookup_total, map_lookup_total. by rewrite Hk.
Qed.

Lemma QueryEscape_unreserved (s : string) :
  spec.all_bytes spec.unreserved s = true → url.QueryEscape s = s.
Proof.
  rewrite QueryEscape_form_encode. induction s as [|c s IH]; [done|].
  cbn [spec.all_bytes spec.form_encode]. intros [Hc Hs]%andb_prop.
  rewrite IH by done. unfold spec.form_byte. rewrite Hc.
  destruct (Ascii.eqb_spec c " ") as [->|_]; [done|]. by rewrite sapp_cons.
Qed.

Lemma length_form_encode (s : string) :
  (String.length s ≤ String.length (spec.form_encode s))%nat.
Proof.
  induction s as [|c s IH]; [done|]. cbn [spec.form_encode]. rewrite slength_app.
  assert (1 ≤ String.length (spec.form_byte c))%nat; [|simpl; lia].
  unfold spec.form_byte, spec.percent. repeat case_match; simpl; lia.
Qed.

(** The strings that [url.QueryEscape] leaves as they are: those of
    unreserved bytes. *)
Lemma QueryEscape_fixed (s : string) :
  url.QueryEscape s = s ↔ spec.all_bytes spec.unreserved s = true.
Proof.
  split; [|apply QueryEscape_unreserved].
  rewrite QueryEscape_form_encode. induction s as [|c s IH]; [done|].
  cbn [spec.form_encode spec.all_bytes]. unfold spec.form_byte, spec.percent.
  destruct (Ascii.eqb_spec c " ") as [->|Hsp]; [by rewrite sapp_cons|].
  destruct (spec.unreserved c) eqn:Hc.
  - rewrite sapp_cons, sapp_nil_l. intros [= Hs]. auto.
  - rewrite !sapp_cons, sapp_nil_l. intros [= _ Hs].
    pose proof (length_form_encode s) as Hlen.
    apply (f_equal String.length) in Hs. simpl in Hs. lia.
Qed.

Lemma override_lookup (k val : string) (ps1 ps2 : list message.Param) (v : url.Values) :
  Forall (λ p, ∀ v, message.f p v !! k = v !! k) ps2 →
  message.apply_params (ps1 ++ message.SetParam k val :: ps2) v !! k = Some [val].
Proof.
  intros Hps. rewrite apply_params_app.
  change (message.apply_params (message.SetParam k val :: ps2) ?u)
    with (message.apply_params ps2 (url.Set_ u k val)).
  rewrite apply_params_preserve by done. apply lookup_insert_eq.
Qed.

(** C6 as stated fails: the value of an override is form-encoded like every
    other value, so a time stamp does not appear as it is written. *)
Lemma override_not_verbatim :
  let sortedQueryStr :=
    url.Encode (message.apply_params [message.SetParam "Timestamp" "2020-01-01T00:00:00Z"]
                  (spec.parameter_set
                     (spec.SendSMS_entries example_client
                        (example_world (example_uuid, None) (dq "{'Code':'OK'}"))
                        ["15300000001"] "sign" "SMS_71390007" "{}"))) in
  wire (message.SendSMS example_client ["15300000001"] "sign" "SMS_71390007" "{}"
          [message.SetParam "Timestamp" "2020-01-01T00:00:00Z"]
          (example_world (example_uuid, None) (dq "{'Code':'OK'}"))).2
  = [{| http.Method := "GET";
        http.URL := "http://dysmsapi.aliyuncs.com/?Signature="
                    +:+ message.SignedString example_client "GET" sortedQueryStr
                    +:+ "&" +:+ sortedQueryStr |}]
  ∧ strings.Contains sortedQueryStr "2020-01-01T00:00:00Z" = false
  ∧ strings.Contains sortedQueryStr "Timestamp=2020-01-01T00%3A00%3A00Z" = true
  ∧ strings.Contains sortedQueryStr "2017-07-12" = false.
Proof. vm_compute. repeat split. Qed.

(** C6, amended. The overrides are applied after the default and the
    business parameters.  An override that sets [k] to [val], followed only
    by overrides that leave [k] alone, puts the pair of [k] and [val], both
    form-encoded, in the sorted query string that is signed and sent; the
    other pairs are those of other keys.  The value stands as it is written
    exactly when its bytes are unreserved. *)
Theorem override_precedence `{message.Helpers} (c : message.Client) (w : World)
    (phoneNumbers : list string) (signName templateCode templateParam : string)
    (calledShowNumber calledNumber ttsCode ttsParam : string)
    (ps1 ps2 : list message.Param) (k val : string) :
  Forall (λ p, ∀ v, message.f p v !! k = v !! k) ps2 →
  let params := ps1 ++ message.SetParam k val :: ps2 in
  (∃ ks1 ks2 v, (k ∉ ks1) ∧ (k ∉ ks2) ∧
     let sortedQueryStr :=
       strings.Join (spec.query_pairs ks1 v
                     ++ [url.QueryEscape k +:+ "=" +:+ url.QueryEscape val]
                     ++ spec.query_pairs ks2 v) "&" in
     wire (message.SendSMS c phoneNumbers signName templateCode templateParam params w).2
     = wire w ++
       [{| http.Method := "GET";
           http.URL := "http://dysmsapi.aliyuncs.com/?" +:+ "Signature="
                       +:+ message.SignedString c "GET" sortedQueryStr
                       +:+ "&" +:+ sortedQueryStr |}])
  ∧ (∃ ks1 ks2 v, (k ∉ ks1) ∧ (k ∉ ks2) ∧
     let sortedQueryStr :=
       strings.Join (spec.query_pairs ks1 v
                     ++ [url.QueryEscape k +:+ "=" +:+ url.QueryEscape val]
                     ++ spec.query_pairs ks2 v) "&" in
     wire (message.MakeSingleCallByTTS c calledShowNumber calledNumber ttsCode ttsParam
             params w).2
     = wire w ++
       [{| http.Method := "GET";
           http.URL := "http://dyvmsapi.aliyuncs.com/?" +:+ "Signature="
                       +:+ message.SignedString c "GET" sortedQueryStr
                       +:+ "&" +:+ sortedQueryStr |}])
  ∧ (url.QueryEscape val = val ↔ spec.all_bytes spec.unreserved val = true).
Proof.
  intros Hps params. split; [|split; [|apply QueryEscape_fixed]].
  - rewrite SendSMS_run. cbv zeta.
    set (v := message.apply_params params _).
    destruct (Encode_lookup v k val) as (ks1 & ks2 & Hk1 & Hk2 & Hq).
    { by apply override_lookup. }
    exists ks1, ks2, v. split; [done|]. split; [done|].
    fold (spec.query_pair k val). by rewrite <- Hq.
  - rewrite MakeSingleCallByTTS_run. cbv zeta.
    set (v := message.apply_params params _).
    destruct (Encode_lookup v k val) as (ks1 & ks2 & Hk1 & Hk2 & Hq).
    { by apply override_lookup. }
    exists ks1, ks2, v. split; [done|]. split; [done|].
    fold (spec.query_pair k val). by rewrite <- Hq.
Qed.

Lemma override_precedence_witness :
  let params := [message.SetParam "Format" "XML"]
                ++ message.SetParam "Timestamp" "2020-01-01T00:00:00Z"
                   :: [message.SetParam "OutId" "123"] in
  let w := example_world (example_uuid, None) (dq "{'Code':'OK'}") in
  (∃ ks1 ks2 v, ("Timestamp" ∉ ks1) ∧ ("Timestamp" ∉ ks2) ∧
     let sortedQueryStr :=
       strings.Join (spec.query_pairs ks1 v
                     ++ [url.QueryEscape "Timestamp" +:+ "="
                         +:+ url.QueryEscape "2020-01-01T00:00:00Z"]
                     ++ spec.query_pairs ks2 v) "&" in
     wire (message.SendSMS example_client ["15300000001"] "sign" "SMS_71390007" "{}"
             params w).2
     = wire w ++
       [{| http.Method := "GET";
           http.URL := "http://dysmsapi.aliyuncs.com/?" +:+ "Signature="
                       +:+ message.SignedString example_client "GET" sortedQueryStr
                       +:+ "&" +:+ sortedQueryStr |}])
  ∧ (∃ ks1 ks2 v, ("Timestamp" ∉ ks1) ∧ ("Timestamp" ∉ ks2) ∧
     let sortedQueryStr :=
       strings.Join (spec.query_pairs ks1 v
                     ++ [url.QueryEscape "Timestamp" +:+ "="
                         +:+ url.QueryEscape "2020-01-01T00:00:00Z"]
                     ++ spec.query_pairs ks2 v) "&" in
     wire (message.MakeSingleCallByTTS example_client "02560000000" "1500000000"
             "TTS_0000" "{}" params w).2
     = wire w ++
       [{| http.Method := "GET";
           http.URL := "http://dyvmsapi.aliyuncs.com/?" +:+ "Signature="
                       +:+ message.SignedString example_client "GET" sortedQueryStr
                       +:+ "&" +:+ sortedQueryStr |}])
  ∧ (url.QueryEscape "2020-01-01T00:00:00Z" = "2020-01-01T00:00:00Z" ↔
     spec.all_bytes spec.unreserved "2020-01-01T00:00:00Z" = true).
Proof.
  apply (override_precedence example_client
           (example_world (example_uuid, None) (dq "{'Code':'OK'}"))
           ["15300000001"] "sign" "SMS_71390007" "{}"
           "02560000000" "1500000000" "TTS_0000" "{}"
           [message.SetParam "Format" "XML"] [message.SetParam "OutId" "123"]
           "Timestamp" "2020-01-01T00:00:00Z").
  apply Forall_singleton. intros v. simpl. by apply lookup_insert_ne.
Defined.

(** ** The nonce: claim C8 *)

(** C8 fails on the code. When [uuid.New] fails, [SetDefaultCommonParams]
    sets the empty nonce it got, and [SendSMS] sends the request with
    [SignatureNonce=] and returns the success of the remote end, not the
    error. *)
Theorem nonce_failure_ignored :
  let w := example_world ("", Some (ErrorString "uuid: no random bytes"))
             (dq "{'Code':'OK'}") in
  let out := message.SendSMS example_client ["15300000001"] "sign" "SMS_71390007" "{}"
               [] w in
  (message.SetDefaultCommonParams example_client ∅ w).1 !! "SignatureNonce" = Some [""]
  ∧ out.1.2 = None
  ∧ out.1.1.1 = true
  ∧ (λ req, strings.Contains (http.URL req) "&SignatureNonce=&") <$> wire out.2 = [true].
Proof. vm_compute. repeat split. Qed.

(** The error of [uuid.New] is not observed: two worlds that differ in it
    alone give the same results and the same requests. *)
Lemma uuid_error_unobserved `{message.Helpers} (c : message.Client) (w : World)
    (phoneNumbers : list string) (signName templateCode templateParam : string)
    (params : list message.Param) (UUID : string) (e1 e2 : option error) :
  let world e := {| clock := clock w; next_uuid := (UUID, e); remote := remote w;
                    wire := wire w |} in
  let run e := message.SendSMS c phoneNumbers signName templateCode templateParam params
                 (world e) in
  (run e1).1 = (run e2).1 ∧ wire (run e1).2 = wire (run e2).2.
Proof. cbv beta zeta. by rewrite !SendSMS_run. Qed.

(** ** SHA-1: writing in pieces and hashing at once *)

(** The compression function is not unfolded. *)
#[local] Opaque sha1.block Z.pow.

Lemma Write_app (d : sha1.digest) (a b : list Z) :
  sha1.Write (sha1.Write d a) b = sha1.Write d (a ++ b).
Proof. unfold sha1.Write. by rewrite fold_left_app. Qed.

Lemma Write_snoc (d : sha1.digest) (p : list Z) (b : Z) :
  sha1.Write d (p ++ [b]) = sha1.push (sha1.Write d p) b.
Proof. unfold sha1.Write. by rewrite fold_left_app. Qed.

Lemma len_Write (d : sha1.digest) (p : list Z) :
  (sha1.len (sha1.Write d p) mod 2 ^ 64 = (sha1.len d + Z.of_nat (length p)) mod 2 ^ 64)%Z.
Proof.
  induction p as [|b p IH] using rev_ind.
  - by rewrite Z.add_0_r.
  - rewrite Write_snoc, length_app. unfold sha1.push.
    assert (sha1.len (if (length (sha1.x (sha1.Write d p) ++ [b]) =? sha1.chunk)%nat
                      then sha1.Digest (sha1.block (sha1.h (sha1.Write d p))
                                          (sha1.x (sha1.Write d p) ++ [b])) []
                                       ((sha1.len (sha1.Write d p) + 1) mod 2 ^ 64)
                      else sha1.Digest (sha1.h (sha1.Write d p))
                             (sha1.x (sha1.Write d p) ++ [b])
                             ((sha1.len (sha1.Write d p) + 1) mod 2 ^ 64))
            = ((sha1.len (sha1.Write d p) + 1) mod 2 ^ 64)%Z) as ->.
    { by destruct (_ =? _)%nat. }
    rewrite Z.mod_mod by lia. rewrite <- Zplus_mod_idemp_l, IH, Zplus_mod_idemp_l.
    f_equal. simpl. lia.
Qed.

(** Bytes that do not fill the buffer are kept. *)
Lemma Write_buffered (d : sha1.digest) (p : list Z) :
  (length (sha1.x d) + length p < 64)%nat →
  sha1.h (sha1.Write d p) = sha1.h d ∧ sha1.x (sha1.Write d p) = sha1.x d ++ p.
Proof.
  induction p as [|b p IH] using rev_ind; intros Hlen.
  - by rewrite app_nil_r.
  - rewrite length_app in Hlen. simpl in Hlen.
    destruct IH as [Hh Hx]; [lia|].
    rewrite Write_snoc. unfold sha1.push. rewrite Hx, Hh.
    replace (length ((sha1.x d ++ p) ++ [b]) =? sha1.chunk)%nat with false.
    + by rewrite <- app_assoc.
    + symmetry. apply Nat.eqb_neq. rewrite !length_app. simpl. unfold sha1.chunk. lia.
Qed.

(** A block written to an empty buffer is compressed. *)
Lemma Write_block (d : sha1.digest) (p : list Z) :
  sha1.x d = [] → length p = 64%nat →
  sha1.h (sha1.Write d p) = sha1.block (sha1.h d) p ∧ sha1.x (sha1.Write d p) = [].
Proof.
  intros Hx Hlen. destruct p as [|b p _] using rev_ind; [done|].
  rewrite length_app in Hlen. simpl in Hlen.
  destruct (Write_buffered d p) as [Hh Hx']; [rewrite Hx; simpl; lia|].
  rewrite Write_snoc. unfold sha1.push. rewrite Hx', Hh, Hx. cbn [app].
  replace (length (p ++ [b]) =? sha1.chunk)%nat with true; [done|].
  symmetry. apply Nat.eqb_eq. rewrite length_app. simpl. unfold sha1.chunk. lia.
Qed.

Lemma blocks_cons (fuel : nat) (m : list Z) :
  m ≠ [] → spec.blocks (S fuel) m = take 64 m :: spec.blocks fuel (drop 64 m).
Proof. by destruct m. Qed.

Lemma fold_left_cons {A B} (f : A → B → A) (b : B) (l : list B) (a : A) :
  fold_left f (b :: l) a = fold_left f l (f a b).
Proof. reflexivity. Qed.

(** Whole blocks written to an empty buffer are compressed in turn. *)
Lemma Write_blocks (n fuel : nat) (d : sha1.digest) (m : list Z) :
  sha1.x d = [] → length m = (64 * n)%nat → (n ≤ fuel)%nat →
  sha1.h (sha1.Write d m) = fold_left sha1.block (spec.blocks fuel m) (sha1.h d)
  ∧ sha1.x (sha1.Write d m) = [].
Proof.
  revert fuel d m. induction n as [|n IH]; intros fuel d m Hx Hlen Hfuel.
  - rewrite Nat.mul_0_r in Hlen. apply nil_length_inv in Hlen as ->.
    split; [|exact Hx]. destruct fuel; reflexivity.
  - destruct fuel as [|fuel]; [lia|].
    rewrite blocks_cons by (intros ->; simpl in Hlen; lia).
    rewrite fold_left_cons.
    destruct (Write_block d (take 64 m)) as [Hh1 Hx1];
      [exact Hx|rewrite length_take; lia|].
    assert (length (drop 64 m) = (64 * n)%nat) as Hd by (rewrite length_drop; lia).
    destruct (IH fuel (sha1.Write d (take 64 m)) (drop 64 m) Hx1 Hd ltac:(lia)) as [Hh2 Hx2].
    assert (sha1.Write d m = sha1.Write (sha1.Write d (take 64 m)) (drop 64 m)) as ->
      by (by rewrite Write_app, take_drop).
    rewrite Hh2, Hx2, Hh1. split; reflexivity.
Qed.

(** ** The padding *)
Lemma padding_mod (l : Z) : sha1.padding (l mod 2 ^ 64) = sha1.padding l.
Proof.
  unfold sha1.padding.
  assert ((l mod 2 ^ 64) mod 64 = l mod 64)%Z as ->.
  { apply Z.mod_mod_divide. exists (2 ^ 58)%Z. vm_compute. reflexivity. }
  by rewrite Z.mul_mod_idemp_l by lia.
Qed.

Lemma padding_pad (m : list Z) :
  m ++ sha1.padding (Z.of_nat (length m)) = spec.pad m.
Proof.
  unfold spec.pad, sha1.padding. cbn [app]. do 3 f_equal; [|by rewrite Z.mul_comm].
  f_equal. set (l := Z.of_nat (length m)).
  pose proof (Z.mod_pos_bound l 64 ltac:(lia)) as Hl.
  pose proof (Z.div_mod l 64 ltac:(lia)) as Hdm.
  destruct (l mod 64 <? 56)%Z eqn:Hlt.
  - apply Z.ltb_lt in Hlt.
    assert ((55 - l) mod 64 = 55 - l mod 64)%Z as ->; [|lia].
    symmetry. apply (Z.mod_unique _ _ (- (l / 64))); lia.
  - apply Z.ltb_ge in Hlt.
    assert ((55 - l) mod 64 = 119 - l mod 64)%Z as ->; [|lia].
    symmetry. apply (Z.mod_unique _ _ (- (l / 64) - 1)); lia.
Qed.

Lemma length_pad (m : list Z) : ∃ n, length (spec.pad m) = (64 * n)%nat.
Proof.
  unfold spec.pad. set (l := Z.of_nat (length m)).
  pose proof (Z.mod_pos_bound (55 - l) 64 ltac:(lia)) as Hr.
  exists (Z.to_nat ((l + 1 + (55 - l) mod 64 + 8) / 64)).
  rewrite !length_app, length_replicate. cbn [length sha1.be64 fmap list_fmap].
  pose proof (Z.div_mod (55 - l) 64 ltac:(lia)) as Hdm.
  assert ((l + 1 + (55 - l) mod 64 + 8) = 64 * (1 - (55 - l) / 64))%Z as Hq by lia.
  rewrite Hq, Z.mul_comm, Z.div_mul by lia. subst l. lia.
Qed.

(** The digest object of the code computes SHA-1 of what was written. *)
Lemma Sum_Write (m : list Z) : sha1.Sum (sha1.Write sha1.New m) [] = spec.SHA1 m.
Proof.
  unfold sha1.Sum, sha1.checkSum. rewrite app_nil_l.
  rewrite <- padding_mod, len_Write. change (sha1.len sha1.New) with 0%Z.
  rewrite Z.add_0_l, padding_mod, Write_app, padding_pad.
  destruct (length_pad m) as [n Hn].
  destruct (Write_blocks n (length (spec.pad m)) sha1.New (spec.pad m)) as [Hh _];
    [reflexivity|exact Hn|lia|].
  rewrite Hh. reflexivity.
Qed.

(** [checkSum] panics when bytes are pending after the padding; there are
    none. *)
Lemma checkSum_buffer_empty (m : list Z) :
  let d := sha1.Write sha1.New m in
  sha1.x (sha1.Write d (sha1.padding (sha1.len d))) = [].
Proof.
  cbv zeta. rewrite <- padding_mod, len_Write. change (sha1.len sha1.New) with 0%Z.
  rewrite Z.add_0_l, padding_mod, Write_app, padding_pad.
  destruct (length_pad m) as [n Hn].
  by destruct (Write_blocks n (length (spec.pad m)) sha1.New (spec.pad m)) as [_ Hx];
    [reflexivity|exact Hn|lia|].
Qed.

(** ** HMAC *)
Lemma hmac_Sum_Write (key text : list Z) :
  hmac.Sum (hmac.Write (hmac.New key) text) [] = spec.HMAC_SHA1 key text.
Proof.
  unfold hmac.Sum, hmac.Write, hmac.New, spec.HMAC_SHA1, hmac.pad_key.
  cbn [hmac.inner hmac.opad hmac.ipad length drop take].
  unfold sha1.BlockSize. rewrite !Write_app, !Sum_Write. cbn [drop take app].
  rewrite drop_0. reflexivity.
Qed.

(** ** Base64 *)

(** The test vectors of RFC 4648. *)
Example base64_rfc4648 :
  spec.base64 [] = "" ∧ spec.base64 (bytes "f") = "Zg==" ∧ spec.base64 (bytes "fo") = "Zm8="
  ∧ spec.base64 (bytes "foo") = "Zm9v" ∧ spec.base64 (bytes "foob") = "Zm9vYg=="
  ∧ spec.base64 (bytes "fooba") = "Zm9vYmE=" ∧ spec.base64 (bytes "foobar") = "Zm9vYmFy".
Proof. vm_compute. repeat split. Qed.

(** A property of bytes that holds for the 256 of them. *)
Lemma byte_cases (p : Z → bool) :
  forallb p (Z.of_nat <$> seq 0 256) = true → ∀ b, spec.is_byte b → p b = true.
Proof.
  intros Hall b Hb. rewrite forallb_forall in Hall. apply Hall.
  apply list_elem_of_In, list_elem_of_fmap. exists (Z.to_nat b).
  split; [unfold spec.is_byte in Hb; lia|]. apply elem_of_seq. unfold spec.is_byte in Hb. lia.
Qed.

Lemma byte_cases2 (p : Z → Z → bool) :
  forallb (λ a, forallb (p a) (Z.of_nat <$> seq 0 256)) (Z.of_nat <$> seq 0 256) = true →
  ∀ a b, spec.is_byte a → spec.is_byte b → p a b = true.
Proof.
  intros Hall a b Ha Hb.
  apply (byte_cases (p a)); [|done].
  by apply (byte_cases (λ a, forallb (p a) (Z.of_nat <$> seq 0 256))).
Qed.

Ltac bytes1 b :=
  match goal with
  | |- ?g = true =>
      let p := eval pattern b in g in
      match p with
      | ?f _ => apply (byte_cases f); [vm_compute; reflexivity | assumption]
      end
  end.

Ltac bytes2 a b :=
  match goal with
  | |- ?g = true =>
      let p := eval pattern a, b in g in
      match p with
      | ?f _ _ => apply (byte_cases2 f); [vm_compute; reflexivity | assumption..]
      end
  end.

(** The byte, or the two bytes, of a goal [_ = true] run through all their
    values. *)
(** [enc] looks at the low six bits, and those of a disjunction are the
    disjunction of those of its parts. *)
Lemma enc_land (v : Z) : base64.enc v = base64.enc (Z.land v 63).
Proof. unfold base64.enc. by rewrite <- Z.land_assoc. Qed.

Lemma enc_parts (x y z k : Z) :
  base64.enc (Z.shiftr (Z.lor (Z.lor x y) z) k) =
  base64.enc (Z.lor (Z.lor (Z.land (Z.shiftr x k) 63) (Z.land (Z.shiftr y k) 63))
                (Z.land (Z.shiftr z k) 63)).
Proof.
  rewrite enc_land, !Z.shiftr_lor, !Z.land_lor_distr_l. reflexivity.
Qed.

Section sextets.
Context (a b c : Z) (Ha : spec.is_byte a) (Hb : spec.is_byte b) (Hc : spec.is_byte c).

Lemma low_bits_1 : Z.land (Z.shiftr (Z.shiftl b 8) 18) 63 = 0%Z.
Proof. apply Z.eqb_eq. bytes1 b. Qed.

Lemma low_bits_2 (k : Z) : k = 18%Z ∨ k = 12%Z → Z.land (Z.shiftr c k) 63 = 0%Z.
Proof. intros [-> | ->]; apply Z.eqb_eq; bytes1 c. Qed.

Lemma low_bits_3 (k : Z) : k = 6%Z ∨ k = 0%Z → Z.land (Z.shiftr (Z.shiftl a 16) k) 63 = 0%Z.
Proof. intros [-> | ->]; apply Z.eqb_eq; bytes1 a. Qed.

Lemma low_bits_4 : Z.land (Z.shiftr (Z.shiftl b 8) 0) 63 = 0%Z.
Proof. apply Z.eqb_eq. bytes1 b. Qed.

Lemma sextet_1 :
  base64.enc (Z.shiftr (spec.val3 a b c) 18) =
  spec.alphabet (spec.bits_value (take 6 (spec.byte_bits a))).
Proof.
  unfold spec.val3. rewrite enc_parts, low_bits_1, low_bits_2, !Z.lor_0_r by auto.
  apply Ascii.eqb_eq. bytes1 a.
Qed.

Lemma sextet_2 :
  base64.enc (Z.shiftr (spec.val3 a b c) 12) =
  spec.alphabet (spec.bits_value (drop 6 (spec.byte_bits a) ++ take 4 (spec.byte_bits b))).
Proof.
  unfold spec.val3. rewrite enc_parts, low_bits_2, !Z.lor_0_r by auto.
  apply Ascii.eqb_eq. bytes2 a b.
Qed.

Lemma sextet_3 :
  base64.enc (Z.shiftr (spec.val3 a b c) 6) =
  spec.alphabet (spec.bits_value (drop 4 (spec.byte_bits b) ++ take 2 (spec.byte_bits c))).
Proof.
  unfold spec.val3. rewrite enc_parts, low_bits_3, !Z.lor_0_l by auto.
  apply Ascii.eqb_eq. bytes2 b c.
Qed.

Lemma sextet_4 :
  base64.enc (spec.val3 a b c) =
  spec.alphabet (spec.bits_value (drop 2 (spec.byte_bits c))).
Proof.
  rewrite <- (Z.shiftr_0_r (spec.val3 a b c)). unfold spec.val3.
  rewrite enc_parts, low_bits_3, low_bits_4, !Z.lor_0_l by auto.
  apply Ascii.eqb_eq. bytes1 c.
Qed.
End sextets.

Lemma is_byte_0 : spec.is_byte 0.
Proof. unfold spec.is_byte. lia. Qed.

Lemma pad_count_4 (n : nat) : spec.pad_count (S (S (S (S n)))) = spec.pad_count n.
Proof.
  unfold spec.pad_count. f_equal. f_equal.
  change (S (S (S (S n)))) with (4 + n)%nat.
  rewrite Nat.add_comm. apply (Nat.Div0.mod_add n 1 4).
Qed.

Lemma sextets_3 (a b c : Z) (R : list bool) :
  spec.sextets (spec.byte_bits a ++ spec.byte_bits b ++ spec.byte_bits c ++ R) =
  take 6 (spec.byte_bits a)
  :: (drop 6 (spec.byte_bits a) ++ take 4 (spec.byte_bits b))
  :: (drop 4 (spec.byte_bits b) ++ take 2 (spec.byte_bits c))
  :: drop 2 (spec.byte_bits c)
  :: spec.sextets R.
Proof. reflexivity. Qed.

Lemma base64_cons3 (a b c : Z) (rest : list Z) :
  spec.base64 (a :: b :: c :: rest) =
  String (spec.alphabet (spec.bits_value (take 6 (spec.byte_bits a))))
    (String (spec.alphabet (spec.bits_value
               (drop 6 (spec.byte_bits a) ++ take 4 (spec.byte_bits b))))
       (String (spec.alphabet (spec.bits_value
                  (drop 4 (spec.byte_bits b) ++ take 2 (spec.byte_bits c))))
          (String (spec.alphabet (spec.bits_value (drop 2 (spec.byte_bits c))))
             (spec.base64 rest)))).
Proof.
  unfold spec.base64. rewrite !bind_cons, sextets_3.
  rewrite !fmap_cons. cbn [length]. rewrite pad_count_4. reflexivity.
Qed.

(** [EncodeToString] is Base64. *)
Lemma EncodeToString_base64 (n : nat) (src : list Z) :
  (length src ≤ n)%nat → Forall spec.is_byte src →
  base64.EncodeToString src = spec.base64 src.
Proof.
  revert src. induction n as [|n IH]; intros src Hn Hsrc.
  - by destruct src; [|simpl in Hn; lia].
  - destruct src as [|a [|b [|c rest]]]; [done|..].
    + apply Forall_cons in Hsrc as [Ha _].
      pose proof (sextet_1 a 0 0 Ha is_byte_0 is_byte_0) as H1.
      pose proof (sextet_2 a 0 0 Ha is_byte_0 is_byte_0) as H2.
      unfold spec.val3 in H1, H2. rewrite !Z.lor_0_r in H1, H2.
      cbn [base64.EncodeToString]. cbv zeta. rewrite H1, H2. reflexivity.
    + apply Forall_cons in Hsrc as [Ha [Hb _]%Forall_cons].
      pose proof (sextet_1 a b 0 Ha Hb is_byte_0) as H1.
      pose proof (sextet_2 a b 0 Ha Hb is_byte_0) as H2.
      pose proof (sextet_3 a b 0 Ha Hb is_byte_0) as H3.
      unfold spec.val3 in H1, H2, H3. rewrite !Z.lor_0_r in H1, H2, H3.
      cbn [base64.EncodeToString]. cbv zeta. rewrite H1, H2, H3. reflexivity.
    + apply Forall_cons in Hsrc as [Ha [Hb [Hc Hrest]%Forall_cons]%Forall_cons].
      cbn [base64.EncodeToString]. cbv zeta. fold (spec.val3 a b c).
      rewrite (sextet_1 a b c), (sextet_2 a b c), (sextet_3 a b c), (sextet_4 a b c) by done.
      rewrite base64_cons3, IH; [done| |done]. simpl in Hn. lia.
Qed.

(** The digests are bytes. *)
Lemma be32_bytes (n : Z) : Forall spec.is_byte (sha1.be32 n).
Proof.
  unfold sha1.be32. apply Forall_fmap, Forall_forall. intros k _.
  apply Z.mod_pos_bound. lia.
Qed.

Lemma SHA1_bytes (m : list Z) : Forall spec.is_byte (spec.SHA1 m).
Proof.
  unfold spec.SHA1. cbv zeta.
  destruct (fold_left sha1.block _ _) as [a b c d e].
  repeat (apply Forall_app; split); apply be32_bytes.
Qed.

Lemma HMAC_SHA1_bytes (key text : list Z) : Forall spec.is_byte (spec.HMAC_SHA1 key text).
Proof. apply SHA1_bytes. Qed.

(** ** The signature: claim C1 *)

Lemma SpecialURLEncode_special_encode (s : string) :
  message.SpecialURLEncode s = spec.special_encode s.
Proof.
  unfold message.SpecialURLEncode, spec.special_encode.
  by rewrite !Replace_all, QueryEscape_form_encode.
Qed.

(** C1. [SignedString] returns the signature of the specification: the
    special encoding of the Base64 text of the HMAC-SHA1, keyed by the
    secret followed by [&], of the method, [&], the encoding [%2F] of [/],
    [&] and the special encoding of the sorted query string.  The HMAC, the
    hash and Base64 are those of RFC 2104, FIPS 180-4 and RFC 4648, which
    the objects of Go's library compute. *)
Theorem SignedString_refines_spec (c : message.Client) (httpMethod sortedQueryStr : string) :
  message.SignedString c httpMethod sortedQueryStr =
  spec.signature (message.accessKeySecret c) httpMethod sortedQueryStr
  ∧ spec.string_to_sign httpMethod sortedQueryStr =
    httpMethod +:+ "&" +:+ "%2F" +:+ "&" +:+ message.SpecialURLEncode sortedQueryStr.
Proof.
  unfold message.SignedString, spec.signature, spec.string_to_sign.
  rewrite hmac_Sum_Write, !SpecialURLEncode_special_encode.
  rewrite (EncodeToString_base64 _ _ (le_n _) (HMAC_SHA1_bytes _ _)).
  split; reflexivity.
Qed.

(** The regression vector of the specification, [SignedString("GET",
    "Action=SendSms")] with the secret [testSecret]. *)
Example SignedString_vector :
  message.SignedString example_client "GET" "Action=SendSms" = "FeC162BWF8%2Bxj0kCOALgPmYpx7o%3D".
Proof. vm_compute. reflexivity. Qed.

(** ** The JSON decoder: what it leaves is shorter than what it got *)
Lemma length_skip_space (s : string) : (String.length (json.skip_space s) ≤ String.length s)%nat.
Proof.
  induction s as [|c s IH]; [done|]. simpl. destruct (json.isSpace c); simpl; lia.
Qed.

Lemma skip_space_cons (s : string) (c : ascii) (t : string) :
  json.skip_space s = String c t → (String.length t < String.length s)%nat.
Proof.
  intros Heq. pose proof (length_skip_space s) as Hs. rewrite Heq in Hs. simpl in Hs. lia.
Qed.

Lemma prepend_Some (p : string) (o : option (string * string)) (x r : string) :
  json.prepend p o = Some (x, r) → ∃ body, o = Some (body, r) ∧ x = p +:+ body.
Proof.
  unfold json.prepend. destruct o as [[body rest]|]; simpl; [|done].
  intros [= <- <-]. eauto.
Qed.

Lemma string_body_shorter (n : nat) (s x r : string) :
  (String.length s ≤ n)%nat → json.string_body s = Some (x, r) → (String.length r < String.length s)%nat.
Proof.
  revert s x r. induction n as [|n IH]; intros s x r Hn Hs.
  - destruct s; [done|simpl in Hn; lia].
  - destruct s as [|c t]; [done|]. cbn [json.string_body] in Hs. cbv zeta in Hs.
    repeat case_match; simplify_eq;
      repeat match goal with
      | H : json.prepend _ _ = Some _ |- _ =>
          apply prepend_Some in H as (? & H & ?)
      | H : json.string_body _ = Some _ |- _ =>
          apply IH in H; [|cbn [String.length] in *; lia]
      end; cbn [String.length] in *; lia.
Qed.

Lemma span_digits_length (s ds rest : string) :
  json.span_digits s = (ds, rest) → String.length s = (String.length ds + String.length rest)%nat.
Proof.
  revert ds rest. induction s as [|c s IH]; intros ds rest; simpl.
  - by intros [= <- <-].
  - destruct (json.isDigit c); [|by intros [= <- <-]].
    destruct (json.span_digits s) as [ds' rest']. intros [= <- <-].
    simpl. by rewrite (IH ds' rest').
Qed.

Lemma digits1_shorter (s ds r : string) :
  json.digits1 s = Some (ds, r) → (String.length r < String.length s)%nat.
Proof.
  unfold json.digits1. destruct (json.span_digits s) as [ds' rest] eqn:Hsp.
  case_bool_decide as Hne; [done|]. intros [= <- <-].
  apply span_digits_length in Hsp. destruct ds'; [done|]. simpl in Hsp. lia.
Qed.

Lemma number_shorter (s lit r : string) :
  json.number s = Some (lit, r) → (String.length r < String.length s)%nat.
Proof.
  unfold json.number. intros Hn.
  repeat (case_match || simplify_option_eq);
    repeat match goal with
    | H : json.digits1 _ = Some _ |- _ => apply digits1_shorter in H
    end; cbn [String.length] in *; lia.
Qed.

Lemma length_substring (n m : nat) (s : string) : (String.length (substring n m s) ≤ m)%nat.
Proof.
  revert n m. induction s as [|c s IH]; intros [|n] [|m]; simpl; try lia.
  - specialize (IH 0 m)%nat. lia.
  - apply IH.
  - apply IH.
Qed.

Lemma literal_shorter (lit s r : string) :
  lit ≠ "" → s ≠ "" → json.literal lit s = Some r → (String.length r < String.length s)%nat.
Proof.
  unfold json.literal. intros Hl Hs. case_match; [|done]. intros [= <-].
  pose proof (length_substring (String.length lit) (String.length s - String.length lit) s).
  destruct lit; [done|]. destruct s; [done|]. simpl in *. lia.
Qed.

(** The facts on lengths that the hypotheses give. *)
Ltac shorter_facts :=
  repeat match goal with
  | H : json.skip_space _ = String _ _ |- _ => apply skip_space_cons in H
  | H : json.string_body _ = Some _ |- _ => apply (string_body_shorter _ _ _ _ (le_n _)) in H
  | H : json.number _ = Some _ |- _ => apply number_shorter in H
  | H : json.literal _ _ = Some _ |- _ => apply literal_shorter in H; [|done..]
  end.

Lemma value_shorter (n : nat) :
  (∀ d s v r, json.value_ n d s = Some (v, r) → (String.length r < String.length s)%nat)
  ∧ (∀ d s vs r, json.elements n d s = Some (vs, r) → (String.length r < String.length s)%nat)
  ∧ (∀ d s ms r, json.members n d s = Some (ms, r) → (String.length r < String.length s)%nat).
Proof.
  induction n as [|n (IHv & IHe & IHm)]; [done|].
  split; [|split]; intros d s ? r Hp.
  - cbn [json.value_] in Hp.
    repeat (case_match || simplify_option_eq);
      repeat match goal with
      | H : json.elements n _ _ = Some _ |- _ => apply IHe in H
      | H : json.members n _ _ = Some _ |- _ => apply IHm in H
      end; shorter_facts; cbn [String.length] in *; lia.
  - cbn [json.elements] in Hp.
    repeat (case_match || simplify_option_eq);
      repeat match goal with
      | H : json.value_ n _ _ = Some _ |- _ => apply IHv in H
      | H : json.elements n _ _ = Some _ |- _ => apply IHe in H
      end; shorter_facts; cbn [String.length] in *; lia.
  - cbn [json.members] in Hp.
    repeat (case_match || simplify_option_eq);
      repeat match goal with
      | H : json.value_ n _ _ = Some _ |- _ => apply IHv in H
      | H : json.members n _ _ = Some _ |- _ => apply IHm in H
      end; shorter_facts; cbn [String.length] in *; lia.
Qed.

(** ** The JSON decoder: fuel beyond twice the length changes nothing *)
Ltac fuel_facts :=
  repeat match goal with
  | H : json.value_ ?n _ _ = Some _ |- _ => apply (proj1 (value_shorter n)) in H
  | H : json.elements ?n _ _ = Some _ |- _ => apply (proj1 (proj2 (value_shorter n))) in H
  | H : json.members ?n _ _ = Some _ |- _ => apply (proj2 (proj2 (value_shorter n))) in H
  end; shorter_facts; cbn [String.length] in *.

Lemma fuel_step (n : nat) :
  (∀ d s, (2 * String.length s < n)%nat → json.value_ n d s = json.value_ (S n) d s)
  ∧ (∀ d s, (2 * String.length s + 1 < n)%nat → json.elements n d s = json.elements (S n) d s)
  ∧ (∀ d s, (2 * String.length s < n)%nat → json.members n d s = json.members (S n) d s).
Proof.
  induction n as [|n (IHv & IHe & IHm)]; [repeat split; intros; lia|].
  split; [|split]; intros d s Hn.
  - cbn [json.value_].
    repeat first
      [ reflexivity
      | match goal with
        | |- context [json.elements n ?d' ?t] => rewrite (IHe d' t) by (fuel_facts; lia)
        | |- context [json.members n ?d' ?t] => rewrite (IHm d' t) by (fuel_facts; lia)
        end
      | case_match ].
  - cbn [json.elements].
    rewrite (IHv d s) by lia.
    destruct (json.value_ (S n) d s) as [[v r]|] eqn:Hv; [|done]. cbn [mbind option_bind].
    repeat first
      [ reflexivity
      | match goal with
        | |- context [json.elements n ?d' ?t] => rewrite (IHe d' t) by (fuel_facts; lia)
        end
      | case_match ].
  - cbn [json.members].
    repeat first
      [ reflexivity
      | match goal with
        | |- context [json.value_ n ?d' ?t] => rewrite (IHv d' t) by (fuel_facts; lia)
        | |- context [json.members n ?d' ?t] => rewrite (IHm d' t) by (fuel_facts; lia)
        | |- context [mbind _ ?o] =>
            is_var o || (destruct o as [[??]|] eqn:?; cbn [mbind option_bind])
        end
      | case_match ].
Qed.

Lemma fuel_irrelevant (n m : nat) (d : N) (s : string) :
  (2 * String.length s < n)%nat → (n ≤ m)%nat → json.value_ n d s = json.value_ m d s.
Proof.
  intros Hn Hm. induction Hm as [|m Hm IH]; [done|].
  rewrite IH. apply fuel_step. lia.
Qed.

(** The fuel given by [parse] is enough: more fuel gives the same value. *)
Lemma parse_fuel (fuel : nat) (data : string) :
  (2 * String.length data < fuel)%nat →
  json.parse data =
  '(v, r) ← json.value_ fuel 0 data;
  if bool_decide (json.skip_space r = "") then Some v else None.
Proof.
  intros Hf. unfold json.parse.
  rewrite (fuel_irrelevant (2 * String.length data + 1) fuel); [done|lia|lia].
Qed.

(** An input that is not one JSON value is a syntax error, and leaves the
    destination as it was. *)
Lemma Unmarshal_invalid `{json.Struct R} (data : string) (v : R) :
  json.parse data = None → json.Unmarshal data v = (v, Some SyntaxError).
Proof. unfold json.Unmarshal. by intros ->. Qed.

Example Unmarshal_truncated :
  json.Unmarshal (dq "{'RequestId':")
    {| message.SMS_Response := message.zero_Response; message.BizID := "" |}
  = ({| message.SMS_Response := message.zero_Response; message.BizID := "" |},
     Some SyntaxError).
Proof. vm_compute. reflexivity. Qed.

(** Keys are matched up to case, the exact name first; a later member
    overrides an earlier one; unknown keys are skipped. *)
Example Unmarshal_keys :
  json.Unmarshal (dq "{'code':'a','CODE':'b','Other':[1,2],'bizid':'7','Message':null}")
    {| message.SMS_Response := message.zero_Response; message.BizID := "" |}
  = ({| message.SMS_Response :=
          {| message.RequestID := ""; message.Code := "b"; message.Message := "" |};
        message.BizID := "7" |},
     None).
Proof. vm_compute. reflexivity. Qed.

(** * Further properties of the client *)

(** ** The encoders, byte by byte *)

Lemma sapp_inv_l (a b c : string) : a +:+ b = a +:+ c → b = c.
Proof. induction a as [|x a IH]; [done|]. rewrite !sapp_cons. intros [=]. auto. Qed.

Lemma form_encode_app (a b : string) :
  spec.form_encode (a +:+ b) = spec.form_encode a +:+ spec.form_encode b.
Proof.
  induction a as [|c a IH]; [done|].
  rewrite sapp_cons. cbn [spec.form_encode]. by rewrite IH, sapp_assoc.
Qed.

(** X1. Both encoders work byte by byte: the encoding of a concatenation
    is the concatenation of the encodings. *)
Theorem SpecialURLEncode_app (a b : string) :
  message.SpecialURLEncode (a +:+ b) = message.SpecialURLEncode a +:+ message.SpecialURLEncode b
  ∧ url.QueryEscape (a +:+ b) = url.QueryEscape a +:+ url.QueryEscape b.
Proof.
  rewrite !SpecialURLEncode_bytes, !QueryEscape_form_encode.
  split; [apply special_bytes_app | apply form_encode_app].
Qed.

Lemma well_formed_special_byte (c : ascii) (r : string) :
  escaped.well_formed escaped.none (spec.special_byte c +:+ r)
  = escaped.well_formed escaped.none r.
Proof.
  each_byte c; eval_byte spec.special_byte; rewrite ?sapp_cons, sapp_nil_l; reflexivity.
Qed.

Lemma well_formed_form_byte (c : ascii) (r : string) :
  escaped.well_formed escaped.plus (spec.form_byte c +:+ r)
  = escaped.well_formed escaped.plus r.
Proof.
  each_byte c; eval_byte spec.form_byte; rewrite ?sapp_cons, sapp_nil_l; reflexivity.
Qed.

Lemma well_formed_special_bytes (s : string) :
  escaped.well_formed escaped.none (spec.special_bytes s) = true.
Proof.
  induction s as [|c s IH]; [done|]. cbn [spec.special_bytes].
  by rewrite well_formed_special_byte.
Qed.

Lemma well_formed_form_encode (s : string) :
  escaped.well_formed escaped.plus (spec.form_encode s) = true.
Proof.
  induction s as [|c s IH]; [done|]. cbn [spec.form_encode].
  by rewrite well_formed_form_byte.
Qed.

(** A byte that a well-formed text has no place for does not occur in
    it. *)
Lemma well_formed_absent (extra : ascii → bool) (c : ascii) (s : string) :
  escaped.well_formed extra s = true →
  spec.unreserved c = false → extra c = false → c ≠ "%"%char →
  strings.Contains s (String c "") = false.
Proof.
  intros Hs Hc He Hp. remember (String.length s) as n eqn:Hn.
  revert s Hn Hs. induction n as [n IH] using lt_wf_ind. intros s -> Hs.
  destruct s as [|x t]; [done|].
  cbn [strings.Contains]. rewrite prefix_char.
  cbn [escaped.well_formed] in Hs.
  destruct (Ascii.eqb_spec x "%") as [->|Hx].
  - rewrite bool_decide_eq_false_2 by done. cbn [orb].
    destruct t as [|y [|z r]]; try done.
    apply andb_prop in Hs as [[Hy Hz]%andb_prop Hr].
    cbn [strings.Contains]. rewrite !prefix_char.
    rewrite !bool_decide_eq_false_2; cbn [orb].
    + apply (IH (String.length r)); [simpl; lia|done|done].
    + intros ->. revert Hz Hc. clear. each_byte z; vm_compute; congruence.
    + intros ->. revert Hy Hc. clear. each_byte y; vm_compute; congruence.
  - apply andb_prop in Hs as [Hx' Ht].
    rewrite bool_decide_eq_false_2; cbn [orb].
    + apply (IH (String.length t)); [simpl; lia|done|done].
    + intros ->. rewrite Hc, He in Hx'. done.
Qed.

(** X2. What the encoders write is well formed: unreserved bytes and
    escapes [%XY] with upper-case hexadecimal digits, and [+] as well for
    [url.QueryEscape].  No other byte occurs; in particular [&], [=], [/],
    [?], [#] and the space do not, nor does [+] in the special encoding. *)
Theorem SpecialURLEncode_well_formed (s : string) :
  escaped.well_formed escaped.none (message.SpecialURLEncode s) = true
  ∧ escaped.well_formed escaped.plus (url.QueryEscape s) = true
  ∧ (∀ c : ascii, spec.unreserved c = false → c ≠ "%"%char →
       strings.Contains (message.SpecialURLEncode s) (String c "") = false)
  ∧ (∀ c : ascii, spec.unreserved c = false → c ≠ "%"%char → c ≠ "+"%char →
       strings.Contains (url.QueryEscape s) (String c "") = false).
Proof.
  rewrite SpecialURLEncode_bytes, QueryEscape_form_encode.
  pose proof (well_formed_special_bytes s) as H1.
  pose proof (well_formed_form_encode s) as H2.
  repeat split; try done.
  - intros c Hc Hp. by apply (well_formed_absent escaped.none).
  - intros c Hc Hp Hplus. apply (well_formed_absent escaped.plus); try done.
    unfold escaped.plus. by destruct (Ascii.eqb_spec c "+").
Qed.

Lemma decode_special_byte (c : ascii) (r : string) :
  escaped.decode false (spec.special_byte c +:+ r) = String c (escaped.decode false r).
Proof.
  each_byte c; eval_byte spec.special_byte; rewrite ?sapp_cons, sapp_nil_l; reflexivity.
Qed.

Lemma decode_form_byte (c : ascii) (r : string) :
  escaped.decode true (spec.form_byte c +:+ r) = String c (escaped.decode true r).
Proof.
  each_byte c; eval_byte spec.form_byte; rewrite ?sapp_cons, sapp_nil_l; reflexivity.
Qed.

(** Reading the encoding back gives the input. *)
Lemma decode_special_bytes (s : string) : escaped.decode false (spec.special_bytes s) = s.
Proof.
  induction s as [|c s IH]; [done|]. cbn [spec.special_bytes].
  by rewrite decode_special_byte, IH.
Qed.

Lemma decode_form_encode (s : string) : escaped.decode true (spec.form_encode s) = s.
Proof.
  induction s as [|c s IH]; [done|]. cbn [spec.form_encode].
  by rewrite decode_form_byte, IH.
Qed.

Lemma QueryEscape_inj (a b : string) : url.QueryEscape a = url.QueryEscape b → a = b.
Proof.
  rewrite !QueryEscape_form_encode. intros Heq.
  by rewrite <- (decode_form_encode a), <- (decode_form_encode b), Heq.
Qed.

(** X3. The special encoding loses nothing: two inputs with the same
    encoding are the same. *)
Theorem SpecialURLEncode_injective (a b : string) :
  message.SpecialURLEncode a = message.SpecialURLEncode b → a = b.
Proof.
  rewrite !SpecialURLEncode_bytes. intros Heq.
  by rewrite <- (decode_special_bytes a), <- (decode_special_bytes b), Heq.
Qed.

Lemma SpecialURLEncode_injective_witness : "a b*~" = "a b*~".
Proof. apply SpecialURLEncode_injective. reflexivity. Defined.

Lemma plus_step_byte (c : ascii) :
  strings.replace_loop "+" "%20" None 0 (spec.form_byte c) = spec.special_byte c.
Proof. each_byte c; vm_compute; reflexivity. Qed.

Lemma plus_step (s : string) :
  strings.replace_loop "+" "%20" None 0 (spec.form_encode s) = spec.special_bytes s.
Proof.
  induction s as [|c s IH]; [done|]. cbn [spec.form_encode spec.special_bytes].
  by rewrite replace_loop_char_app, plus_step_byte, IH.
Qed.

Lemma form_byte_special_byte (c : ascii) :
  c ≠ " "%char → spec.form_byte c = spec.special_byte c.
Proof. unfold spec.form_byte. by destruct (Ascii.eqb_spec c " "). Qed.

Lemma special_form_same (s : string) :
  spec.special_bytes s = spec.form_encode s ↔ strings.Contains s " " = false.
Proof.
  induction s as [|c s IH]; [done|].
  cbn [spec.special_bytes spec.form_encode strings.Contains]. rewrite prefix_char.
  destruct (decide (c = " "%char)) as [->|Hc].
  - split; [|done].
    change (spec.special_byte " ") with "%20". change (spec.form_byte " ") with "+".
    rewrite !sapp_cons. done.
  - rewrite form_byte_special_byte by done.
    rewrite (bool_decide_eq_false_2 (" "%char = c)) by done. cbn [orb].
    rewrite <- IH. split; [apply sapp_inv_l | by intros ->].
Qed.

(** X4. Of the three substitutions of the special encoding only the first
    changes anything: [url.QueryEscape] has escaped every [*] already and
    never writes [%7E].  The special encoding differs from
    [url.QueryEscape] exactly on the inputs that hold a space. *)
Theorem SpecialURLEncode_substitutions (s : string) :
  message.SpecialURLEncode s = strings.Replace (url.QueryEscape s) "+" "%20" (-1)
  ∧ (message.SpecialURLEncode s = url.QueryEscape s ↔ strings.Contains s " " = false).
Proof.
  rewrite SpecialURLEncode_bytes, QueryEscape_form_encode, Replace_unfold by done.
  split; [by rewrite plus_step | apply special_form_same].
Qed.

Lemma length_special_bytes_reserved (s : string) :
  String.length (spec.special_bytes s) = (String.length s + 2 * escaped.reserved s)%nat.
Proof.
  induction s as [|c s IH]; [done|]. cbn [spec.special_bytes escaped.reserved].
  rewrite slength_app, IH. destruct (spec.unreserved c) eqn:Hc.
  - rewrite special_byte_unreserved by done. simpl. lia.
  - rewrite special_byte_reserved by done. simpl. lia.
Qed.

Lemma reserved_le (s : string) : (escaped.reserved s ≤ String.length s)%nat.
Proof. induction s as [|c s IH]; [done|]. simpl. destruct (spec.unreserved c); lia. Qed.

(** X5. The special encoding writes one byte for an unreserved byte and
    three for any other: the result is at least as long as the input and at
    most three times as long. *)
Theorem SpecialURLEncode_length (s : string) :
  String.length (message.SpecialURLEncode s)
  = (String.length s + 2 * escaped.reserved s)%nat
  ∧ (String.length s ≤ String.length (message.SpecialURLEncode s))%nat
  ∧ (String.length (message.SpecialURLEncode s) ≤ 3 * String.length s)%nat.
Proof.
  rewrite SpecialURLEncode_bytes, length_special_bytes_reserved.
  pose proof (reserved_le s). lia.
Qed.

(** ** The shape of the signature *)

Lemma length_checkSum (d : sha1.digest) : length (sha1.checkSum d) = 20%nat.
Proof. unfold sha1.checkSum. by destruct (sha1.h _). Qed.

Lemma length_hmac_Sum (m : hmac.hmac) : length (hmac.Sum m []) = 20%nat.
Proof. unfold hmac.Sum, sha1.Sum. cbn [length take app]. apply length_checkSum. Qed.

(** The base64 text of twenty bytes: twenty-seven characters and one
    [=]. *)
Lemma EncodeToString_20 (src : list Z) :
  length src = 20%nat →
  ∃ t, base64.EncodeToString src = t +:+ "=" ∧ String.length t = 27%nat.
Proof.
  intros Hlen.
  do 20 (destruct src as [|? src]; [discriminate|]).
  destruct src; [|discriminate].
  cbn [base64.EncodeToString]. cbv zeta.
  eexists (String _ (String _ (String _ (String _ (String _ (String _ (String _ (String _
          (String _ (String _ (String _ (String _ (String _ (String _ (String _ (String _
          (String _ (String _ (String _ (String _ (String _ (String _ (String _ (String _
          (String _ (String _ (String _ ""))))))))))))))))))))))))))).
  split; reflexivity.
Qed.

(** X6. Whatever the secret, the method and the query string are, the
    signature is a well-formed escaped text that ends in [%3D], the escape
    of the one [=] that pads the base64 text of the twenty bytes of the
    digest; in front of it stand the escapes of twenty-seven base64
    characters, between 27 and 81 bytes. *)
Theorem SignedString_shape (c : message.Client) (httpMethod sortedQueryStr : string) :
  ∃ body, message.SignedString c httpMethod sortedQueryStr = body +:+ "%3D"
    ∧ (27 ≤ String.length body)%nat ∧ (String.length body ≤ 81)%nat
    ∧ escaped.well_formed escaped.none body = true.
Proof.
  unfold message.SignedString. cbv zeta.
  destruct (EncodeToString_20 _ (length_hmac_Sum
    (hmac.Write (hmac.New (bytes (message.accessKeySecret c +:+ "&")))
       (bytes (httpMethod +:+ "&" +:+ url.QueryEscape "/" +:+ "&"
               +:+ message.SpecialURLEncode sortedQueryStr))))) as (t & -> & Ht).
  rewrite SpecialURLEncode_bytes, special_bytes_app.
  exists (spec.special_bytes t).
  pose proof (length_special_bytes_reserved t) as Hlen.
  pose proof (reserved_le t) as Hres.
  repeat split; [lia|lia|apply well_formed_special_bytes].
Qed.

(** ** The default common parameters *)

(** X7. [SetDefaultCommonParams] on any parameter set: it binds each of
    its six keys to one value, whatever the key was bound to before, leaves
    every other key as it was, and does nothing to the world. *)
Theorem SetDefaultCommonParams_frame `{message.Helpers} (c : message.Client)
    (v : url.Values) (w : World) :
  let out := message.SetDefaultCommonParams c v w in
  out.2 = w
  ∧ out.1 !! "AccessKeyId" = Some [message.accessKeyID c]
  ∧ out.1 !! "Timestamp" = Some [message.GenTimestamp (clock w)]
  ∧ out.1 !! "Format" = Some ["JSON"]
  ∧ out.1 !! "SignatureMethod" = Some ["HMAC-SHA1"]
  ∧ out.1 !! "SignatureVersion" = Some ["1.0"]
  ∧ out.1 !! "SignatureNonce" = Some [(next_uuid w).1]
  ∧ ∀ k, k ∉ ["AccessKeyId"; "Timestamp"; "Format"; "SignatureMethod"; "SignatureVersion";
              "SignatureNonce"] → out.1 !! k = v !! k.
Proof.
  unfold message.SetDefaultCommonParams, mbind, IO_bind, mret, IO_ret, time_Now, uuid_New.
  destruct (next_uuid w) as [UUID e]. cbn [fst snd]. unfold url.Set_.
  repeat split; try (by simplify_map_eq).
  intros k Hk. rewrite !not_elem_of_cons in Hk. destruct_and!.
  by rewrite !lookup_insert_ne.
Qed.

(** ** The query string without overrides *)

(** The canonical query string of entries with distinct keys: the pairs
    of the keys in ascending order. *)
Lemma Encode_parameter_set (l : list (string * string)) :
  NoDup l.*1 →
  url.Encode (spec.parameter_set l) =
  strings.Join
    ((λ k, spec.query_pair k (default "" (list_to_map (M := gmap string string) l !! k)))
     <$> url.sort_keys l.*1) "&".
Proof.
  intros Hnd. unfold url.Encode.
  rewrite (Encode_range_Permutation _ _ _ (range_parameter_set l Hnd)), Encode_range_Join.
  f_equal. unfold spec.query_pairs.
  assert (∀ k, k ∈ url.sort_keys l.*1 → k ∈ l.*1) as Hsub.
  { intros k. unfold url.sort_keys. by rewrite merge_sort_Permutation. }
  induction (url.sort_keys l.*1) as [|k ks IH]; [done|].
  rewrite bind_cons, fmap_cons, IH by (intros; apply Hsub; by right). f_equal.
  assert (k ∈ l.*1) as Hk by (apply Hsub; by left).
  apply list_elem_of_fmap in Hk as ([k' x] & -> & Hin). cbn [fst].
  unfold lookup_total, map_lookup_total.
  rewrite (parameter_set_lookup l k' x Hnd Hin).
  by rewrite (elem_of_list_to_map_1 (M := gmap string) l k' x Hnd Hin).
Qed.

(** The escapes of the constant keys and values, evaluated. *)
Ltac constant_escapes :=
  repeat match goal with
         | |- context [url.QueryEscape ?s] => rewrite (QueryEscape_unreserved s) by reflexivity
         end.

Lemma SendSMS_entries_Encode `{message.Helpers} (c : message.Client) (w : World)
    (phoneNumbers : list string) (signName templateCode templateParam : string) :
  url.Encode (spec.parameter_set
                (spec.SendSMS_entries c w phoneNumbers signName templateCode templateParam)) =
  "AccessKeyId=" +:+ url.QueryEscape (message.accessKeyID c)
  +:+ "&Action=SendSms&Format=JSON&PhoneNumbers="
  +:+ url.QueryEscape (message.GenPhoneNumbersStr phoneNumbers)
  +:+ "&RegionId=cn-hangzhou&SignName=" +:+ url.QueryEscape signName
  +:+ "&SignatureMethod=HMAC-SHA1&SignatureNonce=" +:+ url.QueryEscape (next_uuid w).1
  +:+ "&SignatureVersion=1.0&TemplateCode=" +:+ url.QueryEscape templateCode
  +:+ "&TemplateParam=" +:+ url.QueryEscape templateParam
  +:+ "&Timestamp=" +:+ url.QueryEscape (message.GenTimestamp (clock w))
  +:+ "&Version=2017-05-25".
Proof.
  rewrite Encode_parameter_set by (refine (bool_decide_unpack _ _); vm_compute; exact I).
  assert (url.sort_keys (spec.SendSMS_entries c w phoneNumbers signName templateCode
            templateParam).*1 =
          ["AccessKeyId"; "Action"; "Format"; "PhoneNumbers"; "RegionId"; "SignName";
           "SignatureMethod"; "SignatureNonce"; "SignatureVersion"; "TemplateCode";
           "TemplateParam"; "Timestamp"; "Version"]) as -> by (vm_compute; reflexivity).
  cbn [fmap list_fmap].
  unfold spec.SendSMS_entries, spec.common_entries, spec.query_pair.
  simplify_map_eq. constant_escapes. by rewrite !sapp_assoc.
Qed.

Lemma MakeSingleCallByTTS_entries_Encode `{message.Helpers} (c : message.Client) (w : World)
    (calledShowNumber calledNumber ttsCode ttsParam : string) :
  url.Encode (spec.parameter_set
                (spec.MakeSingleCallByTTS_entries c w calledShowNumber calledNumber ttsCode
                   ttsParam)) =
  "AccessKeyId=" +:+ url.QueryEscape (message.accessKeyID c)
  +:+ "&Action=SingleCallByTts&CalledNumber=" +:+ url.QueryEscape calledNumber
  +:+ "&CalledShowNumber=" +:+ url.QueryEscape calledShowNumber
  +:+ "&Format=JSON&RegionId=cn-hangzhou&SignatureMethod=HMAC-SHA1&SignatureNonce="
  +:+ url.QueryEscape (next_uuid w).1
  +:+ "&SignatureVersion=1.0&Timestamp=" +:+ url.QueryEscape (message.GenTimestamp (clock w))
  +:+ "&TtsCode=" +:+ url.QueryEscape ttsCode
  +:+ "&TtsParam=" +:+ url.QueryEscape ttsParam
  +:+ "&Version=2017-05-25".
Proof.
  rewrite Encode_parameter_set by (refine (bool_decide_unpack _ _); vm_compute; exact I).
  assert (url.sort_keys (spec.MakeSingleCallByTTS_entries c w calledShowNumber calledNumber
            ttsCode ttsParam).*1 =
          ["AccessKeyId"; "Action"; "CalledNumber"; "CalledShowNumber"; "Format";
           "RegionId"; "SignatureMethod"; "SignatureNonce"; "SignatureVersion";
           "Timestamp"; "TtsCode"; "TtsParam"; "Version"]) as -> by (vm_compute; reflexivity).
  cbn [fmap list_fmap].
  unfold spec.MakeSingleCallByTTS_entries, spec.common_entries, spec.query_pair.
  simplify_map_eq. constant_escapes. by rewrite !sapp_assoc.
Qed.

(** X8. The request of a call without overrides, written out: the
    thirteen parameters in ascending order of their keys, the values of the
    arguments, of the client, of the clock and of the nonce escaped by
    [url.QueryEscape], the constants as they are. *)
Theorem default_query `{message.Helpers} (c : message.Client) (w : World)
    (phoneNumbers : list string) (signName templateCode templateParam : string)
    (calledShowNumber calledNumber ttsCode ttsParam : string) :
  (let sortedQueryStr :=
     "AccessKeyId=" +:+ url.QueryEscape (message.accessKeyID c)
     +:+ "&Action=SendSms&Format=JSON&PhoneNumbers="
     +:+ url.QueryEscape (message.GenPhoneNumbersStr phoneNumbers)
     +:+ "&RegionId=cn-hangzhou&SignName=" +:+ url.QueryEscape signName
     +:+ "&SignatureMethod=HMAC-SHA1&SignatureNonce=" +:+ url.QueryEscape (next_uuid w).1
     +:+ "&SignatureVersion=1.0&TemplateCode=" +:+ url.QueryEscape templateCode
     +:+ "&TemplateParam=" +:+ url.QueryEscape templateParam
     +:+ "&Timestamp=" +:+ url.QueryEscape (message.GenTimestamp (clock w))
     +:+ "&Version=2017-05-25" in
   wire (message.SendSMS c phoneNumbers signName templateCode templateParam [] w).2
   = wire w ++
     [{| http.Method := "GET";
         http.URL := "http://dysmsapi.aliyuncs.com/?Signature="
                     +:+ message.SignedString c "GET" sortedQueryStr
                     +:+ "&" +:+ sortedQueryStr |}])
  ∧
  (let sortedQueryStr :=
     "AccessKeyId=" +:+ url.QueryEscape (message.accessKeyID c)
     +:+ "&Action=SingleCallByTts&CalledNumber=" +:+ url.QueryEscape calledNumber
     +:+ "&CalledShowNumber=" +:+ url.QueryEscape calledShowNumber
     +:+ "&Format=JSON&RegionId=cn-hangzhou&SignatureMethod=HMAC-SHA1&SignatureNonce="
     +:+ url.QueryEscape (next_uuid w).1
     +:+ "&SignatureVersion=1.0&Timestamp="
     +:+ url.QueryEscape (message.GenTimestamp (clock w))
     +:+ "&TtsCode=" +:+ url.QueryEscape ttsCode
     +:+ "&TtsParam=" +:+ url.QueryEscape ttsParam
     +:+ "&Version=2017-05-25" in
   wire (message.MakeSingleCallByTTS c calledShowNumber calledNumber ttsCode ttsParam [] w).2
   = wire w ++
     [{| http.Method := "GET";
         http.URL := "http://dyvmsapi.aliyuncs.com/?Signature="
                     +:+ message.SignedString c "GET" sortedQueryStr
                     +:+ "&" +:+ sortedQueryStr |}]).
Proof.
  rewrite SendSMS_run, MakeSingleCallByTTS_run. cbv zeta.
  cbn [snd spec.sent wire message.apply_params fold_left].
  by rewrite SendSMS_entries_Encode, MakeSingleCallByTTS_entries_Encode.
Qed.

(** ** The query string determines the parameters *)

Lemma form_byte_no_separator (c : ascii) :
  spec.all_bytes escaped.no_separator (spec.form_byte c) = true.
Proof. each_byte c; vm_compute; reflexivity. Qed.

Lemma QueryEscape_no_separator (s : string) :
  spec.all_bytes escaped.no_separator (url.QueryEscape s) = true.
Proof.
  rewrite QueryEscape_form_encode. induction s as [|c s IH]; [done|].
  cbn [spec.form_encode]. by rewrite all_bytes_app, form_byte_no_separator, IH.
Qed.

Lemma special_byte_no_separator (c : ascii) :
  spec.all_bytes escaped.no_separator (spec.special_byte c) = true.
Proof. each_byte c; vm_compute; reflexivity. Qed.

Lemma SpecialURLEncode_no_separator (s : string) :
  spec.all_bytes escaped.no_separator (message.SpecialURLEncode s) = true.
Proof.
  rewrite SpecialURLEncode_bytes. induction s as [|c s IH]; [done|].
  cbn [spec.special_bytes]. by rewrite all_bytes_app, special_byte_no_separator, IH.
Qed.

(** Two texts cut at their first separator: equal heads and equal
    tails. *)
Lemma split_at (p : ascii → bool) (sep : ascii) (a b r r' : string) :
  p sep = false → spec.all_bytes p a = true → spec.all_bytes p b = true →
  a +:+ String sep r = b +:+ String sep r' → a = b ∧ r = r'.
Proof.
  intros Hsep. revert b. induction a as [|x a IH]; intros [|y b]; cbn [spec.all_bytes].
  - rewrite !sapp_nil_l. by intros _ _ [=].
  - rewrite sapp_nil_l, sapp_cons. intros _ [Hy _]%andb_prop [= <- _]. congruence.
  - rewrite sapp_nil_l, sapp_cons. intros [Hx _]%andb_prop _ [= -> _]. congruence.
  - rewrite !sapp_cons. intros [_ Ha]%andb_prop [_ Hb]%andb_prop [= -> Heq].
    destruct (IH b Ha Hb Heq) as [-> ->]. done.
Qed.

Lemma no_split (p : ascii → bool) (sep : ascii) (a b r : string) :
  p sep = false → spec.all_bytes p a = true → a ≠ b +:+ String sep r.
Proof.
  intros Hsep Ha Heq. subst a. rewrite all_bytes_app in Ha. cbn [spec.all_bytes] in Ha.
  rewrite Hsep in Ha. by destruct (spec.all_bytes p b).
Qed.

Lemma Join_cons (x y : string) (l : list string) :
  strings.Join (x :: y :: l) "&" = x +:+ String "&" (strings.Join (y :: l) "&").
Proof. reflexivity. Qed.

Lemma Join_injective (p : ascii → bool) (l1 l2 : list string) :
  p "&"%char = false →
  Forall (λ x, x ≠ "" ∧ spec.all_bytes p x = true) l1 →
  Forall (λ x, x ≠ "" ∧ spec.all_bytes p x = true) l2 →
  strings.Join l1 "&" = strings.Join l2 "&" → l1 = l2.
Proof.
  intros Hsep H1. revert l2. induction H1 as [|x l1 [Hx Hpx] H1 IH]; intros l2 H2 Heq.
  - symmetry. eapply Join_empty; [|done]. eapply Forall_impl; [done|]. by intros ? [].
  - destruct H2 as [|y l2 [Hy Hpy] H2].
    + by destruct l1; destruct x.
    + destruct l1 as [|x' l1], l2 as [|y' l2].
      * unfold strings.Join in Heq. simpl in Heq. by subst.
      * rewrite Join_cons in Heq. by apply (no_split p) in Heq.
      * rewrite Join_cons in Heq. symmetry in Heq. by apply (no_split p) in Heq.
      * rewrite !Join_cons in Heq. apply (split_at p) in Heq as [-> Heq]; try done.
        f_equal. by apply IH.
Qed.

Lemma query_pair_injective (k1 x1 k2 x2 : string) :
  spec.query_pair k1 x1 = spec.query_pair k2 x2 → k1 = k2 ∧ x1 = x2.
Proof.
  unfold spec.query_pair. change ("=" +:+ ?s) with (String "=" s). intros Heq.
  apply (split_at escaped.no_separator) in Heq as [Hk Hx];
    try done; try apply QueryEscape_no_separator.
  split; by apply QueryEscape_inj.
Qed.

Lemma sort_keys_range (v : url.Values) (k : string) :
  k ∈ url.sort_keys (url.range v) ↔ is_Some (v !! k).
Proof.
  unfold url.sort_keys, url.range. rewrite merge_sort_Permutation.
  rewrite list_elem_of_fmap. split.
  - intros ([k' xs] & -> & Hin). apply elem_of_map_to_list in Hin. by eexists.
  - intros [xs Hk]. exists (k, xs). split; [done|]. by apply elem_of_map_to_list.
Qed.

Lemma query_pairs_single (v : url.Values) (ks : list string) :
  map_Forall (λ _ xs, length xs = 1%nat) v →
  (∀ k, k ∈ ks → is_Some (v !! k)) →
  spec.query_pairs ks v = (λ k, spec.query_pair k (hd "" (v !!! k))) <$> ks.
Proof.
  intros Hv. unfold spec.query_pairs. induction ks as [|k ks IH]; intros Hks; [done|].
  rewrite bind_cons, fmap_cons, IH by (intros; apply Hks; by right).
  destruct (Hks k) as [xs Hk]; [by left|].
  unfold lookup_total, map_lookup_total. rewrite Hk. cbn [default].
  apply Hv in Hk. destruct xs as [|x [|? ?]]; try discriminate. done.
Qed.

Lemma query_pairs_injective (f g : string → string) (ks1 ks2 : list string) :
  (λ k, spec.query_pair k (f k)) <$> ks1 = (λ k, spec.query_pair k (g k)) <$> ks2 →
  ks1 = ks2 ∧ ∀ k, k ∈ ks1 → f k = g k.
Proof.
  revert ks2. induction ks1 as [|k ks1 IH]; intros [|k' ks2]; try done.
  - intros _. split; [done|]. by intros k ?%elem_of_nil.
  - rewrite !fmap_cons. intros [= [<- Hx]%query_pair_injective [-> Hks]%IH].
    split; [done|]. intros k0 [->|Hin]%elem_of_cons; auto.
Qed.

Lemma query_pairs_separated (ks : list string) (v : url.Values) :
  Forall (λ x, x ≠ "" ∧ spec.all_bytes (λ c, negb (Ascii.eqb c "&")) x = true)
    (spec.query_pairs ks v).
Proof.
  unfold spec.query_pairs. apply Forall_bind, Forall_forall. intros k _.
  apply Forall_fmap, Forall_forall. intros x _. split; [apply query_pair_nonempty|].
  unfold spec.query_pair. rewrite !all_bytes_app. cbn [spec.all_bytes].
  assert (∀ s, spec.all_bytes (λ c, negb (Ascii.eqb c "&")) (url.QueryEscape s) = true) as Hs.
  { intros s. pose proof (QueryEscape_no_separator s) as Hs.
    induction (url.QueryEscape s) as [|c t IH]; [done|]. cbn [spec.all_bytes] in Hs |- *.
    apply andb_prop in Hs as [[Hc _]%andb_prop Ht]. by rewrite Hc, IH. }
  by rewrite !Hs.
Qed.

Lemma Encode_single_valued (v1 v2 : url.Values) :
  map_Forall (λ _ xs, length xs = 1%nat) v1 →
  map_Forall (λ _ xs, length xs = 1%nat) v2 →
  url.Encode v1 = url.Encode v2 → v1 = v2.
Proof.
  intros H1 H2. unfold url.Encode. rewrite !Encode_range_Join. intros Heq.
  apply (Join_injective (λ c, negb (Ascii.eqb c "&"))) in Heq;
    [|done|apply query_pairs_separated..].
  rewrite !query_pairs_single in Heq by (done || by intros ? ?%sort_keys_range).
  apply query_pairs_injective in Heq as [Hks Hval].
  apply map_eq. intros k.
  destruct (v1 !! k) as [xs|] eqn:Hk1.
  - assert (k ∈ url.sort_keys (url.range v1)) as Hin by (by apply sort_keys_range).
    specialize (Hval k Hin). rewrite Hks in Hin. apply sort_keys_range in Hin as [ys Hk2].
    unfold lookup_total, map_lookup_total in Hval. rewrite Hk1, Hk2 in Hval. cbn in Hval.
    apply H1 in Hk1 as Hl1. apply H2 in Hk2 as Hl2. rewrite Hk2.
    destruct xs as [|x [|? ?]]; try discriminate.
    destruct ys as [|y [|? ?]]; try discriminate. cbn in Hval. by subst.
  - destruct (v2 !! k) as [ys|] eqn:Hk2; [|done].
    assert (k ∈ url.sort_keys (url.range v2)) as Hin by (by apply sort_keys_range).
    rewrite <- Hks in Hin. apply sort_keys_range in Hin as [xs Hk]. congruence.
Qed.

(** X9. The canonical query string determines the parameter set: two
    parameter sets that bind every key of theirs to one value, as [Set]
    does, and have the same encoding are the same.  What is signed is all
    of the parameters. *)
Theorem Encode_injective (v1 v2 : url.Values) :
  map_Forall (λ _ xs, length xs = 1%nat) v1 →
  map_Forall (λ _ xs, length xs = 1%nat) v2 →
  url.Encode v1 = url.Encode v2 → v1 = v2.
Proof. apply Encode_single_valued. Qed.

Lemma Encode_injective_witness :
  spec.parameter_set [("b", "x y"); ("a", "1")] = spec.parameter_set [("a", "1"); ("b", "x y")].
Proof.
  apply Encode_injective.
  - refine (bool_decide_unpack _ _). vm_compute. exact I.
  - refine (bool_decide_unpack _ _). vm_compute. exact I.
  - vm_compute. reflexivity.
Defined.

Lemma parameter_set_single (l : list (string * string)) :
  map_Forall (λ _ xs, length xs = 1%nat) (spec.parameter_set l).
Proof.
  induction l as [|e l IH] using rev_ind; [apply map_Forall_empty|].
  rewrite parameter_set_snoc. by apply map_Forall_insert_2.
Qed.

(** A request determines the canonical query string it was built from:
    the signature in front of it holds no [&]. *)
Lemma request_injective (host : string) (c1 c2 : message.Client) (q1 q2 : string) :
  spec.request host c1 q1 = spec.request host c2 q2 → q1 = q2.
Proof.
  unfold spec.request, spec.final_query. intros [= Heq].
  do 4 apply sapp_inv_l in Heq.
  change ("&" +:+ ?q) with (String "&" q) in Heq.
  unfold message.SignedString in Heq.
  by apply (split_at escaped.no_separator) in Heq as [_ ?];
    try apply SpecialURLEncode_no_separator.
Qed.

Lemma request_parameter_set (host : string) (c1 c2 : message.Client)
    (l1 l2 : list (string * string)) :
  Some (spec.request host c1 (url.Encode (spec.parameter_set l1)))
  = Some (spec.request host c2 (url.Encode (spec.parameter_set l2))) →
  ∀ k, spec.parameter_set l1 !! k = spec.parameter_set l2 !! k.
Proof.
  intros Heq%(inj Some)%request_injective k.
  by rewrite (Encode_single_valued _ _ (parameter_set_single l1) (parameter_set_single l2) Heq).
Qed.

(** X10. Without overrides, the request shows everything it was built
    from: two calls of an operation, by any two clients in any two worlds,
    whose requests are the same had the same access key identifier, the
    same time stamp and the same nonce, and were made with the same
    arguments (the same joined phone numbers, for [SendSMS]).  Each
    operation is stated for itself. *)
Theorem request_determines_parameters `{message.Helpers} :
  (∀ (c c' : message.Client) (w w' : World) (phoneNumbers phoneNumbers' : list string)
     (signName templateCode templateParam signName' templateCode' templateParam' : string),
     last (wire (message.SendSMS c phoneNumbers signName templateCode templateParam [] w).2)
     = last (wire (message.SendSMS c' phoneNumbers' signName' templateCode' templateParam' []
                     w').2) →
     message.accessKeyID c = message.accessKeyID c'
     ∧ message.GenTimestamp (clock w) = message.GenTimestamp (clock w')
     ∧ (next_uuid w).1 = (next_uuid w').1
     ∧ message.GenPhoneNumbersStr phoneNumbers = message.GenPhoneNumbersStr phoneNumbers'
     ∧ signName = signName' ∧ templateCode = templateCode' ∧ templateParam = templateParam')
  ∧ (∀ (c c' : message.Client) (w w' : World)
       (calledShowNumber calledNumber ttsCode ttsParam : string)
       (calledShowNumber' calledNumber' ttsCode' ttsParam' : string),
       last (wire (message.MakeSingleCallByTTS c calledShowNumber calledNumber ttsCode
                     ttsParam [] w).2)
       = last (wire (message.MakeSingleCallByTTS c' calledShowNumber' calledNumber' ttsCode'
                       ttsParam' [] w').2) →
       message.accessKeyID c = message.accessKeyID c'
       ∧ message.GenTimestamp (clock w) = message.GenTimestamp (clock w')
       ∧ (next_uuid w).1 = (next_uuid w').1
       ∧ calledShowNumber = calledShowNumber' ∧ calledNumber = calledNumber'
       ∧ ttsCode = ttsCode' ∧ ttsParam = ttsParam').
Proof.
  split.
  - intros c c' w w' phoneNumbers phoneNumbers' signName templateCode templateParam
      signName' templateCode' templateParam'.
    rewrite !SendSMS_run. cbv zeta.
    cbn [snd message.apply_params fold_left spec.sent wire]. rewrite !last_snoc.
    intros Heq. pose proof (request_parameter_set _ _ _ _ _ Heq) as Hs. clear Heq.
    unfold spec.parameter_set, spec.SendSMS_entries, spec.common_entries, url.Set_ in Hs.
    cbn [app fold_left fst snd] in Hs.
    pose proof (Hs "PhoneNumbers") as H1. pose proof (Hs "SignName") as H2.
    pose proof (Hs "TemplateCode") as H3. pose proof (Hs "TemplateParam") as H4.
    pose proof (Hs "AccessKeyId") as H5. pose proof (Hs "Timestamp") as H6.
    pose proof (Hs "SignatureNonce") as H7.
    clear Hs. simplify_map_eq. done.
  - intros c c' w w' calledShowNumber calledNumber ttsCode ttsParam
      calledShowNumber' calledNumber' ttsCode' ttsParam'.
    rewrite !MakeSingleCallByTTS_run. cbv zeta.
    cbn [snd message.apply_params fold_left spec.sent wire]. rewrite !last_snoc.
    intros Heq. pose proof (request_parameter_set _ _ _ _ _ Heq) as Ht. clear Heq.
    unfold spec.parameter_set, spec.MakeSingleCallByTTS_entries, spec.common_entries,
      url.Set_ in Ht.
    cbn [app fold_left fst snd] in Ht.
    pose proof (Ht "CalledShowNumber") as H1. pose proof (Ht "CalledNumber") as H2.
    pose proof (Ht "TtsCode") as H3. pose proof (Ht "TtsParam") as H4.
    pose proof (Ht "AccessKeyId") as H5. pose proof (Ht "Timestamp") as H6.
    pose proof (Ht "SignatureNonce") as H7.
    clear Ht. simplify_map_eq. done.
Qed.

(** Two calls of [SendSMS] at different times, one with two phone numbers
    and one with a single string that holds both, send the same request
    under the helpers of the examples, which join the numbers with a comma
    and know one time stamp only. *)
Lemma request_determines_parameters_witness :
  message.accessKeyID example_client = message.accessKeyID example_client
  ∧ message.GenTimestamp 0%Z = message.GenTimestamp 5%Z
  ∧ example_uuid = example_uuid
  ∧ message.GenPhoneNumbersStr ["15300000001"; "15300000002"]
    = message.GenPhoneNumbersStr ["15300000001,15300000002"]
  ∧ "sign" = "sign" ∧ "SMS_71390007" = "SMS_71390007" ∧ "{}" = "{}".
Proof.
  apply (proj1 request_determines_parameters example_client example_client
           (example_world (example_uuid, None) "")
           {| clock := 5%Z; next_uuid := (example_uuid, Some SyntaxError);
              remote := λ _, inr SyntaxError; wire := [example_tts_request] |}
           ["15300000001"; "15300000002"] ["15300000001,15300000002"]
           "sign" "SMS_71390007" "{}" "sign" "SMS_71390007" "{}").
  vm_compute. reflexivity.
Defined.

(** ** The bytes of a request *)

Lemma form_byte_url (c : ascii) :
  spec.all_bytes escaped.url_byte (spec.form_byte c) = true.
Proof. each_byte c; vm_compute; reflexivity. Qed.

Lemma special_byte_url (c : ascii) :
  spec.all_bytes escaped.url_byte (spec.special_byte c) = true.
Proof. each_byte c; vm_compute; reflexivity. Qed.

Lemma QueryEscape_url (s : string) :
  spec.all_bytes escaped.url_byte (url.QueryEscape s) = true.
Proof.
  rewrite QueryEscape_form_encode. induction s as [|c s IH]; [done|].
  cbn [spec.form_encode]. by rewrite all_bytes_app, form_byte_url, IH.
Qed.

Lemma SpecialURLEncode_url (s : string) :
  spec.all_bytes escaped.url_byte (message.SpecialURLEncode s) = true.
Proof.
  rewrite SpecialURLEncode_bytes. induction s as [|c s IH]; [done|].
  cbn [spec.special_bytes]. by rewrite all_bytes_app, special_byte_url, IH.
Qed.

Lemma Join_url (l : list string) :
  Forall (λ p, spec.all_bytes escaped.url_byte p = true) l →
  spec.all_bytes escaped.url_byte (strings.Join l "&") = true.
Proof.
  unfold strings.Join. induction 1 as [|p l Hp Hl IH]; [done|].
  destruct l as [|p' l]; [done|].
  change (String.concat "&" (p :: p' :: l)) with (p +:+ "&" +:+ String.concat "&" (p' :: l)).
  by rewrite !all_bytes_app, Hp, IH.
Qed.

Lemma Encode_url (v : url.Values) : spec.all_bytes escaped.url_byte (url.Encode v) = true.
Proof.
  unfold url.Encode. rewrite Encode_range_Join. apply Join_url.
  unfold spec.query_pairs. apply Forall_bind, Forall_forall. intros k _.
  apply Forall_fmap, Forall_forall. intros x _. unfold spec.query_pair. simpl.
  by rewrite !all_bytes_app, !QueryEscape_url.
Qed.

Lemma request_url (host : string) (c : message.Client) (v : url.Values) :
  spec.all_bytes escaped.url_byte host = true →
  spec.all_bytes escaped.url_byte (http.URL (spec.request host c (url.Encode v))) = true.
Proof.
  intros Hh. unfold spec.request, spec.final_query, message.SignedString. cbn [http.URL].
  by rewrite !all_bytes_app, Hh, SpecialURLEncode_url, Encode_url.
Qed.

(** X19. Whatever bytes the arguments, the client and the overrides
    hold, the URL of the request that is sent is made of unreserved ASCII
    bytes and of the marks [%], [+], [&], [=], [:], [/] and [?] only. *)
Theorem request_alphabet `{message.Helpers} (c : message.Client) (w : World)
    (phoneNumbers : list string) (signName templateCode templateParam : string)
    (calledShowNumber calledNumber ttsCode ttsParam : string)
    (params : list message.Param) :
  let sms := message.SendSMS c phoneNumbers signName templateCode templateParam params w in
  let tts := message.MakeSingleCallByTTS c calledShowNumber calledNumber ttsCode ttsParam
               params w in
  (∃ req, last (wire sms.2) = Some req
          ∧ spec.all_bytes escaped.url_byte (http.URL req) = true)
  ∧ (∃ req, last (wire tts.2) = Some req
            ∧ spec.all_bytes escaped.url_byte (http.URL req) = true).
Proof.
  intros sms tts. subst sms tts. rewrite SendSMS_run, MakeSingleCallByTTS_run.
  cbn [snd spec.sent wire]. rewrite !last_snoc.
  split; (eexists; split; [done|]); by apply request_url.
Qed.

(** ** The errors of the two operations *)

(** X12. An error in reading the body of the answer is returned as it is,
    with no success and no response, whatever was read before it: the
    bytes read are not decoded.  Each operation is stated for itself. *)
Theorem read_error `{message.Helpers} :
  (∀ (c : message.Client) (w : World) (phoneNumbers : list string)
     (signName templateCode templateParam : string) (params : list message.Param)
     (req : http.Request) (resp : http.Response) (err : error),
     let sms := message.SendSMS c phoneNumbers signName templateCode templateParam params w in
     last (wire sms.2) = Some req → remote w req = inl resp →
     http.failure (http.Body_ resp) = Some err →
     sms.1 = (false, None, Some err))
  ∧ (∀ (c : message.Client) (w : World)
       (calledShowNumber calledNumber ttsCode ttsParam : string) (params : list message.Param)
       (req : http.Request) (resp : http.Response) (err : error),
       let tts := message.MakeSingleCallByTTS c calledShowNumber calledNumber ttsCode ttsParam
                    params w in
       last (wire tts.2) = Some req → remote w req = inl resp →
       http.failure (http.Body_ resp) = Some err →
       tts.1 = (false, None, Some err)).
Proof.
  split.
  - intros c w phoneNumbers signName templateCode templateParam params req resp err sms.
    subst sms. rewrite SendSMS_run. cbn [fst snd spec.sent wire]. rewrite last_snoc.
    intros [= <-] Ha Hf. unfold spec.outcome. by rewrite Ha, Hf.
  - intros c w calledShowNumber calledNumber ttsCode ttsParam params req resp err tts.
    subst tts. rewrite MakeSingleCallByTTS_run. cbn [fst snd spec.sent wire].
    rewrite last_snoc. intros [= <-] Ha Hf. unfold spec.outcome. by rewrite Ha, Hf.
Qed.

(** The body of the SMS host breaks off behind a complete answer; the
    voice host is not called. *)
Lemma read_error_witness :
  (message.SendSMS example_client ["15300000001"] "sign" "SMS_71390007" "{}" []
     (example_broken_body_world (dq "{'Code':'OK'}") (ErrorString "unexpected EOF"))).1
  = (false, None, Some (ErrorString "unexpected EOF")).
Proof.
  apply (proj1 read_error example_client
           (example_broken_body_world (dq "{'Code':'OK'}") (ErrorString "unexpected EOF"))
           ["15300000001"] "sign" "SMS_71390007" "{}" [] example_sms_request
           {| http.StatusCode := 200;
              http.Body_ := {| http.data := dq "{'Code':'OK'}";
                               http.failure := Some (ErrorString "unexpected EOF") |} |});
    vm_compute; reflexivity.
Defined.

Lemma outcome_shape `{json.Struct R} (Code : R → string) (zero : R)
    (answer : http.Response + error) :
  (∃ err, spec.outcome Code zero answer = (false, None, Some err))
  ∨ (∃ r, spec.outcome Code zero answer = (spec.equal_fold (Code r) "OK", Some r, None)).
Proof.
  unfold spec.outcome. destruct answer as [resp|err]; [|by left; eexists].
  destruct (http.failure _) as [err|]; [by left; eexists|].
  destruct (json.Unmarshal _ _) as [r [err|]]; [by left; eexists|by right; eexists].
Qed.

(** X14. The results of the operations have one of two shapes: an error
    with no success and no response, or a response with no error and the
    success that its status code gives.  A response and an error never come
    together, and neither is ever missing. *)
Theorem result_shape `{message.Helpers} (c : message.Client) (w : World)
    (phoneNumbers : list string) (signName templateCode templateParam : string)
    (calledShowNumber calledNumber ttsCode ttsParam : string)
    (params : list message.Param) :
  let sms := message.SendSMS c phoneNumbers signName templateCode templateParam params w in
  let tts := message.MakeSingleCallByTTS c calledShowNumber calledNumber ttsCode ttsParam
               params w in
  ((∃ err, sms.1 = (false, None, Some err))
   ∨ (∃ r, sms.1 = (spec.equal_fold (message.Code (message.SMS_Response r)) "OK",
                    Some r, None)))
  ∧ ((∃ err, tts.1 = (false, None, Some err))
     ∨ (∃ r, tts.1 = (spec.equal_fold (message.Code (message.TTS_Response r)) "OK",
                      Some r, None))).
Proof.
  intros sms tts. subst sms tts. rewrite SendSMS_run, MakeSingleCallByTTS_run.
  cbn [fst]. split.
  - apply (outcome_shape (λ r, message.Code (message.SMS_Response r))).
  - apply (outcome_shape (λ r, message.Code (message.TTS_Response r))).
Qed.

Lemma outcome_error `{json.Struct R} (Code : R → string) (zero : R)
    (answer : http.Response + error) (err : error) :
  (spec.outcome Code zero answer).2 = Some err →
  answer = inr err
  ∨ ∃ resp, answer = inl resp
      ∧ (http.failure (http.Body_ resp) = Some err
         ∨ (http.failure (http.Body_ resp) = None
            ∧ (json.Unmarshal (http.data (http.Body_ resp)) zero).2 = Some err)).
Proof.
  unfold spec.outcome. destruct answer as [resp|e]; [|by intros [= ->]; left].
  intros Herr. right. exists resp. split; [done|].
  destruct (http.failure _) as [e|]; [by left|]. right. split; [done|].
  by destruct (json.Unmarshal _ _) as [r [e|]].
Qed.

(** X15. An error that an operation returns is the error that
    [http.Client.Do] came back with, the error of the reading of the body
    or the error of the decoder.  There is no other: building the request
    never fails, so that the first error branch of the operations is never
    taken.  Each operation is stated for itself. *)
Theorem error_sources `{message.Helpers} :
  (∀ (c : message.Client) (w : World) (phoneNumbers : list string)
     (signName templateCode templateParam : string) (params : list message.Param)
     (req : http.Request) (err : error),
     let sms := message.SendSMS c phoneNumbers signName templateCode templateParam params w in
     last (wire sms.2) = Some req → sms.1.2 = Some err →
     remote w req = inr err
     ∨ ∃ resp, remote w req = inl resp
         ∧ (http.failure (http.Body_ resp) = Some err
            ∨ (http.failure (http.Body_ resp) = None
               ∧ (json.Unmarshal (http.data (http.Body_ resp))
                    {| message.SMS_Response := message.zero_Response;
                       message.BizID := "" |}).2
                 = Some err)))
  ∧ (∀ (c : message.Client) (w : World)
       (calledShowNumber calledNumber ttsCode ttsParam : string) (params : list message.Param)
       (req : http.Request) (err : error),
       let tts := message.MakeSingleCallByTTS c calledShowNumber calledNumber ttsCode ttsParam
                    params w in
       last (wire tts.2) = Some req → tts.1.2 = Some err →
       remote w req = inr err
       ∨ ∃ resp, remote w req = inl resp
           ∧ (http.failure (http.Body_ resp) = Some err
              ∨ (http.failure (http.Body_ resp) = None
                 ∧ (json.Unmarshal (http.data (http.Body_ resp))
                      {| message.TTS_Response := message.zero_Response;
                         message.CallID := "" |}).2
                   = Some err))).
Proof.
  split.
  - intros c w phoneNumbers signName templateCode templateParam params req err sms.
    subst sms. rewrite SendSMS_run. cbn [fst snd spec.sent wire]. rewrite last_snoc.
    intros [= <-] He.
    by apply (outcome_error (λ r, message.Code (message.SMS_Response r))).
  - intros c w calledShowNumber calledNumber ttsCode ttsParam params req err tts.
    subst tts. rewrite MakeSingleCallByTTS_run. cbn [fst snd spec.sent wire].
    rewrite last_snoc. intros [= <-] He.
    by apply (outcome_error (λ r, message.Code (message.TTS_Response r))).
Qed.

(** The call is made in a world where [Do] fails; the SMS host is not
    called. *)
Lemma error_sources_witness :
  let w := example_failing_world (ErrorString "Get: dial tcp: connection refused") in
  remote w example_tts_request = inr (ErrorString "Get: dial tcp: connection refused")
  ∨ ∃ resp, remote w example_tts_request = inl resp
      ∧ (http.failure (http.Body_ resp)
         = Some (ErrorString "Get: dial tcp: connection refused")
         ∨ (http.failure (http.Body_ resp) = None
            ∧ (json.Unmarshal (http.data (http.Body_ resp))
                 {| message.TTS_Response := message.zero_Response;
                    message.CallID := "" |}).2
              = Some (ErrorString "Get: dial tcp: connection refused"))).
Proof.
  apply (proj2 error_sources example_client
           (example_failing_world (ErrorString "Get: dial tcp: connection refused"))
           "02560000000" "1500000000" "TTS_0000" "{}" []);
    vm_compute; reflexivity.
Defined.

(** ** The status codes that are a success *)

Lemma lower_byte_o (c : ascii) :
  spec.lower_byte c = "o"%char → c = "O"%char ∨ c = "o"%char.
Proof. each_byte c; vm_compute; intros [=]; auto. Qed.

Lemma lower_byte_k (c : ascii) :
  spec.lower_byte c = "k"%char → c = "K"%char ∨ c = "k"%char.
Proof. each_byte c; vm_compute; intros [=]; auto. Qed.

(** Equal to [OK] up to case: one of four strings. *)
Lemma equal_fold_OK_iff (code : string) :
  spec.equal_fold code "OK" = true ↔ code ∈ ["OK"; "Ok"; "oK"; "ok"].
Proof.
  split.
  - unfold spec.equal_fold. intros Heq%bool_decide_eq_true.
    destruct code as [|c1 [|c2 [|c3 rest]]]; try discriminate.
    cbn in Heq. injection Heq as H1%lower_byte_o H2%lower_byte_k.
    destruct H1 as [-> | ->], H2 as [-> | ->]; set_solver.
  - rewrite !elem_of_cons, elem_of_nil. intros [->|[->|[->|[->|[]]]]]; reflexivity.
Qed.

Lemma outcome_success `{json.Struct R} (Code : R → string) (zero : R)
    (answer : http.Response + error) :
  (spec.outcome Code zero answer).1.1 = true ↔
  ∃ r, (spec.outcome Code zero answer).1.2 = Some r
       ∧ (spec.outcome Code zero answer).2 = None
       ∧ Code r ∈ ["OK"; "Ok"; "oK"; "ok"].
Proof.
  destruct (outcome_shape Code zero answer) as [[err ->]|[r ->]]; cbn [fst snd].
  - split; [done|]. by intros (r & [=] & _).
  - rewrite equal_fold_OK_iff. split; [by exists r|]. by intros (r' & [= <-] & _ & ?).
Qed.

(** X16. An operation reports success exactly when it returns a response
    and no error and the status code of the response is one of the four
    strings [OK], [Ok], [oK] and [ok]. *)
Theorem success_codes `{message.Helpers} (c : message.Client) (w : World)
    (phoneNumbers : list string) (signName templateCode templateParam : string)
    (calledShowNumber calledNumber ttsCode ttsParam : string)
    (params : list message.Param) :
  let sms := message.SendSMS c phoneNumbers signName templateCode templateParam params w in
  let tts := message.MakeSingleCallByTTS c calledShowNumber calledNumber ttsCode ttsParam
               params w in
  (sms.1.1.1 = true ↔
   ∃ r, sms.1.1.2 = Some r ∧ sms.1.2 = None
        ∧ message.Code (message.SMS_Response r) ∈ ["OK"; "Ok"; "oK"; "ok"])
  ∧ (tts.1.1.1 = true ↔
     ∃ r, tts.1.1.2 = Some r ∧ tts.1.2 = None
          ∧ message.Code (message.TTS_Response r) ∈ ["OK"; "Ok"; "oK"; "ok"]).
Proof.
  intros sms tts. subst sms tts. rewrite SendSMS_run, MakeSingleCallByTTS_run.
  cbn [fst]. split.
  - apply (outcome_success (λ r, message.Code (message.SMS_Response r))).
  - apply (outcome_success (λ r, message.Code (message.TTS_Response r))).
Qed.

(** ** The decoder on the objects the provider answers with *)

(** Concatenations with the constructors brought to the front. *)
Ltac flatten_app := repeat (rewrite sapp_cons || rewrite sapp_assoc || rewrite sapp_nil_l).

Lemma string_body_simple (s rest : string) :
  spec.all_bytes text.simple s = true →
  json.string_body (s +:+ String "034" rest) = Some (s, rest).
Proof.
  induction s as [|c s IH]; [done|]. cbn [spec.all_bytes]. intros [Hc Hs]%andb_prop.
  assert (Ascii.eqb c "034" = false ∧ Ascii.eqb c "092" = false
          ∧ (N_of_ascii c <? 32)%N = false
          ∧ (N_of_ascii c <? 128)%N = true) as (Hq & Hb & Hctl & Hascii).
  { revert Hc. clear. each_byte c; vm_compute; intuition congruence. }
  rewrite sapp_cons. cbn [json.string_body]. by rewrite Hq, Hb, Hctl, Hascii, (IH Hs).
Qed.

Lemma value_string (fuel : nat) (d : N) (x rest : string) :
  spec.all_bytes text.simple x = true →
  json.value_ (S fuel) d (String "034" (x +:+ String "034" rest)) = Some (json.Str x, rest).
Proof.
  intros Hx. cbn [json.value_ json.skip_space].
  change (json.isSpace "034") with false. cbv iota.
  change (Ascii.eqb "034" "{") with false. change (Ascii.eqb "034" "[") with false.
  change (Ascii.eqb "034" "034") with true. cbv iota.
  by rewrite string_body_simple.
Qed.

(** The members of an object of strings, read with fuel for each of
    them. *)
Lemma members_text (fuel : nat) (d : N) (m : string * string) (ms : list (string * string))
    (rest : string) :
  (length ms + 1 < fuel)%nat →
  forallb text.simple_member (m :: ms) = true →
  json.members fuel d (text.members (m :: ms) +:+ String "}" rest) =
  Some (text.as_value <$> m :: ms, rest).
Proof.
  revert fuel m. induction ms as [|m' ms IH]; intros fuel [k x] Hf Hm;
    (destruct fuel as [|f1]; [simpl in Hf; lia|]);
    cbn [forallb] in Hm; apply andb_prop in Hm as [[Hk Hx]%andb_prop Hms];
    cbn [fst snd] in Hk, Hx.
  - cbn [text.members]. unfold text.member, text.quoted. cbn [fst snd]. flatten_app.
    cbn [json.members json.skip_space].
    change (json.isSpace "034") with false. cbv iota.
    change (Ascii.eqb "034" "034") with true. cbv iota.
    rewrite string_body_simple by done. cbn [mbind option_bind json.skip_space].
    change (json.isSpace ":") with false. cbv iota.
    change (Ascii.eqb ":" ":") with true. cbv iota.
    destruct f1 as [|f2]; [simpl in Hf; lia|].
    rewrite value_string by done. cbn [mbind option_bind json.skip_space].
    reflexivity.
  - change (text.members ((k, x) :: m' :: ms))
      with (text.member (k, x) +:+ "," +:+ text.members (m' :: ms)).
    unfold text.member, text.quoted. cbn [fst snd]. flatten_app.
    cbn [json.members json.skip_space].
    change (json.isSpace "034") with false. cbv iota.
    change (Ascii.eqb "034" "034") with true. cbv iota.
    rewrite string_body_simple by done. cbn [mbind option_bind json.skip_space].
    change (json.isSpace ":") with false. cbv iota.
    change (Ascii.eqb ":" ":") with true. cbv iota.
    destruct f1 as [|f2]; [simpl in Hf; lia|].
    rewrite value_string by done. cbn [mbind option_bind json.skip_space].
    change (json.isSpace ",") with false. cbv iota.
    change (Ascii.eqb "," ",") with true. cbv iota.
    rewrite IH; [done| simpl in Hf |- *; lia | done].
Qed.

Lemma length_members_text (ms : list (string * string)) :
  (length ms ≤ String.length (text.members ms))%nat.
Proof.
  induction ms as [|m [|m' ms] IH]; [done|simpl; lia|].
  change (text.members (m :: m' :: ms))
    with (text.member m +:+ "," +:+ text.members (m' :: ms)).
  rewrite !slength_app. cbn [length String.length] in *. lia.
Qed.

(** The text of an object of strings is read as that object; the fuel of
    [parse] is enough for it. *)
Lemma parse_object (ms : list (string * string)) :
  forallb text.simple_member ms = true →
  json.parse (text.object ms) = Some (json.Object (text.as_value <$> ms)).
Proof.
  intros Hms. rewrite (parse_fuel (2 * String.length (text.object ms) + 3)) by lia.
  set (n := (2 * String.length (text.object ms) + 3)%nat).
  assert (length ms + 3 < n)%nat as Hn.
  { subst n. unfold text.object. flatten_app. cbn [String.length]. rewrite slength_app.
    pose proof (length_members_text ms). lia. }
  clearbody n. destruct n as [|n]; [lia|].
  unfold text.object. flatten_app. cbn [json.value_ json.skip_space].
  change (json.isSpace "{") with false. cbv iota.
  change (Ascii.eqb "{" "{") with true. cbv iota.
  change (json.maxNestingDepth <? 0 + 1)%N with false. cbv iota.
  destruct ms as [|m ms]; [done|].
  assert (∃ t, text.members (m :: ms) = String "034" t) as [t Ht].
  { destruct ms; unfold text.members, text.member, text.quoted; flatten_app; eauto. }
  rewrite Ht at 1. flatten_app. cbn [json.skip_space].
  change (json.isSpace "034") with false. cbv iota.
  change (Ascii.eqb "034" "}") with false. cbv iota.
  rewrite members_text; [done| |done].
  cbn [length] in Hn. lia.
Qed.

(** X17. [json.Unmarshal] on the text of a JSON object whose members are
    strings of simple bytes, any number of them and under any keys: there is
    no error of syntax, and the members are stored one after the other, each
    in the field that its key names. *)
Theorem Unmarshal_object `{json.Struct R} (ms : list (string * string)) (v : R) :
  forallb text.simple_member ms = true →
  json.Unmarshal (text.object ms) v =
  fold_left json.store_member (text.as_value <$> ms) (v, None).
Proof. intros Hms. unfold json.Unmarshal. by rewrite parse_object. Qed.

Lemma Unmarshal_object_witness :
  json.Unmarshal (text.object [("code", "ok"); ("Other", "x"); ("BizId", "1^2")])
    {| message.SMS_Response := message.zero_Response; message.BizID := "" |}
  = fold_left json.store_member
      (text.as_value <$> [("code", "ok"); ("Other", "x"); ("BizId", "1^2")])
      ({| message.SMS_Response := message.zero_Response; message.BizID := "" |}, None).
Proof. apply Unmarshal_object. reflexivity. Defined.

(** X18. An answer in the shape the provider documents, an object with the
    members [Message], [RequestId], [BizId] (or [CallId]) and [Code], all
    strings of simple bytes, is decoded field by field as the tags of the
    response structs say, and the operation returns that response, no error,
    and the success its status code gives.  Each operation is stated for
    itself. *)
Theorem answer_decoded `{message.Helpers} :
  (∀ (c : message.Client) (w : World) (phoneNumbers : list string)
     (signName templateCode templateParam : string) (params : list message.Param)
     (req : http.Request) (resp : http.Response) (id code msg biz : string),
     let sms := message.SendSMS c phoneNumbers signName templateCode templateParam params w in
     forallb (spec.all_bytes text.simple) [id; code; msg; biz] = true →
     last (wire sms.2) = Some req → remote w req = inl resp →
     http.Body_ resp =
       {| http.data := text.object [("Message", msg); ("RequestId", id); ("BizId", biz);
                                    ("Code", code)];
          http.failure := None |} →
     sms.1 = (spec.equal_fold code "OK",
              Some {| message.SMS_Response :=
                        {| message.RequestID := id; message.Code := code;
                           message.Message := msg |};
                      message.BizID := biz |},
              None))
  ∧ (∀ (c : message.Client) (w : World)
       (calledShowNumber calledNumber ttsCode ttsParam : string) (params : list message.Param)
       (req : http.Request) (resp : http.Response) (id code msg call : string),
       let tts := message.MakeSingleCallByTTS c calledShowNumber calledNumber ttsCode ttsParam
                    params w in
       forallb (spec.all_bytes text.simple) [id; code; msg; call] = true →
       last (wire tts.2) = Some req → remote w req = inl resp →
       http.Body_ resp =
         {| http.data := text.object [("Message", msg); ("RequestId", id); ("CallId", call);
                                      ("Code", code)];
            http.failure := None |} →
       tts.1 = (spec.equal_fold code "OK",
                Some {| message.TTS_Response :=
                          {| message.RequestID := id; message.Code := code;
                             message.Message := msg |};
                        message.CallID := call |},
                None)).
Proof.
  split.
  - intros c w phoneNumbers signName templateCode templateParam params req resp
      id code msg biz sms.
    subst sms. rewrite SendSMS_run. cbn [fst snd spec.sent wire forallb]. rewrite last_snoc.
    intros Hs [= <-] Ha Hb.
    repeat match goal with H : _ && _ = true |- _ => apply andb_prop in H as [? ?] end.
    unfold spec.outcome. rewrite Ha, Hb. cbn [http.failure http.data].
    unfold json.Unmarshal. rewrite parse_object; [done|].
    cbn [forallb]. unfold text.simple_member. cbn [fst snd].
    by repeat (apply andb_true_intro; split).
  - intros c w calledShowNumber calledNumber ttsCode ttsParam params req resp
      id code msg call tts.
    subst tts. rewrite MakeSingleCallByTTS_run. cbn [fst snd spec.sent wire forallb].
    rewrite last_snoc. intros Hs [= <-] Ha Hb.
    repeat match goal with H : _ && _ = true |- _ => apply andb_prop in H as [? ?] end.
    unfold spec.outcome. rewrite Ha, Hb. cbn [http.failure http.data].
    unfold json.Unmarshal. rewrite parse_object; [done|].
    cbn [forallb]. unfold text.simple_member. cbn [fst snd].
    by repeat (apply andb_true_intro; split).
Qed.

(** The SMS host answers in a world where the voice host cannot be
    reached; the voice host answers with a business failure. *)
Lemma answer_decoded_witness :
  (message.SendSMS example_client ["15300000001"] "sign" "SMS_71390007" "{}" []
     (example_sms_only
        (text.object [("Message", "OK"); ("RequestId", "F655A8D5-B967");
                      ("BizId", "900619746936498440^0"); ("Code", "OK")]))).1
  = (spec.equal_fold "OK" "OK",
     Some {| message.SMS_Response :=
               {| message.RequestID := "F655A8D5-B967"; message.Code := "OK";
                  message.Message := "OK" |};
             message.BizID := "900619746936498440^0" |},
     None)
  ∧ (message.MakeSingleCallByTTS example_client "02560000000" "1500000000" "TTS_0000" "{}" []
       (example_world (example_uuid, None)
          (text.object [("Message", "no money"); ("RequestId", "D9CB3933-9FE3");
                        ("CallId", "100625930001^100584870001");
                        ("Code", "isv.OUT_OF_SERVICE")]))).1
    = (spec.equal_fold "isv.OUT_OF_SERVICE" "OK",
       Some {| message.TTS_Response :=
                 {| message.RequestID := "D9CB3933-9FE3"; message.Code := "isv.OUT_OF_SERVICE";
                    message.Message := "no money" |};
               message.CallID := "100625930001^100584870001" |},
       None).
Proof.
  split.
  - apply (proj1 answer_decoded example_client
             (example_sms_only
                (text.object [("Message", "OK"); ("RequestId", "F655A8D5-B967");
                              ("BizId", "900619746936498440^0"); ("Code", "OK")]))
             ["15300000001"] "sign" "SMS_71390007" "{}" [] example_sms_request
             (example_answer
                (text.object [("Message", "OK"); ("RequestId", "F655A8D5-B967");
                              ("BizId", "900619746936498440^0"); ("Code", "OK")])));
      vm_compute; reflexivity.
  - apply (proj2 answer_decoded example_client
             (example_world (example_uuid, None)
                (text.object [("Message", "no money"); ("RequestId", "D9CB3933-9FE3");
                              ("CallId", "100625930001^100584870001");
                              ("Code", "isv.OUT_OF_SERVICE")]))
             "02560000000" "1500000000" "TTS_0000" "{}" [] example_tts_request
             (example_answer
                (text.object [("Message", "no money"); ("RequestId", "D9CB3933-9FE3");
                              ("CallId", "100625930001^100584870001");
                              ("Code", "isv.OUT_OF_SERVICE")])));
      vm_compute; reflexivity.
Defined.
